(** * MoltOracle: cross-source reconciliation, snapshot cache and rate limiter

    A shallow embedding of [src/sources.js] (the provider adapters,
    [crossVerify], [getFullSnapshot]), of the API server ([checkRateLimit],
    [computeDataHash], [getCachedSnapshot], the [/snapshot], [/price/:asset]
    and [/prices] handlers, the four routes that call their adapter directly
    and [/health]) and of the attestation contract
    ([contracts/MoltOracleAttestation.sol]), followed by the properties of
    the specification stated over it and by further properties of the code.

    Conventions of the embedding.
    - A price is a binary64 number, as [JSON.parse] delivers it: a primitive
      [float] of Rocq, whose operations are those of IEEE 754 with rounding
      to nearest, ties to even.  [crossVerify] computes on prices with these
      operations.  [Math.round] leads from a [float] to a [number]: an exact
      integer, [Infinity], [NegInfinity] or [NaN]; the sign of a zero is
      dropped there, since the code only compares and prints the result.
    - The other numbers of a provider ([usd_24h_change], [tvl], ...) are
      passed on or compared, never computed on: they are rationals ([Q]).
    - A JavaScript object used as a dictionary is a [gmap string _] that
      holds its own properties; reading a key the object does not have finds
      the member of [Object.prototype] of that name, if there is one
      ([read]).  An object with a fixed set of properties is a record.  A
      property that is absent, [undefined] or [null] is [None].
    - [Date.now()] and the providers' replies are inputs: each request comes
      with an [Env] that holds the clock readings and the replies the request
      would observe.  Requests are handled one after the other.
    - Mutable server state ([rateLimits], [cache], [cacheTime]) is passed
      explicitly.  The handlers mutate the object that [getCachedSnapshot]
      returns, which is the very object stored in [cache]: the embedding
      writes those mutations back into the [cache] slot. *)

From Stdlib Require Import ZArith QArith Qround Qabs Lia Lqa String Ascii Floats.
From stdpp Require Import gmap strings list fin_maps pretty sorting.

Local Open Scope Z_scope.
Set Warnings "-register-all".
Set Warnings "-inexact-float".

(** ** JavaScript numbers *)

Inductive number : Type :=
  | Num (q : Q)
  | Infinity
  | NegInfinity
  | NaN.

(** The value of a binary64 number: its exact rational, or one of the three
    special values.  Both zeros have the value 0. *)
Definition to_number (x : float) : number :=
  match Prim2SF x with
  | S754_zero _ => Num 0
  | S754_infinity false => Infinity
  | S754_infinity true => NegInfinity
  | S754_nan => NaN
  | S754_finite s m e =>
      Num ((if s then - inject_Z (Z.pos m) else inject_Z (Z.pos m)) * (2 # 1) ^ e)%Q
  end.

(** [ToNumber] on a property that may be [undefined]: [undefined] is [NaN]. *)
Definition ToNumber (x : option float) : float :=
  match x with
  | Some v => v
  | None => nan
  end.

(** [Math.round] on the value of a number: the nearest integer, a tie going
    up.  It is computed exactly: the nearest integer of a binary64 number is
    a binary64 number. *)
Definition Math_round (x : number) : number :=
  match x with
  | Num q => Num (inject_Z (Qfloor (q + (1 # 2))%Q))
  | other => other
  end.

(** [x <= y] and [x > y]; every comparison with [NaN] is false. *)
Definition js_le (x y : number) : bool :=
  match x, y with
  | NaN, _ | _, NaN => false
  | NegInfinity, _ => true
  | _, Infinity => true
  | Num a, Num b => Qle_bool a b
  | Num _, NegInfinity => false
  | Infinity, (Num _ | NegInfinity) => false
  end.

Definition js_gt (x y : number) : bool :=
  match x, y with
  | NaN, _ | _, NaN => false
  | Num a, Num b => negb (Qle_bool a b)
  | Infinity, (Num _ | NegInfinity) => true
  | Num _, NegInfinity => true
  | _, _ => false
  end.

(** The order of the extended rationals as a relation, for statements. *)
Definition number_le (x y : number) : Prop :=
  match x, y with
  | NaN, _ | _, NaN => False
  | NegInfinity, _ => True
  | _, Infinity => True
  | Num a, Num b => (a <= b)%Q
  | _, _ => False
  end.

Definition number_lt (x y : number) : Prop :=
  match x, y with
  | NaN, _ | _, NaN => False
  | Num a, Num b => (a < b)%Q
  | NegInfinity, (Num _ | Infinity) => True
  | Num _, Infinity => True
  | _, _ => False
  end.

(** An integer as a JavaScript number. *)
Definition of_Z (z : Z) : number := Num (inject_Z z).

(** [n] is the integer nearest to [x], the upper one on a tie. *)
Definition nearest_integer (x : Q) (n : Z) : Prop :=
  (inject_Z n - (1 # 2) <= x)%Q ∧ (x < inject_Z n + (1 # 2))%Q.

(** ** Values handed to [JSON.stringify] *)

Inductive json : Type :=
  | JNull
  | JNumber (n : number)
  | JString (s : string)
  | JArray (items : list json)
  | JObject (members : list (string * json)).

(** ** The names every object literal answers to

    The property names of [Object.prototype]: [o[k]] is defined for each of
    them on every object literal [o]. *)
Definition inherited_names : list string :=
  [ "constructor"; "__proto__"; "hasOwnProperty"; "isPrototypeOf";
    "propertyIsEnumerable"; "toLocaleString"; "toString"; "valueOf";
    "__defineGetter__"; "__defineSetter__"; "__lookupGetter__";
    "__lookupSetter__" ]%string.

(** ** The runtime

    Built-in functions of the JavaScript runtime and of Node's [crypto]
    module that the server calls; the model is parametric in them. *)

Class Runtime : Type := {
  (** [String(n)], as a template literal converts a number *)
  Number_toString : number → string;
  (** [parseInt(s)] *)
  parseInt : string → number;
  (** [JSON.stringify(v)] *)
  JSON_stringify : json → string;
  (** [crypto.createHash('sha256').update(s).digest('hex')] *)
  sha256_hex : string → string;
  (** [new Date(ms).toISOString()] *)
  toISOString : Z → string;
  (** [s.toUpperCase()], which changes nothing in a string it returned and
      returns no string with a letter from a to z, so none of the names of
      [Object.prototype] *)
  toUpperCase : string → string;
  toUpperCase_idempotent : ∀ s, toUpperCase (toUpperCase s) = toUpperCase s;
  toUpperCase_not_inherited : ∀ s, toUpperCase s ∉ inherited_names;
  (** [RATE_LIMIT]: [parseInt(process.env.RATE_LIMIT || '30')] *)
  RATE_LIMIT : Z
}.

(** ** Quotes and reconciled prices *)

(** What a price adapter stores per ticker.  CoinGecko fills [q_change24h]
    and [q_marketCap], DeFiLlama fills [q_confidence]. *)
Record Quote : Type := {
  q_price : float;
  q_change24h : option Q;
  q_marketCap : option Q;
  q_confidence : option Q;
  q_source : string
}.

(** The object [crossVerify] returns, with the properties the handlers add
    to it later ([dataHash], [asset], [timestamp], [iso]). *)
Record PriceInfo : Type := {
  price : option float;
  source_prices : option (option float * option float);
                                     (* prices: { coingecko, defillama } *)
  sources : Z;
  sourceNames : list string;
  confidence : Z;
  divergenceBps : number;
  change24h : option Q;
  marketCap : option Q;
  warning : option string;
  dataHash : option string;
  asset : option string;
  asset_timestamp : option Z;        (* timestamp *)
  asset_iso : option string          (* iso *)
}.

(** ** Completions: a value, or a thrown exception (a rejected promise) *)

Inductive Completion (A : Type) : Type :=
  | Normal (a : A)
  | Throw (message : string).
Global Arguments Normal {A} a.
Global Arguments Throw {A} message.

Global Instance Completion_ret : MRet Completion := λ A a, Normal a.
Global Instance Completion_bind : MBind Completion := λ A B f c,
  match c with
  | Normal a => f a
  | Throw e => Throw e
  end.

(** [try { body } catch (e) { handler }] *)
Definition try_catch {A : Type} (body : Completion A) (handler : string → Completion A)
  : Completion A :=
  match body with
  | Normal a => Normal a
  | Throw e => handler e
  end.

(** ** What the network gives back to [fetch] ([src/sources.js], lines 9-21)

    The request fails (the ['error'] event), the body is not JSON
    ([JSON.parse] throws), or the body parses to [data]. *)

Inductive Response (T : Type) : Type :=
  | NetworkError (message : string)
  | ParseError (message : string)
  | Parsed (data : T).
Global Arguments NetworkError {T} message.
Global Arguments ParseError {T} message.
Global Arguments Parsed {T} data.

Definition fetch {T : Type} (url : string) (r : Response T) : Completion T :=
  match r with
  | NetworkError e => Throw e
  | ParseError e => Throw ("Parse error from " +:+ url +:+ ": " +:+ e)
  | Parsed data => Normal data
  end.

(** ** Provider payloads, at the shape each adapter reads

    A reply that parsed is viewed through the properties the adapter reads.
    A property whose absence makes the adapter skip an entry or throw is
    optional here; the numbers of a provider are taken to be numbers. *)

Record GeckoEntry : Type := {
  usd : float;
  usd_24h_change : option Q;
  usd_market_cap : option Q
}.

Record LlamaEntry : Type := {
  llama_price : float;
  llama_confidence : option Q
}.

Record LlamaPrices : Type := {
  coins : option (gmap string LlamaEntry)
}.

Record FngEntry : Type := {
  fng_value : string;
  fng_value_classification : string;
  fng_timestamp : string
}.

Record FngData : Type := {
  fng_data : option (list FngEntry)
}.

Record LlamaChain : Type := {
  chain_name : string;
  chain_tvl : option Q
}.

Record Circulating : Type := {
  peggedUSD : option Q
}.

Record PeggedAsset : Type := {
  peg_name : string;
  peg_symbol : string;
  peg_circulating : option Circulating;
  peg_price : option Q
}.

Record StablecoinData : Type := {
  peggedAssets : option (list PeggedAsset)
}.

Record GasResult : Type := {
  SafeGasPrice : string;
  ProposeGasPrice : string;
  FastGasPrice : string
}.

Record GasData : Type := {
  gas_status : string;
  gas_result : option GasResult
}.

(** The replies of the six providers during one aggregation cycle. *)
Record Upstream : Type := {
  coingecko_reply : Response (gmap string GeckoEntry);
  defillama_reply : Response LlamaPrices;
  feargreed_reply : Response FngData;
  tvl_reply : Response (option (list LlamaChain));   (* None: not an array *)
  stablecoins_reply : Response StablecoinData;
  gas_reply : Response GasData
}.

(** ** Adapter results and the snapshot *)

Record FearGreed : Type := {
  fg_value : number;
  fg_label : string;
  fg_timestamp : number;
  fg_source : string
}.

Record ChainTvl : Type := {
  chain : string;
  chain_tvl_usd : option Q
}.

Record Tvl : Type := {
  chains : list ChainTvl;
  tvl_source : string
}.

Record Stablecoin : Type := {
  sc_name : string;
  sc_symbol : string;
  sc_circulating : Q;
  sc_price : option Q
}.

Record Stablecoins : Type := {
  stablecoin_list : list Stablecoin;
  stablecoins_source : string
}.

Record Gas : Type := {
  low : number;
  standard : number;
  fast : number;
  gas_source : string
}.

Record Snapshot : Type := {
  timestamp : Z;
  iso : string;
  oracle : string;
  verification : string;
  prices : gmap string PriceInfo;
  fearGreed : option FearGreed;
  tvl : option Tvl;
  stablecoins : option Stablecoins;
  gas : option Gas
}.

(** ** Server state and the inputs of one request *)

Record ServerState : Type := {
  rateLimits : gmap string (list Z);
  cache : option Snapshot;
  cacheTime : Z
}.

Definition initial_state : ServerState :=
  {| rateLimits := ∅; cache := None; cacheTime := 0 |}.

Record Env : Type := {
  now_rate : Z;        (* Date.now() in checkRateLimit *)
  now_check : Z;       (* Date.now() in the freshness test of getCachedSnapshot *)
  upstream : Upstream; (* the providers' replies, were a cycle to run *)
  now_epoch : Z;       (* Date.now() in getFullSnapshot *)
  now_iso : Z;         (* new Date() in getFullSnapshot *)
  now_store : Z        (* Date.now() stored in cacheTime *)
}.

Inductive Body : Type :=
  | ErrorBody (error : string) (limit : option Z) (window : option string)
  | SnapshotBody (data : Snapshot)
  | PriceBody (info : PriceInfo)
  | PricesBody (timestamp : Z) (iso : string) (prices : gmap string PriceInfo).

Record HttpResponse : Type := {
  status : Z;
  body : Body
}.

Inductive Request : Type :=
  | GetSnapshot (ip : string)
  | GetPrice (ip : string) (asset : string)
  | GetPrices (ip : string).

(** ** Small library functions *)

(** [x || 0] on an optional number. *)
Definition or_zero (x : option Q) : Q :=
  match x with
  | Some q => q
  | None => 0%Q
  end.

(** [Array.prototype.sort] with a comparator: a stable sort; [a] stays before
    a later [b] unless [cmp a b > 0]. *)
Fixpoint sort_insert {A : Type} (cmp : A → A → Q) (x : A) (l : list A) : list A :=
  match l with
  | [] => [x]
  | y :: l' =>
      if Qle_bool (cmp x y) 0 then x :: y :: l' else y :: sort_insert cmp x l'
  end.

Definition js_sort {A : Type} (cmp : A → A → Q) (l : list A) : list A :=
  foldr (sort_insert cmp) [] l.

(** [Array.prototype.join] *)
Fixpoint join (sep : string) (l : list string) : string :=
  match l with
  | [] => ""
  | [x] => x
  | x :: rest => x +:+ sep +:+ join sep rest
  end.

(** ** Reading a key of an object literal

    [o[k]] on an object literal finds the property [k] of [o] or, when [o]
    has none, the member of [Object.prototype] of that name: a function, or
    [Object.prototype] itself for ["__proto__"].  Such a member is truthy and
    has none of the properties of a quote. *)
Inductive Member : Type :=
  | Own (q : Quote)
  | Inherited.

Definition read (o : gmap string Quote) (k : string) : option Member :=
  match o !! k with
  | Some q => Some (Own q)
  | None => if decide (k ∈ inherited_names) then Some Inherited else None
  end.

(** [m.price], [m.change24h] and [m.marketCap] *)
Definition member_price (m : Member) : option float :=
  match m with
  | Own q => Some (q_price q)
  | Inherited => None
  end.

Definition member_change24h (m : Member) : option Q :=
  match m with
  | Own q => q_change24h q
  | Inherited => None
  end.

Definition member_marketCap (m : Member) : option Q :=
  match m with
  | Own q => q_marketCap q
  | Inherited => None
  end.

(** [String(m)] of an inherited member, as [Array.prototype.join] converts
    it. *)
Definition member_text (k : string) : string :=
  if decide (k = "__proto__"%string) then "[object Object]"
  else if decide (k = "constructor"%string) then "function Object() { [native code] }"
  else "function " +:+ k +:+ "() { [native code] }".

(** [ids[a]] on the id table of a price adapter. *)
Definition read_id (ids : list (string * string)) (a : string) : option string :=
  match (list_to_map ids : gmap string string) !! a with
  | Some id => Some id
  | None => if decide (a ∈ inherited_names) then Some (member_text a) else None
  end.

(** Property writes on a reconciled price and on a snapshot. *)
Definition set_dataHash (h : string) (p : PriceInfo) : PriceInfo :=
  {| price := price p; source_prices := source_prices p; sources := sources p;
     sourceNames := sourceNames p; confidence := confidence p;
     divergenceBps := divergenceBps p; change24h := change24h p;
     marketCap := marketCap p; warning := warning p;
     dataHash := Some h; asset := asset p;
     asset_timestamp := asset_timestamp p; asset_iso := asset_iso p |}.

Definition set_asset_fields (a : string) (t : Z) (i : string) (p : PriceInfo) : PriceInfo :=
  {| price := price p; source_prices := source_prices p; sources := sources p;
     sourceNames := sourceNames p; confidence := confidence p;
     divergenceBps := divergenceBps p; change24h := change24h p;
     marketCap := marketCap p; warning := warning p;
     dataHash := dataHash p; asset := Some a;
     asset_timestamp := Some t; asset_iso := Some i |}.

Definition set_prices (ps : gmap string PriceInfo) (s : Snapshot) : Snapshot :=
  {| timestamp := timestamp s; iso := iso s; oracle := oracle s;
     verification := verification s; prices := ps; fearGreed := fearGreed s;
     tvl := tvl s; stablecoins := stablecoins s; gas := gas s |}.

Definition set_rateLimits (r : gmap string (list Z)) (st : ServerState) : ServerState :=
  {| rateLimits := r; cache := cache st; cacheTime := cacheTime st |}.

Definition set_cache (c : option Snapshot) (st : ServerState) : ServerState :=
  {| rateLimits := rateLimits st; cache := c; cacheTime := cacheTime st |}.

Section Oracle.

Context `{Runtime}.

(** ** The cross-verification engine ([src/sources.js], lines 168-198) *)

Definition crossVerify (coinGecko deFiLlama : gmap string Quote) (a : string)
  : option PriceInfo :=
  match read coinGecko a, read deFiLlama a with
  | None, None => None
  | None, Some dl =>
      Some {| price := member_price dl; source_prices := None; sources := 1;
              sourceNames := ["defillama"%string]; confidence := 60;
              divergenceBps := of_Z 0; change24h := None; marketCap := None;
              warning := None; dataHash := None; asset := None;
              asset_timestamp := None; asset_iso := None |}
  | Some cg, None =>
      Some {| price := member_price cg; source_prices := None; sources := 1;
              sourceNames := ["coingecko"%string]; confidence := 60;
              divergenceBps := of_Z 0; change24h := None; marketCap := None;
              warning := None; dataHash := None; asset := None;
              asset_timestamp := None; asset_iso := None |}
  | Some cg, Some dl =>
      let p0 := ToNumber (member_price cg) in
      let p1 := ToNumber (member_price dl) in
      let avg := ((p0 + p1) / 2)%float in
      let diff := abs (p0 - p1) in
      let divergenceBps := Math_round (to_number ((diff / avg) * 10000)%float) in
      let confidence :=
        if js_le divergenceBps (of_Z 10) then 99
        else if js_le divergenceBps (of_Z 50) then 95
        else if js_le divergenceBps (of_Z 100) then 85
        else if js_le divergenceBps (of_Z 300) then 70
        else 40 in
      Some {| price := Some avg;
              source_prices := Some (member_price cg, member_price dl);
              sources := 2;
              sourceNames := ["coingecko"%string; "defillama"%string];
              confidence := confidence;
              divergenceBps := divergenceBps;
              change24h := member_change24h cg;
              marketCap := member_marketCap cg;
              warning :=
                if js_gt divergenceBps (of_Z 300)
                then Some ("HIGH DIVERGENCE: " +:+ Number_toString divergenceBps
                             +:+ "bps between sources")%string
                else None;
              dataHash := None; asset := None;
              asset_timestamp := None; asset_iso := None |}
  end.

(** ** Provider adapters ([src/sources.js], lines 24-165)

    Every adapter wraps its request and the reading of the reply in
    [try { ... } catch (e) { console.error(...); return <empty> }].  The log
    line is not modelled. *)

Definition gecko_ids : list (string * string) :=
  [ ("BTC", "bitcoin"); ("ETH", "ethereum"); ("SOL", "solana");
    ("BNB", "binancecoin"); ("XRP", "ripple"); ("ADA", "cardano");
    ("AVAX", "avalanche-2"); ("DOGE", "dogecoin"); ("DOT", "polkadot");
    ("MATIC", "matic-network"); ("LINK", "chainlink"); ("UNI", "uniswap");
    ("AAVE", "aave"); ("ARB", "arbitrum"); ("OP", "optimism");
    ("BASE", "base"); ("USDT", "tether"); ("USDC", "usd-coin") ]%string.

Definition llama_ids : list (string * string) :=
  [ ("BTC", "coingecko:bitcoin"); ("ETH", "coingecko:ethereum");
    ("SOL", "coingecko:solana"); ("BNB", "coingecko:binancecoin");
    ("XRP", "coingecko:ripple"); ("ADA", "coingecko:cardano");
    ("AVAX", "coingecko:avalanche-2"); ("DOGE", "coingecko:dogecoin");
    ("LINK", "coingecko:chainlink"); ("UNI", "coingecko:uniswap");
    ("AAVE", "coingecko:aave"); ("ARB", "coingecko:arbitrum");
    ("OP", "coingecko:optimism") ]%string.

(** [assets.map(a => ids[a]).filter(Boolean).join(',')] *)
Definition provider_ids (ids : list (string * string)) (assets : list string) : string :=
  join "," (omap (read_id ids) assets).

Definition gecko_quote (e : GeckoEntry) : Quote :=
  {| q_price := usd e; q_change24h := usd_24h_change e;
     q_marketCap := usd_market_cap e; q_confidence := None;
     q_source := "coingecko" |}.

Definition fetchCoinGecko (assets : list string) (reply : Response (gmap string GeckoEntry))
  : Completion (gmap string Quote) :=
  let geckoIds := provider_ids gecko_ids assets in
  if decide (geckoIds = ""%string) then Normal ∅
  else
    try_catch
      (data ← fetch ("https://api.coingecko.com/api/v3/simple/price?ids=" +:+ geckoIds
                      +:+ "&vs_currencies=usd&include_24hr_change=true&include_market_cap=true")
                    reply;
       Normal (foldl (λ result '(ticker, geckoId),
                        match data !! geckoId with
                        | Some e => <[ticker := gecko_quote e]> result
                        | None => result
                        end) ∅ gecko_ids))
      (λ _, Normal ∅).

(** [confidence: data.coins[llamaId].confidence || 0.99] *)
Definition llama_quote (e : LlamaEntry) : Quote :=
  {| q_price := llama_price e; q_change24h := None; q_marketCap := None;
     q_confidence :=
       Some (match llama_confidence e with
             | Some c => if Qeq_bool c 0 then (99 # 100)%Q else c
             | None => (99 # 100)%Q
             end);
     q_source := "defillama" |}.

Definition fetchDeFiLlama (assets : list string) (reply : Response LlamaPrices)
  : Completion (gmap string Quote) :=
  let coinIds := provider_ids llama_ids assets in
  if decide (coinIds = ""%string) then Normal ∅
  else
    try_catch
      (data ← fetch ("https://coins.llama.fi/prices/current/" +:+ coinIds) reply;
       Normal (foldl (λ result '(ticker, llamaId),
                        match coins data with
                        | Some cs =>
                            match cs !! llamaId with
                            | Some e => <[ticker := llama_quote e]> result
                            | None => result
                            end
                        | None => result
                        end) ∅ llama_ids))
      (λ _, Normal ∅).

(** Reading a property of [undefined], or calling a method the value does
    not have, throws a [TypeError]. *)
Definition TypeError {A : Type} : Completion A :=
  Throw "TypeError".

Definition fetchFearGreed (reply : Response FngData) : Completion (option FearGreed) :=
  try_catch
    (data ← fetch "https://api.alternative.me/fng/?limit=1" reply;
     match fng_data data with
     | Some (first :: _) =>
         Normal (Some {| fg_value := parseInt (fng_value first);
                         fg_label := fng_value_classification first;
                         fg_timestamp := parseInt (fng_timestamp first);
                         fg_source := "alternative.me" |})
     | Some [] | None => TypeError
     end)
    (λ _, Normal None).

Definition fetchTVL (reply : Response (option (list LlamaChain)))
  : Completion (option Tvl) :=
  try_catch
    (data ← fetch "https://api.llama.fi/v2/chains" reply;
     match data with
     | Some array =>
         let top :=
           (λ c, {| chain := chain_name c; chain_tvl_usd := chain_tvl c |}) <$>
           take 15 (js_sort (λ a b, (or_zero (chain_tvl b) - or_zero (chain_tvl a))%Q)
                            array) in
         Normal (Some {| chains := top; tvl_source := "defillama" |})
     | None => TypeError
     end)
    (λ _, Normal None).

(** [s.circulating?.peggedUSD || 0] *)
Definition circulating_usd (s : PeggedAsset) : Q :=
  match peg_circulating s with
  | Some c => or_zero (peggedUSD c)
  | None => 0%Q
  end.

Definition fetchStablecoins (reply : Response StablecoinData)
  : Completion (option Stablecoins) :=
  try_catch
    (data ← fetch "https://stablecoins.llama.fi/stablecoins?includePrices=true" reply;
     match peggedAssets data with
     | Some assets =>
         let top :=
           (λ s, {| sc_name := peg_name s; sc_symbol := peg_symbol s;
                    sc_circulating := circulating_usd s; sc_price := peg_price s |}) <$>
           take 10 (js_sort (λ a b, (circulating_usd b - circulating_usd a)%Q) assets) in
         Normal (Some {| stablecoin_list := top; stablecoins_source := "defillama" |})
     | None => TypeError
     end)
    (λ _, Normal None).

Definition fetchGas (reply : Response GasData) : Completion (option Gas) :=
  try_catch
    (data ← fetch "https://api.etherscan.io/api?module=gastracker&action=gasoracle" reply;
     if decide (gas_status data = "1"%string) then
       match gas_result data with
       | Some r =>
           Normal (Some {| low := parseInt (SafeGasPrice r);
                           standard := parseInt (ProposeGasPrice r);
                           fast := parseInt (FastGasPrice r);
                           gas_source := "etherscan" |})
       | None => TypeError
       end
     else Normal None)
    (λ _, Normal None).

(** ** The aggregation cycle ([src/sources.js], lines 201-228)

    [Promise.all] fulfils with the six results when every adapter fulfils and
    rejects as soon as one rejects. *)

Definition default_assets : list string :=
  [ "BTC"; "ETH"; "SOL"; "BNB"; "XRP"; "LINK"; "AAVE"; "ARB"; "OP"; "UNI" ]%string.

(** [prices[asset] = verified]: a property of [prices], except that the key
    ["__proto__"] sets the prototype of [prices] and adds no property. *)
Definition write (a : string) (verified : PriceInfo) (prices : gmap string PriceInfo)
  : gmap string PriceInfo :=
  if decide (a = "__proto__"%string) then prices else <[a := verified]> prices.

Definition reconcile_all (coinGecko deFiLlama : gmap string Quote) (assets : list string)
  : gmap string PriceInfo :=
  foldl (λ prices a,
           match crossVerify coinGecko deFiLlama a with
           | Some verified => write a verified prices
           | None => prices
           end) ∅ assets.

Definition getFullSnapshot (assets : list string) (up : Upstream) (epoch_ms iso_ms : Z)
  : Completion Snapshot :=
  coinGecko ← fetchCoinGecko assets (coingecko_reply up);
  deFiLlama ← fetchDeFiLlama assets (defillama_reply up);
  fearGreed ← fetchFearGreed (feargreed_reply up);
  tvl ← fetchTVL (tvl_reply up);
  stablecoins ← fetchStablecoins (stablecoins_reply up);
  gas ← fetchGas (gas_reply up);
  Normal {| timestamp := epoch_ms / 1000;
            iso := toISOString iso_ms;
            oracle := "MoltOracle v1.0.0";
            verification := "cross-sourced";
            prices := reconcile_all coinGecko deFiLlama assets;
            fearGreed := fearGreed;
            tvl := tvl;
            stablecoins := stablecoins;
            gas := gas |}.

(** ** The API server *)

(** Rate limiting, in memory and per IP (lines 29-40).  [calls] is the array
    stored in the map, so [calls.push(now)] updates the stored record. *)
Definition window : Z := 3600000.

Definition checkRateLimit (ip : string) (now : Z) (st : ServerState) : bool * ServerState :=
  let recorded := default [] (rateLimits st !! ip) in
  let calls := filter (λ t, now - window < t) recorded in
  if decide (RATE_LIMIT ≤ Z.of_nat (length calls))
  then (false, set_rateLimits (<[ip := calls]> (rateLimits st)) st)
  else (true, set_rateLimits (<[ip := calls ++ [now]]> (rateLimits st)) st).

(** The data hash for on-chain attestation (lines 43-46). *)
Definition computeDataHash (a : string) (p : option float) (srcs : list string) (t : Z)
  : string :=
  let payload :=
    JSON_stringify
      (JObject ([ ("asset"%string, JString a) ]
                ++ match p with
                   | Some v => [ ("price"%string, JNumber (to_number v)) ]
                   | None => []     (* an undefined property is left out *)
                   end
                ++ [ ("sources"%string, JArray (JString <$> srcs));
                     ("timestamp"%string, JNumber (of_Z t)) ])) in
  ("0x" +:+ sha256_hex payload)%string.

(** The cache, 60 seconds (lines 49-58). *)
Definition CACHE_TTL : Z := 60000.

Definition getCachedSnapshot (env : Env) (st : ServerState)
  : Completion Snapshot * ServerState :=
  let refresh :=
    match getFullSnapshot default_assets (upstream env) (now_epoch env) (now_iso env) with
    | Normal fresh =>
        (Normal fresh,
         {| rateLimits := rateLimits st; cache := Some fresh; cacheTime := now_store env |})
    | Throw e => (Throw e, st)
    end in
  match cache st with
  | Some cached =>
      if decide (now_check env - cacheTime st < CACHE_TTL) then (Normal cached, st)
      else refresh
  | None => refresh
  end.

(** The routes (lines 88-129).  [data] is the object held in [cache]; what a
    handler writes into it is written into the cache slot.  The key that
    [/price/:asset] reads in [data.prices] is an upper-cased string, which is
    no name of [Object.prototype]: the read finds an own property or
    nothing. *)
Definition rate_limited (with_quota : bool) : HttpResponse :=
  {| status := 429;
     body := ErrorBody "Rate limited"
               (if with_quota then Some RATE_LIMIT else None)
               (if with_quota then Some "1 hour"%string else None) |}.

Definition server_error (e : string) : HttpResponse :=
  {| status := 500; body := ErrorBody e None None |}.

Definition attach_hashes (data : Snapshot) : Snapshot :=
  set_prices
    (map_imap (λ a info,
                 Some (set_dataHash
                         (computeDataHash a (price info) (sourceNames info) (timestamp data))
                         info))
              (prices data))
    data.

Definition snapshot_handler (ip : string) (env : Env) (st : ServerState)
  : HttpResponse * ServerState :=
  let '(admitted, st1) := checkRateLimit ip (now_rate env) st in
  if negb admitted then (rate_limited true, st1)
  else
    match getCachedSnapshot env st1 with
    | (Normal data, st2) =>
        let data' := attach_hashes data in
        ({| status := 200; body := SnapshotBody data' |}, set_cache (Some data') st2)
    | (Throw e, st2) => (server_error e, st2)
    end.

Definition price_handler (ip : string) (param : string) (env : Env) (st : ServerState)
  : HttpResponse * ServerState :=
  let '(admitted, st1) := checkRateLimit ip (now_rate env) st in
  if negb admitted then (rate_limited false, st1)
  else
    let a := toUpperCase param in
    match getCachedSnapshot env st1 with
    | (Normal data, st2) =>
        match prices data !! a with
        | None =>
            ({| status := 404;
                body := ErrorBody ("Asset " +:+ a +:+ " not tracked") None None |}, st2)
        | Some info =>
            let info' :=
              set_asset_fields a (timestamp data) (iso data)
                (set_dataHash
                   (computeDataHash a (price info) (sourceNames info) (timestamp data))
                   info) in
            ({| status := 200; body := PriceBody info' |},
             set_cache (Some (set_prices (<[a := info']> (prices data)) data)) st2)
        end
    | (Throw e, st2) => (server_error e, st2)
    end.

Definition prices_handler (ip : string) (env : Env) (st : ServerState)
  : HttpResponse * ServerState :=
  let '(admitted, st1) := checkRateLimit ip (now_rate env) st in
  if negb admitted then (rate_limited false, st1)
  else
    match getCachedSnapshot env st1 with
    | (Normal data, st2) =>
        ({| status := 200;
            body := PricesBody (timestamp data) (iso data) (prices data) |}, st2)
    | (Throw e, st2) => (server_error e, st2)
    end.

Definition handle (r : Request) (env : Env) (st : ServerState)
  : HttpResponse * ServerState :=
  match r with
  | GetSnapshot ip => snapshot_handler ip env st
  | GetPrice ip a => price_handler ip a env st
  | GetPrices ip => prices_handler ip env st
  end.

(** Serving a list of requests in order, each with its own inputs. *)
Fixpoint serve (rs : list (Request * Env)) (st : ServerState)
  : list HttpResponse * ServerState :=
  match rs with
  | [] => ([], st)
  | (r, env) :: rest =>
      let '(resp, st1) := handle r env st in
      let '(resps, st2) := serve rest st1 in
      (resp :: resps, st2)
  end.

(** ** Vocabulary of the statements *)

(** The warning text of [crossVerify] for a divergence [d]. *)
Definition high_divergence_warning (d : number) : string :=
  ("HIGH DIVERGENCE: " +:+ Number_toString d +:+ "bps between sources")%string.

(** The divergence [crossVerify] computes from two prices. *)
Definition divergence_of (p0 p1 : float) : number :=
  Math_round (to_number ((abs (p0 - p1) / ((p0 + p1) / 2)) * 10000)%float).

(** The record [crossVerify] builds from the only quote [q] of a ticker. *)
Definition single_source (q : Quote) (name : string) : PriceInfo :=
  {| price := Some (q_price q); source_prices := None; sources := 1;
     sourceNames := [name]; confidence := 60; divergenceBps := of_Z 0;
     change24h := None; marketCap := None; warning := None;
     dataHash := None; asset := None; asset_timestamp := None;
     asset_iso := None |}.

(** The request failed on the network, or its body did not parse. *)
Definition failed {T : Type} (r : Response T) : Prop :=
  match r with
  | NetworkError _ | ParseError _ => True
  | Parsed _ => False
  end.

(** The snapshot of a cycle whose adapters returned the given results. *)
Definition snapshot_of (assets : list string) (epoch_ms iso_ms : Z)
    (coinGecko deFiLlama : gmap string Quote) (fg : option FearGreed)
    (tv : option Tvl) (sc : option Stablecoins) (gs : option Gas) : Snapshot :=
  {| timestamp := epoch_ms / 1000;
     iso := toISOString iso_ms;
     oracle := "MoltOracle v1.0.0";
     verification := "cross-sourced";
     prices := reconcile_all coinGecko deFiLlama assets;
     fearGreed := fg; tvl := tv; stablecoins := sc; gas := gs |}.

(** The cache slot is empty, or what it holds has reached the TTL. *)
Definition stale (env : Env) (st : ServerState) : Prop :=
  cache st = None ∨ CACHE_TTL ≤ now_check env - cacheTime st.

(** The hash a response attaches to asset [a]: read in the body of a
    [/snapshot] response, or of the [/price/a] response. *)
Definition attached_hash (a : string) (resp : HttpResponse) : option string :=
  match body resp with
  | SnapshotBody data => prices data !! a ≫= dataHash
  | PriceBody info => if decide (asset info = Some a) then dataHash info else None
  | _ => None
  end.

(** The properties of a reconciled price that [computeDataHash] reads. *)
Definition hashed_inputs (p : PriceInfo) : option float * list string :=
  (price p, sourceNames p).

(** The timestamps the limiter holds for a client, and those of them that
    are less than one hour old at [now]. *)
Definition calls_of (ip : string) (st : ServerState) : list Z :=
  default [] (rateLimits st !! ip).

Definition live (now : Z) (ts : list Z) : list Z :=
  filter (λ t, now - window < t) ts.


(** Two snapshots with the same timestamp whose price mappings agree on
    what [computeDataHash] reads. *)
Definition same_hashed_inputs (c c' : Snapshot) : Prop :=
  timestamp c' = timestamp c ∧
  ∀ a, hashed_inputs <$> prices c' !! a = hashed_inputs <$> prices c !! a.

(** The hash of asset [a] as the snapshot [c] determines it. *)
Definition snapshot_hash (c : Snapshot) (a : string) : option string :=
  (λ info, computeDataHash a (price info) (sourceNames info) (timestamp c))
    <$> prices c !! a.

(** Every adapter of a cycle over [up] came back with its empty result. *)
Definition all_degraded (up : Upstream) : Prop :=
  fetchCoinGecko default_assets (coingecko_reply up) = Normal ∅ ∧
  fetchDeFiLlama default_assets (defillama_reply up) = Normal ∅ ∧
  fetchFearGreed (feargreed_reply up) = Normal None ∧
  fetchTVL (tvl_reply up) = Normal None ∧
  fetchStablecoins (stablecoins_reply up) = Normal None ∧
  fetchGas (gas_reply up) = Normal None.

End Oracle.

(** ** The routes that bypass the cache, and the health route

    [/fear-greed], [/tvl], [/stablecoins] and [/gas] call their adapter on
    every request; [/health] reads the cache slot and the clock. *)

Inductive DirectBody : Type :=
  | ErrorOnly (error : string)
  | FearGreedBody (fg : FearGreed)
  | TvlBody (t : Tvl)
  | StablecoinsBody (s : Stablecoins)
  | GasBody (g : Gas).

Record DirectResponse : Type := {
  direct_status : Z;
  direct_body : DirectBody
}.

Record Health : Type := {
  health_status : string;
  uptime : Q;
  cacheAge : option Z;
  health_timestamp : string
}.

Section Routes.

Context `{Runtime}.

(** [res.json(x || { error: 'Unavailable' })] after the rate-limit gate and
    inside the route's [try]/[catch]. *)
Definition direct_route {A : Type} (wrap : A → DirectBody)
    (adapter : Completion (option A)) (ip : string) (env : Env) (st : ServerState)
  : DirectResponse * ServerState :=
  let '(admitted, st1) := checkRateLimit ip (now_rate env) st in
  if negb admitted
  then ({| direct_status := 429; direct_body := ErrorOnly "Rate limited" |}, st1)
  else
    match adapter with
    | Normal (Some x) => ({| direct_status := 200; direct_body := wrap x |}, st1)
    | Normal None =>
        ({| direct_status := 200; direct_body := ErrorOnly "Unavailable" |}, st1)
    | Throw e => ({| direct_status := 500; direct_body := ErrorOnly e |}, st1)
    end.

Definition fear_greed_handler (ip : string) (env : Env) (st : ServerState)
  : DirectResponse * ServerState :=
  direct_route FearGreedBody (fetchFearGreed (feargreed_reply (upstream env))) ip env st.

Definition tvl_handler (ip : string) (env : Env) (st : ServerState)
  : DirectResponse * ServerState :=
  direct_route TvlBody (fetchTVL (tvl_reply (upstream env))) ip env st.

Definition stablecoins_handler (ip : string) (env : Env) (st : ServerState)
  : DirectResponse * ServerState :=
  direct_route StablecoinsBody
    (fetchStablecoins (stablecoins_reply (upstream env))) ip env st.

Definition gas_handler (ip : string) (env : Env) (st : ServerState)
  : DirectResponse * ServerState :=
  direct_route GasBody (fetchGas (gas_reply (upstream env))) ip env st.

(** [/health]: [seconds] is [process.uptime()], [now] is [Date.now()] and
    [now_ms] the time of [new Date()]. *)
Definition health_handler (seconds : Q) (now now_ms : Z) (st : ServerState) : Health :=
  {| health_status := "ok";
     uptime := seconds;
     cacheAge :=
       match cache st with
       | Some _ => Some ((now - cacheTime st) / 1000)
       | None => None
       end;
     health_timestamp := toISOString now_ms |}.

(** *** Vocabulary of the further statements *)

(** The tickers a provider table maps. *)
Definition tickers (ids : list (string * string)) : list string := ids.*1.

(** The sort key of the TVL adapter. *)
Definition tvl_key (c : LlamaChain) : Q := or_zero (chain_tvl c).

Definition tvl_item (c : LlamaChain) : ChainTvl :=
  {| chain := chain_name c; chain_tvl_usd := chain_tvl c |}.

Definition stablecoin_item (s : PeggedAsset) : Stablecoin :=
  {| sc_name := peg_name s; sc_symbol := peg_symbol s;
     sc_circulating := circulating_usd s; sc_price := peg_price s |}.

(** A list in descending order of [key]. *)
Definition descending {A : Type} (key : A → Q) (l : list A) : Prop :=
  StronglySorted (λ a b, (key b <= key a)%Q) l.

(** The client of a request to a cached route. *)
Definition client (r : Request) : string :=
  match r with
  | GetSnapshot ip | GetPrice ip _ | GetPrices ip => ip
  end.

(** The clients of the server calling in turn: [(ip, t)] is a check for [ip]
    when the clock reads [t]. *)
Fixpoint check_all (calls : list (string * Z)) (st : ServerState)
  : list bool * ServerState :=
  match calls with
  | [] => ([], st)
  | (ip, t) :: rest =>
      let '(ok, st1) := checkRateLimit ip t st in
      let '(oks, st2) := check_all rest st1 in
      (ok :: oks, st2)
  end.

(** The times of [calls] at which [ip] called and the limiter answered
    [true]. *)
Definition admitted_times (ip : string) (calls : list (string * Z)) (oks : list bool)
  : list Z :=
  (filter (λ c : string * Z * bool, c.1.1 = ip ∧ c.2 = true) (zip calls oks)).*1.*2.

(** The timestamps of [ts] inside the window that opens after [lo]. *)
Definition in_window (lo : Z) (ts : list Z) : list Z :=
  filter (λ t, lo < t ∧ t ≤ lo + window) ts.

(** No client holds more timestamps than the quota allows. *)
Definition records_bounded (st : ServerState) : Prop :=
  ∀ ip ts, rateLimits st !! ip = Some ts →
           Z.of_nat (length ts) ≤ Z.max 0 RATE_LIMIT.

(** The confidence values [crossVerify] can assign. *)
Definition confidence_levels : list Z := [99; 95; 85; 70; 40; 60].

End Routes.

(** ** The attestation contract ([contracts/MoltOracleAttestation.sol])

    Storage is a record; a mapping is a [gmap] read with the zero value as
    default.  A call either succeeds with a return value, the new storage and
    the events it emitted, or reverts and leaves the storage as it was.
    Arguments are within the range of their Solidity type (the ABI decoder
    rejects the others); [attestationCount++] is checked arithmetic. *)

Module Contract.

Definition address : Type := Z.
Definition bytes32 : Type := Z.
Definition MAX_UINT256 : Z := 2 ^ 256 - 1.

Record Attestation : Type := {
  dataHash : bytes32;
  timestamp : Z;
  sourceCount : Z;
  confidence : Z;
  asset : string;
  price : Z;
  maxDivergenceBps : Z
}.

(** The value of a mapping slot that was never written. *)
Definition zero : Attestation :=
  {| dataHash := 0; timestamp := 0; sourceCount := 0; confidence := 0;
     asset := ""; price := 0; maxDivergenceBps := 0 |}.

Inductive Event : Type :=
  | DataAttested (id : Z) (name : string) (usd : Z) (score : Z)
                 (hash : bytes32) (time : Z)
  | OracleTransferred (oldOracle newOracle : address).

Record Storage : Type := {
  oracle : address;
  attestations : gmap Z Attestation;
  attestationCount : Z;
  latestAttestation : gmap string Z
}.

(** [msg.sender] and [block.timestamp] of a call. *)
Record Msg : Type := {
  sender : address;
  block_timestamp : Z
}.

Inductive Result (A : Type) : Type :=
  | Success (value : A) (storage : Storage) (logs : list Event)
  | Reverted (reason : string).
Global Arguments Success {A} value storage logs.
Global Arguments Reverted {A} reason.

(** [attestations[id]] and [latestAttestation[name]] *)
Definition attestation_at (st : Storage) (id : Z) : Attestation :=
  default zero (attestations st !! id).

Definition latest_id (st : Storage) (name : string) : Z :=
  default 0 (latestAttestation st !! name).

Definition constructor (m : Msg) : Storage :=
  {| oracle := sender m; attestations := ∅; attestationCount := 0;
     latestAttestation := ∅ |}.

(** The body shared by [attest] and by the loop of [attestBatch]:
    [id = attestationCount++], the two writes and the event. *)
Definition record (m : Msg) (name : string) (usd count score bps : Z) (hash : bytes32)
    (st : Storage) (logs : list Event) : Result Z :=
  if decide (attestationCount st = MAX_UINT256) then Reverted "Panic(0x11)"
  else
    let id := attestationCount st in
    Success id
      {| oracle := oracle st;
         attestations :=
           <[id := {| dataHash := hash; timestamp := block_timestamp m;
                      sourceCount := count; confidence := score; asset := name;
                      price := usd; maxDivergenceBps := bps |}]> (attestations st);
         attestationCount := id + 1;
         latestAttestation := <[name := id]> (latestAttestation st) |}
      (logs ++ [DataAttested id name usd score hash (block_timestamp m)]).

Definition attest (m : Msg) (name : string) (usd count score bps : Z) (hash : bytes32)
    (st : Storage) : Result Z :=
  if decide (sender m = oracle st) then record m name usd count score bps hash st []
  else Reverted "MoltOracle: not oracle".

(** The loop [for (i = 0; i < assets.length; i++)], over its indices. *)
Fixpoint attest_each (m : Msg) (indices : list nat)
    (assets : list string) (prices sourceCounts confidences bps : list Z)
    (hashes : list bytes32) (st : Storage) (logs : list Event) : Result unit :=
  match indices with
  | [] => Success tt st logs
  | i :: rest =>
      match assets !! i, prices !! i, sourceCounts !! i, confidences !! i,
            bps !! i, hashes !! i with
      | Some name, Some usd, Some count, Some score, Some d, Some hash =>
          match record m name usd count score d hash st logs with
          | Success _ st' logs' =>
              attest_each m rest assets prices sourceCounts confidences bps hashes
                          st' logs'
          | Reverted reason => Reverted reason
          end
      | _, _, _, _, _, _ => Reverted "Panic(0x32)"
      end
  end.

Definition attestBatch (m : Msg)
    (assets : list string) (prices sourceCounts confidences bps : list Z)
    (hashes : list bytes32) (st : Storage) : Result unit :=
  if decide (sender m = oracle st) then
    if decide (length assets = length prices ∧
               length assets = length sourceCounts ∧
               length assets = length confidences ∧
               length assets = length bps ∧
               length assets = length hashes)
    then attest_each m (seq 0 (length assets))
                     assets prices sourceCounts confidences bps hashes st []
    else Reverted "MoltOracle: length mismatch"
  else Reverted "MoltOracle: not oracle".

Definition verify (id : Z) (expectedHash : bytes32) (st : Storage) : bool :=
  bool_decide (dataHash (attestation_at st id) = expectedHash).

Definition getLatestPrice (name : string) (st : Storage) : Z * Z * Z * bytes32 :=
  let a := attestation_at st (latest_id st name) in
  (price a, confidence a, timestamp a, dataHash a).

Definition transferOracle (m : Msg) (newOracle : address) (st : Storage) : Result unit :=
  if decide (sender m = oracle st) then
    if decide (newOracle = 0) then Reverted "MoltOracle: zero address"
    else
      Success tt
        {| oracle := newOracle; attestations := attestations st;
           attestationCount := attestationCount st;
           latestAttestation := latestAttestation st |}
        [OracleTransferred (oracle st) newOracle]
  else Reverted "MoltOracle: not oracle".

(** Transactions, and the storage after a list of them: a call that reverts
    changes nothing. *)
Inductive Tx : Type :=
  | TxAttest (name : string) (usd count score bps : Z) (hash : bytes32)
  | TxAttestBatch (assets : list string) (prices sourceCounts confidences bps : list Z)
                  (hashes : list bytes32)
  | TxTransferOracle (newOracle : address).

Definition storage_after {A : Type} (r : Result A) (st : Storage) : Storage :=
  match r with
  | Success _ st' _ => st'
  | Reverted _ => st
  end.

Definition run (m : Msg) (tx : Tx) (st : Storage) : Storage :=
  match tx with
  | TxAttest name usd count score bps hash =>
      storage_after (attest m name usd count score bps hash st) st
  | TxAttestBatch assets prices sourceCounts confidences bps hashes =>
      storage_after (attestBatch m assets prices sourceCounts confidences bps hashes st) st
  | TxTransferOracle newOracle => storage_after (transferOracle m newOracle st) st
  end.

Definition run_all (txs : list (Msg * Tx)) (st : Storage) : Storage :=
  foldl (λ s '(m, tx), run m tx s) st txs.

(** One row of a batch, and the rows attested one call after the other. *)
Definition Row : Type := string * Z * Z * Z * Z * bytes32.

Fixpoint attest_rows (m : Msg) (rows : list Row) (st : Storage) (logs : list Event)
  : Result unit :=
  match rows with
  | [] => Success tt st logs
  | (name, usd, count, score, d, hash) :: rest =>
      match attest m name usd count score d hash st with
      | Success _ st' logs' => attest_rows m rest st' (logs ++ logs')
      | Reverted reason => Reverted reason
      end
  end.

(** What holds of the storage of a deployed contract: the identifiers in use
    are those below the counter, and [latestAttestation] points at the last
    attestation of each asset that has one. *)
Definition well_formed (st : Storage) : Prop :=
  0 ≤ attestationCount st ∧
  (∀ id, is_Some (attestations st !! id) ↔ 0 ≤ id < attestationCount st) ∧
  (∀ name id, latestAttestation st !! name = Some id →
     ∃ a, attestations st !! id = Some a ∧ asset a = name) ∧
  (∀ id a, attestations st !! id = Some a →
     ∃ last, latestAttestation st !! asset a = Some last ∧ id ≤ last).

(** What a transaction can do to the storage: it keeps it well formed, never
    lowers the counter, keeps every attestation it holds, and keeps an
    oracle other than the zero address. *)
Definition extends (st st' : Storage) : Prop :=
  (well_formed st → well_formed st') ∧
  attestationCount st ≤ attestationCount st' ∧
  (well_formed st → ∀ id a, attestations st !! id = Some a →
                            attestations st' !! id = Some a) ∧
  (oracle st ≠ 0 → oracle st' ≠ 0).

End Contract.

(** ** A concrete runtime and sample inputs

    The closed examples below need a [Runtime].  This one prints integers in
    decimal, as JavaScript does below 10^21, which is all the examples print;
    its other functions are simple stand-ins (the digest in particular is not
    SHA-256), and no example depends on what they return. *)

Definition demo_Number_toString (n : number) : string :=
  match n with
  | Num q =>
      let r := Qred q in
      if decide (Qden r = 1%positive) then pretty (Qnum r)
      else pretty (Qnum r) +:+ "/" +:+ pretty (Z.pos (Qden r))
  | Infinity => "Infinity"
  | NegInfinity => "-Infinity"
  | NaN => "NaN"
  end.

Fixpoint leading_digits (s : string) (acc : option Z) : option Z :=
  match s with
  | EmptyString => acc
  | String c rest =>
      let n := nat_of_ascii c in
      if (48 <=? n)%nat && (n <=? 57)%nat
      then leading_digits rest (Some (10 * default 0 acc + Z.of_nat (n - 48)))
      else acc
  end.

Definition demo_parseInt (s : string) : number :=
  match leading_digits s None with
  | Some z => of_Z z
  | None => NaN
  end.

Definition dquote : string := String (ascii_of_nat 34) EmptyString.

Fixpoint demo_JSON_stringify (v : json) : string :=
  match v with
  | JNull => "null"
  | JNumber n => demo_Number_toString n
  | JString s => dquote +:+ s +:+ dquote
  | JArray items => "[" +:+ join "," (map demo_JSON_stringify items) +:+ "]"
  | JObject members =>
      "{" +:+ join "," (map (λ kv, dquote +:+ fst kv +:+ dquote +:+ ":"
                                    +:+ demo_JSON_stringify (snd kv)) members)
          +:+ "}"
  end.

(** Upper-casing of the ASCII letters, which is what [toUpperCase] does on
    the strings of the examples. *)
Definition upper_ascii (c : ascii) : ascii :=
  let n := nat_of_ascii c in
  if (97 <=? n)%nat && (n <=? 122)%nat then ascii_of_nat (n - 32) else c.

Fixpoint demo_toUpperCase (s : string) : string :=
  match s with
  | EmptyString => EmptyString
  | String c rest => String (upper_ascii c) (demo_toUpperCase rest)
  end.

Definition demo_runtime (quota : Z) : Runtime.
Proof.
  assert (∀ s, demo_toUpperCase (demo_toUpperCase s) = demo_toUpperCase s) as Hidem.
  { intros s. induction s as [|c s IH]; [reflexivity|].
    cbn [demo_toUpperCase]. rewrite IH. f_equal.
    destruct c as [[] [] [] [] [] [] [] []]; reflexivity. }
  refine {| Number_toString := demo_Number_toString;
            parseInt := demo_parseInt;
            JSON_stringify := demo_JSON_stringify;
            sha256_hex := λ payload, "digest-of:" +:+ payload;
            toISOString := λ ms, pretty ms +:+ "ms";
            toUpperCase := demo_toUpperCase;
            toUpperCase_idempotent := Hidem;
            RATE_LIMIT := quota |}.
  intros s Hin. specialize (Hidem s).
  set (t := demo_toUpperCase s) in *. clearbody t. unfold inherited_names in Hin.
  repeat (apply elem_of_cons in Hin as [->|Hin]; [by vm_compute in Hidem|]).
  by apply elem_of_nil in Hin.
Defined.

(** Quotes as in [tests/run.js]. *)
Definition quote (p : float) (name : string) : Quote :=
  {| q_price := p; q_change24h := None; q_marketCap := None;
     q_confidence := None; q_source := name |}.

Definition gecko_ADA : Quote :=
  {| q_price := 0.45; q_change24h := Some 1%Q;
     q_marketCap := Some 15000000000%Q; q_confidence := None;
     q_source := "coingecko" |}.

(** Replies of the two price providers with a quote for BTC each; the four
    other providers are down. *)
Definition sample_upstream : Upstream :=
  {| coingecko_reply :=
       Parsed {[ "bitcoin"%string :=
                   {| usd := 67000; usd_24h_change := Some (- (23 # 10))%Q;
                      usd_market_cap := Some 1300000000000%Q |} ]};
     defillama_reply :=
       Parsed {| coins :=
                   Some {[ "coingecko:bitcoin"%string :=
                             {| llama_price := 67005;
                                llama_confidence := Some (99 # 100) |} ]} |};
     feargreed_reply := NetworkError "ECONNRESET";
     tvl_reply := ParseError "Unexpected token <";
     stablecoins_reply := NetworkError "ETIMEDOUT";
     gas_reply := Parsed {| gas_status := "0"; gas_result := None |} |}.

(** Every provider is down. *)
Definition dead_upstream : Upstream :=
  {| coingecko_reply := NetworkError "ECONNREFUSED";
     defillama_reply := NetworkError "ECONNREFUSED";
     feargreed_reply := NetworkError "ECONNREFUSED";
     tvl_reply := ParseError "Unexpected end of JSON input";
     stablecoins_reply := NetworkError "ECONNREFUSED";
     gas_reply := NetworkError "ECONNREFUSED" |}.

(** A request whose clock reads [t] milliseconds throughout. *)
Definition env_at (t : Z) (up : Upstream) : Env :=
  {| now_rate := t; now_check := t; upstream := up;
     now_epoch := t; now_iso := t; now_store := t |}.

(** The price mappings of one adapter with a single quote. *)
Definition one_quote (a : string) (p : float) (name : string) : gmap string Quote :=
  {[ a := quote p name ]}.

(** The server once it has answered a first [/prices] request at
    [1700000000000] ms with [sample_upstream], under a quota of 30. *)
Definition warm_state : ServerState :=
  (@prices_handler (demo_runtime 30) "10.0.0.1"
     (env_at 1700000000000 sample_upstream) initial_state).2.

(** Three requests within 60 s of the snapshot held by [warm_state]. *)
Definition cached_requests : list (Request * Env) :=
  [ (GetSnapshot "10.0.0.1", env_at 1700000010000 dead_upstream);
    (GetPrice "10.0.0.2" "btc", env_at 1700000020000 dead_upstream);
    (GetSnapshot "10.0.0.3", env_at 1700000059999 dead_upstream) ].

(** A client that has used a quota of two calls at 1000 ms and 2000 ms. *)
Definition spent_state : ServerState :=
  {| rateLimits := {[ "10.0.0.1"%string := [1000; 2000] ]};
     cache := None; cacheTime := 0 |}.

(** Entries of the two price providers: both quote BTC, CoinGecko alone
    quotes DOT (not in the DeFiLlama table), and the DeFiLlama coin carries
    no confidence. *)
Definition gecko_entries : gmap string GeckoEntry :=
  {[ "bitcoin"%string :=
       {| usd := 67000; usd_24h_change := Some (- (23 # 10))%Q;
          usd_market_cap := Some 1300000000000%Q |};
     "polkadot"%string :=
       {| usd := 7; usd_24h_change := None; usd_market_cap := None |} ]}.

Definition llama_coins : gmap string LlamaEntry :=
  {[ "coingecko:bitcoin"%string :=
       {| llama_price := 67005; llama_confidence := None |} ]}.

Definition listed_upstream : Upstream :=
  {| coingecko_reply := Parsed gecko_entries;
     defillama_reply := Parsed {| coins := Some llama_coins |};
     feargreed_reply := NetworkError "ECONNRESET";
     tvl_reply := ParseError "Unexpected token <";
     stablecoins_reply := NetworkError "ETIMEDOUT";
     gas_reply := Parsed {| gas_status := "0"; gas_result := None |} |}.

(** Three pegged assets, one without a circulating amount. *)
Definition pegged_sample : list PeggedAsset :=
  [ {| peg_name := "Dai"; peg_symbol := "DAI";
       peg_circulating := Some {| peggedUSD := Some 5000000000%Q |};
       peg_price := Some 1%Q |};
    {| peg_name := "Ghost"; peg_symbol := "GHO"; peg_circulating := None;
       peg_price := None |};
    {| peg_name := "Tether"; peg_symbol := "USDT";
       peg_circulating := Some {| peggedUSD := Some 100000000000%Q |};
       peg_price := Some 1%Q |} ]%string.

(** Two clients calling a server whose quota is two: the first client calls
    three times within a minute and once more an hour later. *)
Definition traffic : list (string * Z) :=
  [ ("10.0.0.1", 0); ("10.0.0.2", 10); ("10.0.0.1", 20); ("10.0.0.1", 30);
    ("10.0.0.1", 3600025) ]%string.

(** The deployer of the contract, another account, and a first attestation
    of BTC by the deployer. *)
Definition deployer : Contract.Msg :=
  {| Contract.sender := 1; Contract.block_timestamp := 1700000000 |}.

Definition stranger : Contract.Msg :=
  {| Contract.sender := 2; Contract.block_timestamp := 1700000100 |}.

Definition btc_attested : list (Contract.Msg * Contract.Tx) :=
  [ (deployer, Contract.TxAttest "BTC" 6700000000000 2 99 1 12345) ].

(** ** Proof automation *)

(** Closes the case of a request that leaves the cache slot alone and whose
    response carries no hash. *)
Ltac no_hash c :=
  exists c; split; [done|]; split; [done|]; split; [done|];
  intros ? ?; unfold attached_hash; simpl; done.

(** * Properties *)

Section Properties.

Context `{Runtime}.

(** ** Numbers *)

Lemma js_le_spec (x y : number) : js_le x y = true ↔ number_le x y.
Proof.
  destruct x as [a| | |], y as [b| | |]; simpl;
    try (split; [intros; exact I | reflexivity]);
    try (split; [discriminate | contradiction]).
  apply Qle_bool_iff.
Qed.

Lemma js_gt_spec (x y : number) : js_gt x y = true ↔ number_lt y x.
Proof.
  destruct x as [a| | |], y as [b| | |]; simpl;
    try (split; [intros; exact I | reflexivity]);
    try (split; [discriminate | contradiction]).
  rewrite negb_true_iff. split.
  - intros Hle. apply Qnot_le_lt. intros Hab.
    apply Qle_bool_iff in Hab. congruence.
  - intros Hlt. destruct (Qle_bool a b) eqn:E; [|reflexivity].
    apply Qle_bool_iff in E. exfalso. exact (Qlt_not_le _ _ Hlt E).
Qed.

Lemma js_le_false (x y : number) : js_le x y = false ↔ ¬ number_le x y.
Proof.
  rewrite <- js_le_spec. destruct (js_le x y); split; intros; done.
Qed.

Lemma js_gt_false (x y : number) : js_gt x y = false ↔ ¬ number_lt y x.
Proof.
  rewrite <- js_gt_spec. destruct (js_gt x y); split; intros; done.
Qed.

(** Turns the outcome [E] of a [js_le] or [js_gt] test into the order it
    decides. *)
Ltac decide_cmp E :=
  first [ apply js_le_spec in E | apply js_le_false in E
        | apply js_gt_spec in E | apply js_gt_false in E ].

(** [Math.round] of a rational is its nearest integer. *)
Lemma Math_round_nearest (q : Q) :
  nearest_integer q (Qfloor (q + (1 # 2))%Q).
Proof.
  unfold nearest_integer.
  pose proof (Qfloor_le (q + (1 # 2))%Q) as Hlo.
  pose proof (Qlt_floor (q + (1 # 2))%Q) as Hhi.
  rewrite inject_Z_plus in Hhi. change (inject_Z 1) with 1%Q in Hhi.
  split; lra.
Qed.

(** The nearest integer of the claim is unique, so [Math.round] is the only
    function that meets [nearest_integer]. *)
Lemma nearest_integer_unique (q : Q) (n m : Z) :
  nearest_integer q n → nearest_integer q m → n = m.
Proof.
  intros [Hn1 Hn2] [Hm1 Hm2].
  assert (inject_Z n < inject_Z m + 1)%Q as H1 by lra.
  assert (inject_Z m < inject_Z n + 1)%Q as H2 by lra.
  change 1%Q with (inject_Z 1) in H1, H2.
  rewrite <- inject_Z_plus in H1, H2.
  rewrite <- Zlt_Qlt in H1, H2. lia.
Qed.

(** The rows of a table of thresholds are nested. *)
Lemma number_le_widen (d : number) (a b : Z) :
  a ≤ b → number_le d (of_Z a) → number_le d (of_Z b).
Proof.
  intros Hab. destruct d as [q| | |]; simpl; try done.
  intros Hq. apply (Qle_trans _ _ _ Hq). by rewrite <- Zle_Qle.
Qed.

Lemma le_10_le_50 (d : number) : number_le d (of_Z 10) → number_le d (of_Z 50).
Proof. by apply number_le_widen. Qed.

Lemma le_50_le_100 (d : number) : number_le d (of_Z 50) → number_le d (of_Z 100).
Proof. by apply number_le_widen. Qed.

Lemma le_100_le_300 (d : number) : number_le d (of_Z 100) → number_le d (of_Z 300).
Proof. by apply number_le_widen. Qed.

Create HintDb table.
#[local] Hint Resolve le_10_le_50 le_50_le_100 le_100_le_300 : table.

(** ** Binary64 arithmetic

    The operations on [float] are specified by those of [SpecFloat]; what
    the properties need of them is proved there. *)

Lemma SF64add_comm (x y : spec_float) : SF64add x y = SF64add y x.
Proof.
  destruct x as [sx|sx| |sx mx ex], y as [sy|sy| |sy my ey]; try reflexivity.
  - by destruct sx, sy.
  - by destruct sx, sy.
  - unfold SF64add, SFadd. cbv zeta. rewrite (Z.min_comm ey ex).
    f_equal. apply Z.add_comm.
Qed.

Lemma float_add_comm (x y : float) : (x + y)%float = (y + x)%float.
Proof. apply Prim2SF_inj. rewrite !add_spec. apply SF64add_comm. Qed.

(** Rounding does not look at the sign. *)
Lemma SFabs_binary_round (s : bool) (m : positive) (e : Z) :
  SFabs (binary_round prec emax s m e) = SFabs (binary_round prec emax false m e).
Proof.
  unfold binary_round, binary_round_aux.
  destruct (shl_align m e _) as [mz ez].
  destruct (shr_fexp prec emax (Z.pos mz) ez loc_Exact) as [mrs' e'].
  destruct (shr_fexp prec emax _ e' loc_Exact) as [mrs'' e''].
  destruct (shr_m mrs''); [reflexivity| |reflexivity].
  by destruct (e'' <=? emax - prec).
Qed.

Lemma SFabs_binary_normalize_opp (m e : Z) (s : bool) :
  SFabs (binary_normalize prec emax (- m) e s) =
  SFabs (binary_normalize prec emax m e s).
Proof.
  destruct m as [|m|m]; cbn [Z.opp binary_normalize]; [reflexivity| |].
  - apply SFabs_binary_round.
  - symmetry. apply SFabs_binary_round.
Qed.

Lemma SFabs_SF64sub_comm (x y : spec_float) :
  SFabs (SF64sub x y) = SFabs (SF64sub y x).
Proof.
  destruct x as [sx|sx| |sx mx ex], y as [sy|sy| |sy my ey]; try reflexivity;
    try (by destruct sx, sy).
  unfold SF64sub, SFsub. cbv zeta. rewrite (Z.min_comm ey ex).
  rewrite <- SFabs_binary_normalize_opp. f_equal. f_equal. lia.
Qed.

Lemma float_abs_sub_comm (x y : float) : abs (x - y) = abs (y - x).
Proof.
  apply Prim2SF_inj. rewrite !abs_spec, !sub_spec. apply SFabs_SF64sub_comm.
Qed.

(** ** [crossVerify] *)

Lemma read_own (o : gmap string Quote) (k : string) (q : Quote) :
  o !! k = Some q → read o k = Some (Own q).
Proof. intros Hq. unfold read. by rewrite Hq. Qed.

Lemma read_absent (o : gmap string Quote) (k : string) :
  o !! k = None → k ∉ inherited_names → read o k = None.
Proof. intros Hq Hk. unfold read. by rewrite Hq, decide_False. Qed.

Lemma read_inherited (o : gmap string Quote) (k : string) :
  o !! k = None → k ∈ inherited_names → read o k = Some Inherited.
Proof. intros Hq Hk. unfold read. by rewrite Hq, decide_True. Qed.

Lemma crossVerify_two_sources (coinGecko deFiLlama : gmap string Quote) a cg dl :
  coinGecko !! a = Some cg → deFiLlama !! a = Some dl →
  ∃ r, crossVerify coinGecko deFiLlama a = Some r ∧
       price r = Some ((q_price cg + q_price dl) / 2)%float ∧
       divergenceBps r = divergence_of (q_price cg) (q_price dl) ∧
       sources r = 2 ∧
       sourceNames r = ["coingecko"; "defillama"]%string ∧
       confidence r =
         (if js_le (divergenceBps r) (of_Z 10) then 99
          else if js_le (divergenceBps r) (of_Z 50) then 95
          else if js_le (divergenceBps r) (of_Z 100) then 85
          else if js_le (divergenceBps r) (of_Z 300) then 70
          else 40) ∧
       warning r =
         (if js_gt (divergenceBps r) (of_Z 300)
          then Some (high_divergence_warning (divergenceBps r)) else None) ∧
       change24h r = q_change24h cg ∧ marketCap r = q_marketCap cg.
Proof.
  intros Hcg Hdl. unfold crossVerify.
  rewrite (read_own _ _ _ Hcg), (read_own _ _ _ Hdl).
  eexists. split; [reflexivity|]. cbn. repeat split.
Qed.

(** C1.  For a ticker that both price adapters quoted, the confidence is read
    off the fixed table from [divergenceBps]: at most 10 gives 99, at most 50
    gives 95, at most 100 gives 85, at most 300 gives 70, anything else 40;
    and the warning that names the figure is present exactly when
    [divergenceBps] exceeds 300. *)
Theorem confidence_follows_divergence_table
    (coinGecko deFiLlama : gmap string Quote) a cg dl :
  coinGecko !! a = Some cg → deFiLlama !! a = Some dl →
  ∃ r, crossVerify coinGecko deFiLlama a = Some r ∧
    let d := divergenceBps r in
    (number_le d (of_Z 10) → confidence r = 99) ∧
    (¬ number_le d (of_Z 10) → number_le d (of_Z 50) → confidence r = 95) ∧
    (¬ number_le d (of_Z 50) → number_le d (of_Z 100) → confidence r = 85) ∧
    (¬ number_le d (of_Z 100) → number_le d (of_Z 300) → confidence r = 70) ∧
    (¬ number_le d (of_Z 300) → confidence r = 40) ∧
    (number_lt (of_Z 300) d → warning r = Some (high_divergence_warning d)) ∧
    (¬ number_lt (of_Z 300) d → warning r = None).
Proof.
  intros Hcg Hdl.
  destruct (crossVerify_two_sources _ _ _ _ _ Hcg Hdl)
    as (r & Hr & _ & _ & _ & _ & Hconf & Hwarn & _).
  exists r. split; [exact Hr|]. cbv zeta.
  rewrite Hconf, Hwarn. clear Hconf Hwarn.
  destruct (js_le (divergenceBps r) (of_Z 10)) eqn:E10; decide_cmp E10;
  destruct (js_le (divergenceBps r) (of_Z 50)) eqn:E50; decide_cmp E50;
  destruct (js_le (divergenceBps r) (of_Z 100)) eqn:E100; decide_cmp E100;
  destruct (js_le (divergenceBps r) (of_Z 300)) eqn:E300; decide_cmp E300;
  destruct (js_gt (divergenceBps r) (of_Z 300)) eqn:G300; decide_cmp G300;
    repeat split; intros; try done;
    exfalso; eauto 6 with table.
Qed.

(** C2, amended.  For a ticker that both price adapters quoted, the merged
    price is the mean of the two prices as binary64 arithmetic computes it
    (the sum, then the halving, each rounded to nearest), and
    [divergenceBps] is [Math.round] of [|priceA - priceB| / mean * 10000]
    with the difference, the quotient and the product computed likewise:
    whenever that value is finite, the integer nearest to it. *)
Theorem merged_price_is_the_binary64_mean
    (coinGecko deFiLlama : gmap string Quote) a cg dl :
  coinGecko !! a = Some cg → deFiLlama !! a = Some dl →
  let mean := ((q_price cg + q_price dl) / 2)%float in
  let diff := abs (q_price cg - q_price dl) in
  let bps := ((diff / mean) * 10000)%float in
  ∃ r, crossVerify coinGecko deFiLlama a = Some r ∧
    price r = Some mean ∧
    source_prices r = Some (Some (q_price cg), Some (q_price dl)) ∧
    divergenceBps r = Math_round (to_number bps) ∧
    (∀ q, to_number bps = Num q →
       ∃ n : Z, divergenceBps r = of_Z n ∧ nearest_integer q n) ∧
    ((∀ q, to_number bps ≠ Num q) → divergenceBps r = to_number bps).
Proof.
  intros Hcg Hdl mean diff bps.
  unfold crossVerify. rewrite (read_own _ _ _ Hcg), (read_own _ _ _ Hdl).
  eexists. split; [reflexivity|].
  cbn [price source_prices divergenceBps member_price ToNumber].
  fold mean diff bps. split; [done|]. split; [done|]. split; [done|]. split.
  - intros q ->. cbn [Math_round]. eexists. split; [reflexivity|].
    apply Math_round_nearest.
  - intros Hq. destruct (to_number bps) as [q| | |]; [|done..].
    by destruct (Hq q).
Qed.

Lemma crossVerify_only_coingecko (coinGecko deFiLlama : gmap string Quote) a cg :
  coinGecko !! a = Some cg → deFiLlama !! a = None → a ∉ inherited_names →
  crossVerify coinGecko deFiLlama a = Some (single_source cg "coingecko").
Proof.
  intros Hcg Hdl Ha. unfold crossVerify.
  by rewrite (read_own _ _ _ Hcg), (read_absent _ _ Hdl Ha).
Qed.

Lemma crossVerify_only_defillama (coinGecko deFiLlama : gmap string Quote) a dl :
  coinGecko !! a = None → deFiLlama !! a = Some dl → a ∉ inherited_names →
  crossVerify coinGecko deFiLlama a = Some (single_source dl "defillama").
Proof.
  intros Hcg Hdl Ha. unfold crossVerify.
  by rewrite (read_absent _ _ Hcg Ha), (read_own _ _ _ Hdl).
Qed.

Lemma crossVerify_no_source (coinGecko deFiLlama : gmap string Quote) a :
  coinGecko !! a = None → deFiLlama !! a = None → a ∉ inherited_names →
  crossVerify coinGecko deFiLlama a = None.
Proof.
  intros Hcg Hdl Ha. unfold crossVerify.
  by rewrite (read_absent _ _ Hcg Ha), (read_absent _ _ Hdl Ha).
Qed.

(** A record always counts one or two sources, and lists as many names. *)
Lemma crossVerify_source_count (coinGecko deFiLlama : gmap string Quote) a r :
  crossVerify coinGecko deFiLlama a = Some r →
  (sources r = 1 ∨ sources r = 2) ∧ Z.of_nat (length (sourceNames r)) = sources r.
Proof.
  unfold crossVerify.
  destruct (read coinGecko a), (read deFiLlama a); intros [= <-]; simpl; auto.
Qed.

(** An inherited name is found in both mappings, whatever they hold. *)
Lemma read_is_None (o : gmap string Quote) (k : string) :
  read o k = None ↔ o !! k = None ∧ k ∉ inherited_names.
Proof.
  unfold read. destruct (o !! k); [by split; [|intros [? ?]]|].
  case_decide; split; try done. by intros [_ ?].
Qed.

Lemma crossVerify_is_None (coinGecko deFiLlama : gmap string Quote) a :
  crossVerify coinGecko deFiLlama a = None ↔
  coinGecko !! a = None ∧ deFiLlama !! a = None ∧ a ∉ inherited_names.
Proof.
  unfold crossVerify.
  destruct (read coinGecko a) as [cg|] eqn:Ecg, (read deFiLlama a) as [dl|] eqn:Edl.
  - split; [done|]. intros (Hcg & _ & Ha).
    by rewrite (read_absent _ _ Hcg Ha) in Ecg.
  - split; [done|]. intros (Hcg & _ & Ha).
    by rewrite (read_absent _ _ Hcg Ha) in Ecg.
  - split; [done|]. intros (_ & Hdl & Ha).
    by rewrite (read_absent _ _ Hdl Ha) in Edl.
  - apply read_is_None in Ecg as [? ?]. apply read_is_None in Edl as [? ?].
    by split.
Qed.

(** ** The price mapping of a snapshot *)

Lemma reconcile_fold_lookup (coinGecko deFiLlama : gmap string Quote)
    (assets : list string) (acc : gmap string PriceInfo) (a : string) :
  a ≠ "__proto__"%string →
  foldl (λ prices x,
           match crossVerify coinGecko deFiLlama x with
           | Some verified => write x verified prices
           | None => prices
           end) acc assets !! a =
  if decide (a ∈ assets)
  then match crossVerify coinGecko deFiLlama a with
       | Some v => Some v
       | None => acc !! a
       end
  else acc !! a.
Proof.
  intros Hproto.
  assert (∀ x v (m : gmap string PriceInfo), x ≠ a → write x v m !! a = m !! a) as Hne.
  { intros x v m Hx. unfold write. case_decide; [done|]. by rewrite lookup_insert_ne. }
  assert (∀ v (m : gmap string PriceInfo), write a v m !! a = Some v) as Heq.
  { intros v m. unfold write. rewrite decide_False by done. by rewrite lookup_insert_eq. }
  revert acc. induction assets as [|x l IH]; intros acc; cbn [foldl].
  - done.
  - rewrite IH. clear IH.
    destruct (decide (a ∈ l)) as [Hl|Hl].
    + rewrite decide_True by (by apply elem_of_cons; right).
      destruct (crossVerify coinGecko deFiLlama a) eqn:Ea; [done|].
      destruct (decide (x = a)) as [->|Hxa]; [by rewrite Ea|].
      destruct (crossVerify coinGecko deFiLlama x); [|done].
      by rewrite Hne.
    + destruct (decide (x = a)) as [->|Hxa].
      * rewrite decide_True by (by apply elem_of_cons; left).
        destruct (crossVerify coinGecko deFiLlama a); [|done].
        by rewrite Heq.
      * rewrite decide_False by (intros [?|?]%elem_of_cons; congruence).
        destruct (crossVerify coinGecko deFiLlama x); [|done].
        by rewrite Hne.
Qed.

(** The key ["__proto__"] is never a property of the price mapping. *)
Lemma reconcile_fold_proto (coinGecko deFiLlama : gmap string Quote)
    (assets : list string) (acc : gmap string PriceInfo) :
  foldl (λ prices x,
           match crossVerify coinGecko deFiLlama x with
           | Some verified => write x verified prices
           | None => prices
           end) acc assets !! "__proto__"%string = acc !! "__proto__"%string.
Proof.
  revert acc. induction assets as [|x l IH]; intros acc; cbn [foldl]; [done|].
  rewrite IH. destruct (crossVerify coinGecko deFiLlama x); [|done].
  unfold write. case_decide; [done|]. by rewrite lookup_insert_ne.
Qed.

(** A ticker is in the price mapping exactly when it was requested, is not
    ["__proto__"], and [crossVerify] produced a record for it. *)
Lemma reconcile_all_lookup (coinGecko deFiLlama : gmap string Quote)
    (assets : list string) (a : string) :
  reconcile_all coinGecko deFiLlama assets !! a =
  if decide (a ∈ assets ∧ a ≠ "__proto__"%string)
  then crossVerify coinGecko deFiLlama a else None.
Proof.
  unfold reconcile_all.
  destruct (decide (a = "__proto__"%string)) as [->|Hproto].
  - rewrite reconcile_fold_proto, lookup_empty.
    by rewrite decide_False by (by intros [_ ?]).
  - rewrite reconcile_fold_lookup, lookup_empty by done.
    destruct (decide (a ∈ assets)).
    + rewrite decide_True by done. by destruct (crossVerify coinGecko deFiLlama a).
    + by rewrite decide_False by (by intros [? _]).
Qed.

(** Without quotes the price mapping is empty, as long as no inherited name
    is requested. *)
Lemma reconcile_all_no_quotes (assets : list string) :
  Forall (λ a, a ∉ inherited_names) assets →
  reconcile_all ∅ ∅ assets = ∅.
Proof.
  intros Hown. apply map_eq. intros a. rewrite reconcile_all_lookup, lookup_empty.
  case_decide as Ha; [|done]. destruct Ha as [Ha _].
  rewrite Forall_forall in Hown.
  apply crossVerify_no_source; [apply lookup_empty..|by apply Hown].
Qed.

Lemma default_assets_own : Forall (λ a, a ∉ inherited_names) default_assets.
Proof. apply (bool_decide_unpack _). by vm_compute. Qed.

(** ** The adapters never throw *)

Lemma try_catch_total {A : Type} (body : Completion A) (fallback : A) :
  try_catch body (λ _, Normal fallback) =
  Normal (match body with Normal a => a | Throw _ => fallback end).
Proof. by destruct body. Qed.

Lemma fetch_failed {T : Type} (url : string) (r : Response T) :
  failed r → ∃ e, fetch url r = Throw e.
Proof. destruct r; simpl; intros Hf; [eauto | eauto | done]. Qed.

Lemma fetchCoinGecko_total assets reply :
  ∃ quotes, fetchCoinGecko assets reply = Normal quotes.
Proof.
  unfold fetchCoinGecko. case_decide; [eauto|].
  rewrite try_catch_total. eauto.
Qed.

Lemma fetchDeFiLlama_total assets reply :
  ∃ quotes, fetchDeFiLlama assets reply = Normal quotes.
Proof.
  unfold fetchDeFiLlama. case_decide; [eauto|].
  rewrite try_catch_total. eauto.
Qed.

Lemma fetchFearGreed_total reply : ∃ r, fetchFearGreed reply = Normal r.
Proof. unfold fetchFearGreed. rewrite try_catch_total. eauto. Qed.

Lemma fetchTVL_total reply : ∃ r, fetchTVL reply = Normal r.
Proof. unfold fetchTVL. rewrite try_catch_total. eauto. Qed.

Lemma fetchStablecoins_total reply : ∃ r, fetchStablecoins reply = Normal r.
Proof. unfold fetchStablecoins. rewrite try_catch_total. eauto. Qed.

Lemma fetchGas_total reply : ∃ r, fetchGas reply = Normal r.
Proof. unfold fetchGas. rewrite try_catch_total. eauto. Qed.

(** A failed request degrades to the adapter's empty result. *)
Lemma fetchCoinGecko_failed assets reply :
  failed reply → fetchCoinGecko assets reply = Normal ∅.
Proof.
  intros Hf. unfold fetchCoinGecko. case_decide; [done|].
  by destruct reply.
Qed.

Lemma fetchDeFiLlama_failed assets reply :
  failed reply → fetchDeFiLlama assets reply = Normal ∅.
Proof.
  intros Hf. unfold fetchDeFiLlama. case_decide; [done|].
  by destruct reply.
Qed.

Lemma fetchFearGreed_failed reply :
  failed reply → fetchFearGreed reply = Normal None.
Proof. intros Hf. by destruct reply. Qed.

Lemma fetchTVL_failed reply : failed reply → fetchTVL reply = Normal None.
Proof. intros Hf. by destruct reply. Qed.

Lemma fetchStablecoins_failed reply :
  failed reply → fetchStablecoins reply = Normal None.
Proof. intros Hf. by destruct reply. Qed.

Lemma fetchGas_failed reply : failed reply → fetchGas reply = Normal None.
Proof. intros Hf. by destruct reply. Qed.

(** A reply whose status is not ["1"] is no gas data. *)
Lemma fetchGas_bad_status data :
  gas_status data ≠ "1"%string → fetchGas (Parsed data) = Normal None.
Proof. intros Hs. unfold fetchGas. simpl. by rewrite decide_False. Qed.

(** A reply that lacks what the adapter reads makes the body throw; the
    [catch] turns that into the empty result as well. *)
Lemma fetchFearGreed_malformed data :
  fng_data data = None ∨ fng_data data = Some [] →
  fetchFearGreed (Parsed data) = Normal None.
Proof. intros [Hd|Hd]; unfold fetchFearGreed; simpl; by rewrite Hd. Qed.

Lemma fetchTVL_malformed : fetchTVL (Parsed None) = Normal None.
Proof. reflexivity. Qed.

(** Running [fetch] on a reply that parsed continues with its data. *)
Lemma bind_fetch_parsed {T A : Type} (url : string) (data : T) (k : T → Completion A) :
  (fetch url (Parsed data) ≫= k) = k data.
Proof. reflexivity. Qed.

(** A price adapter's loop over its table adds nothing when the reply has
    none of the table's identifiers. *)
Lemma no_entries_fold {E : Type} (quote_of : E → Quote) (data : gmap string E)
    (ids : list (string * string)) (acc : gmap string Quote) :
  (∀ ticker id, (ticker, id) ∈ ids → data !! id = None) →
  foldl (λ result '(ticker, id),
           match data !! id with
           | Some e => <[ticker := quote_of e]> result
           | None => result
           end) acc ids = acc.
Proof.
  revert acc. induction ids as [|[ticker id] ids IH]; intros acc Hnone; [done|].
  cbn [foldl]. rewrite (Hnone ticker id) by apply list_elem_of_here.
  apply IH. intros t i Hin. apply (Hnone t i). by apply list_elem_of_further.
Qed.

Lemma fetchCoinGecko_no_entries assets (data : gmap string GeckoEntry) :
  (∀ ticker id, (ticker, id) ∈ gecko_ids → data !! id = None) →
  fetchCoinGecko assets (Parsed data) = Normal ∅.
Proof.
  intros Hnone. unfold fetchCoinGecko. case_decide; [done|].
  rewrite bind_fetch_parsed, try_catch_total. f_equal.
  by apply (no_entries_fold gecko_quote).
Qed.

Lemma fetchDeFiLlama_no_coins assets (data : LlamaPrices) :
  coins data = None → fetchDeFiLlama assets (Parsed data) = Normal ∅.
Proof.
  intros Hnone. unfold fetchDeFiLlama. case_decide; [done|].
  rewrite bind_fetch_parsed, try_catch_total. f_equal. rewrite Hnone.
  clear. generalize (∅ : gmap string Quote).
  induction llama_ids as [|[ticker id] ids IH]; intros acc; [done|].
  cbn [foldl]. apply IH.
Qed.

Lemma fetchStablecoins_malformed data :
  peggedAssets data = None → fetchStablecoins (Parsed data) = Normal None.
Proof. intros Hd. unfold fetchStablecoins. simpl. by rewrite Hd. Qed.

Lemma fetchGas_malformed data :
  gas_result data = None → fetchGas (Parsed data) = Normal None.
Proof.
  intros Hd. unfold fetchGas. simpl. rewrite Hd. by case_decide.
Qed.

(** The cycle completes, and its snapshot is assembled from the six results. *)
Lemma getFullSnapshot_assembles assets up t1 t2 cG dL fg tv sc gs :
  fetchCoinGecko assets (coingecko_reply up) = Normal cG →
  fetchDeFiLlama assets (defillama_reply up) = Normal dL →
  fetchFearGreed (feargreed_reply up) = Normal fg →
  fetchTVL (tvl_reply up) = Normal tv →
  fetchStablecoins (stablecoins_reply up) = Normal sc →
  fetchGas (gas_reply up) = Normal gs →
  getFullSnapshot assets up t1 t2 = Normal (snapshot_of assets t1 t2 cG dL fg tv sc gs).
Proof.
  intros H1 H2 H3 H4 H5 H6. unfold getFullSnapshot.
  by rewrite H1, H2, H3, H4, H5, H6.
Qed.

Lemma getFullSnapshot_total assets up t1 t2 :
  ∃ s, getFullSnapshot assets up t1 t2 = Normal s ∧
       timestamp s = t1 / 1000 ∧ iso s = toISOString t2.
Proof.
  destruct (fetchCoinGecko_total assets (coingecko_reply up)) as [cG H1].
  destruct (fetchDeFiLlama_total assets (defillama_reply up)) as [dL H2].
  destruct (fetchFearGreed_total (feargreed_reply up)) as [fg H3].
  destruct (fetchTVL_total (tvl_reply up)) as [tv H4].
  destruct (fetchStablecoins_total (stablecoins_reply up)) as [sc H5].
  destruct (fetchGas_total (gas_reply up)) as [gs H6].
  eexists. split; [by apply getFullSnapshot_assembles|done].
Qed.

(** ** The snapshot cache *)

Lemma getCachedSnapshot_hit env st cached :
  cache st = Some cached → now_check env - cacheTime st < CACHE_TTL →
  getCachedSnapshot env st = (Normal cached, st).
Proof.
  intros Hc Hage. unfold getCachedSnapshot. rewrite Hc. by rewrite decide_True.
Qed.

Lemma getCachedSnapshot_miss env st :
  stale env st →
  ∃ fresh,
    getFullSnapshot default_assets (upstream env) (now_epoch env) (now_iso env)
      = Normal fresh ∧
    getCachedSnapshot env st =
      (Normal fresh,
       {| rateLimits := rateLimits st; cache := Some fresh; cacheTime := now_store env |}).
Proof.
  intros Hstale.
  destruct (getFullSnapshot_total default_assets (upstream env)
              (now_epoch env) (now_iso env)) as (fresh & Hfresh & _).
  exists fresh. split; [exact Hfresh|].
  unfold getCachedSnapshot. rewrite Hfresh.
  destruct Hstale as [Hnone|Hold].
  - by rewrite Hnone.
  - destruct (cache st); [|done]. by rewrite decide_False by lia.
Qed.

(** What [getCachedSnapshot] returns is the object in the cache slot, and
    the limiter's records are not touched. *)
Lemma getCachedSnapshot_returns_cache env st :
  ∃ data st', getCachedSnapshot env st = (Normal data, st') ∧
              cache st' = Some data ∧ rateLimits st' = rateLimits st.
Proof.
  destruct (cache st) as [cached|] eqn:Hc.
  - destruct (decide (now_check env - cacheTime st < CACHE_TTL)) as [Hage|Hage].
    + exists cached, st. by rewrite (getCachedSnapshot_hit _ _ _ Hc Hage).
    + destruct (getCachedSnapshot_miss env st) as (fresh & _ & ->);
        [right; lia|]. by eexists _, _.
  - destruct (getCachedSnapshot_miss env st) as (fresh & _ & ->);
      [by left|]. by eexists _, _.
Qed.

(** C4.  With a cached snapshot younger than 60 seconds, [getCachedSnapshot]
    returns it and leaves the state alone, whatever the providers would have
    replied (no cycle runs).  With no cached snapshot, or one that has reached
    the TTL, it runs one aggregation cycle, stores the new snapshot and the
    time of storing in the cache slot, and returns it. *)
Theorem getCachedSnapshot_contract (env : Env) (st : ServerState) :
  (∀ cached,
     cache st = Some cached → now_check env - cacheTime st < 60000 →
     getCachedSnapshot env st = (Normal cached, st) ∧
     ∀ env', now_check env' = now_check env →
             getCachedSnapshot env' st = (Normal cached, st)) ∧
  (cache st = None ∨ 60000 ≤ now_check env - cacheTime st →
     ∃ fresh,
       getFullSnapshot default_assets (upstream env) (now_epoch env) (now_iso env)
         = Normal fresh ∧
       getCachedSnapshot env st =
         (Normal fresh,
          {| rateLimits := rateLimits st; cache := Some fresh;
             cacheTime := now_store env |})).
Proof.
  split.
  - intros cached Hc Hage. split.
    + by apply getCachedSnapshot_hit.
    + intros env' Hnow. apply getCachedSnapshot_hit; [done|]. by rewrite Hnow.
  - intros Hstale. by apply getCachedSnapshot_miss.
Qed.

(** ** The rate limiter *)




Lemma checkRateLimit_rejects ip now st :
  RATE_LIMIT ≤ Z.of_nat (length (live now (calls_of ip st))) →
  checkRateLimit ip now st =
    (false, set_rateLimits (<[ip := live now (calls_of ip st)]> (rateLimits st)) st).
Proof.
  intros Hfull. unfold checkRateLimit. fold (calls_of ip st).
  fold (live now (calls_of ip st)). by rewrite decide_True.
Qed.

Lemma checkRateLimit_admits ip now st :
  Z.of_nat (length (live now (calls_of ip st))) < RATE_LIMIT →
  checkRateLimit ip now st =
    (true,
     set_rateLimits (<[ip := live now (calls_of ip st) ++ [now]]> (rateLimits st)) st).
Proof.
  intros Hroom. unfold checkRateLimit. fold (calls_of ip st).
  fold (live now (calls_of ip st)). by rewrite decide_False by lia.
Qed.

(** A check touches the caller's record only: the cache and the records of
    the other clients stay as they were. *)
Lemma checkRateLimit_frame ip now st :
  ∃ r, (checkRateLimit ip now st).2 = set_rateLimits (<[ip := r]> (rateLimits st)) st.
Proof. unfold checkRateLimit. case_decide; eauto. Qed.

Lemma calls_of_set ip r m st :
  calls_of ip (set_rateLimits (<[ip := r]> m) st) = r.
Proof. unfold calls_of. simpl. by rewrite lookup_insert_eq. Qed.

Lemma calls_of_other ip ip' now st :
  ip ≠ ip' → calls_of ip' (checkRateLimit ip now st).2 = calls_of ip' st.
Proof.
  intros Hne. destruct (checkRateLimit_frame ip now st) as [r ->].
  unfold calls_of. simpl. by rewrite lookup_insert_ne.
Qed.



(** ** The routes *)

Lemma checkRateLimit_cases ip now st :
  ∃ ok r, checkRateLimit ip now st =
            (ok, set_rateLimits (<[ip := r]> (rateLimits st)) st).
Proof. unfold checkRateLimit. case_decide; eauto. Qed.

Lemma snapshot_handler_served ip env st st1 data st2 :
  checkRateLimit ip (now_rate env) st = (true, st1) →
  getCachedSnapshot env st1 = (Normal data, st2) →
  snapshot_handler ip env st =
    ({| status := 200; body := SnapshotBody (attach_hashes data) |},
     set_cache (Some (attach_hashes data)) st2).
Proof. intros Hrl Hc. unfold snapshot_handler. by rewrite Hrl, Hc. Qed.

Lemma price_handler_served ip param env st st1 data st2 info :
  checkRateLimit ip (now_rate env) st = (true, st1) →
  getCachedSnapshot env st1 = (Normal data, st2) →
  prices data !! toUpperCase param = Some info →
  let a := toUpperCase param in
  let info' :=
    set_asset_fields a (timestamp data) (iso data)
      (set_dataHash (computeDataHash a (price info) (sourceNames info) (timestamp data))
                    info) in
  price_handler ip param env st =
    ({| status := 200; body := PriceBody info' |},
     set_cache (Some (set_prices (<[a := info']> (prices data)) data)) st2).
Proof. intros Hrl Hc Hp. unfold price_handler. by rewrite Hrl, Hc, Hp. Qed.

Lemma price_handler_not_found ip param env st st1 data st2 :
  checkRateLimit ip (now_rate env) st = (true, st1) →
  getCachedSnapshot env st1 = (Normal data, st2) →
  prices data !! toUpperCase param = None →
  price_handler ip param env st =
    ({| status := 404;
        body := ErrorBody ("Asset " +:+ toUpperCase param +:+ " not tracked")
                          None None |}, st2).
Proof. intros Hrl Hc Hp. unfold price_handler. by rewrite Hrl, Hc, Hp. Qed.

Lemma prices_handler_served ip env st st1 data st2 :
  checkRateLimit ip (now_rate env) st = (true, st1) →
  getCachedSnapshot env st1 = (Normal data, st2) →
  prices_handler ip env st =
    ({| status := 200;
        body := PricesBody (timestamp data) (iso data) (prices data) |}, st2).
Proof. intros Hrl Hc. unfold prices_handler. by rewrite Hrl, Hc. Qed.

(** What the [/snapshot] loop leaves in the price mapping. *)
Lemma attach_hashes_lookup (data : Snapshot) (a : string) :
  prices (attach_hashes data) !! a =
  (λ info, set_dataHash
             (computeDataHash a (price info) (sourceNames info) (timestamp data)) info)
    <$> prices data !! a.
Proof.
  unfold attach_hashes. simpl. rewrite map_lookup_imap.
  by destruct (prices data !! a).
Qed.

Lemma attach_hashes_no_prices (data : Snapshot) :
  prices data = ∅ → attach_hashes data = data.
Proof.
  intros He. unfold attach_hashes, set_prices. rewrite He.
  destruct data; simpl in *. f_equal. rewrite He. apply map_eq. intros a.
  by rewrite map_lookup_imap, lookup_empty.
Qed.

(** ** Hashes of the responses served from one cached snapshot *)

Lemma same_hashed_inputs_hash (c0 c : Snapshot) (a : string) :
  same_hashed_inputs c0 c → snapshot_hash c a = snapshot_hash c0 a.
Proof.
  intros [Ht Hp]. unfold snapshot_hash. specialize (Hp a). rewrite Ht.
  destruct (prices c !! a) as [i|], (prices c0 !! a) as [i0|];
    simpl in *; try done.
  injection Hp as Hprice Hnames. by rewrite Hprice, Hnames.
Qed.

Lemma same_hashed_inputs_attach (c0 c : Snapshot) :
  same_hashed_inputs c0 c → same_hashed_inputs c0 (attach_hashes c).
Proof.
  intros [Ht Hp]. split; [done|]. intros a.
  rewrite attach_hashes_lookup, <- Hp. by destruct (prices c !! a).
Qed.

Lemma same_hashed_inputs_insert (c0 c : Snapshot) (a : string) (info info' : PriceInfo) :
  same_hashed_inputs c0 c → prices c !! a = Some info →
  hashed_inputs info' = hashed_inputs info →
  same_hashed_inputs c0 (set_prices (<[a := info']> (prices c)) c).
Proof.
  intros [Ht Hp] Ha Hi. split; [done|]. intros b. simpl.
  destruct (decide (a = b)) as [<-|Hne].
  - by rewrite lookup_insert_eq, <- Hp, Ha; simpl; rewrite Hi.
  - by rewrite lookup_insert_ne.
Qed.

(** One request answered from the cache: the slot keeps a snapshot with the
    same hashed inputs, and a hash the response attaches is the snapshot's. *)
Lemma handle_from_cache (r : Request) (env : Env) (st : ServerState) (c0 c : Snapshot) :
  cache st = Some c → same_hashed_inputs c0 c →
  now_check env - cacheTime st < CACHE_TTL →
  ∃ c', cache (handle r env st).2 = Some c' ∧ same_hashed_inputs c0 c' ∧
        cacheTime (handle r env st).2 = cacheTime st ∧
        ∀ a h, attached_hash a (handle r env st).1 = Some h →
               snapshot_hash c0 a = Some h.
Proof.
  intros Hc Hsame Hage.
  assert (∀ m, getCachedSnapshot env (set_rateLimits m st)
               = (Normal c, set_rateLimits m st)) as Hhit
    by (intros m; by apply getCachedSnapshot_hit).
  destruct r as [ip|ip param|ip]; simpl.
  - unfold snapshot_handler.
    destruct (checkRateLimit_cases ip (now_rate env) st) as (ok & m & ->).
    destruct ok; simpl.
    + rewrite Hhit. simpl. exists (attach_hashes c).
      split; [done|]. split; [by apply same_hashed_inputs_attach|].
      split; [done|]. intros a h. unfold attached_hash. simpl.
      rewrite map_lookup_imap, <- (same_hashed_inputs_hash c0 c a Hsame).
      unfold snapshot_hash. destruct (prices c !! a); simpl; by intros [= <-].
    + no_hash c.
  - unfold price_handler.
    destruct (checkRateLimit_cases ip (now_rate env) st) as (ok & m & ->).
    destruct ok; simpl.
    + rewrite Hhit.
      destruct (prices c !! toUpperCase param) as [info|] eqn:Hinfo; simpl.
      * eexists. split; [done|].
        split; [by eapply same_hashed_inputs_insert|].
        split; [done|]. intros a h. unfold attached_hash. simpl.
        case_decide as Ha; [|done]. injection Ha as <-. intros [= <-].
        rewrite <- (same_hashed_inputs_hash c0 c _ Hsame).
        unfold snapshot_hash. by rewrite Hinfo.
      * no_hash c.
    + no_hash c.
  - unfold prices_handler.
    destruct (checkRateLimit_cases ip (now_rate env) st) as (ok & m & ->).
    destruct ok; simpl.
    + rewrite Hhit. no_hash c.
    + no_hash c.
Qed.

Lemma serve_from_cache (rs : list (Request * Env)) (st : ServerState) (c0 c : Snapshot) :
  cache st = Some c → same_hashed_inputs c0 c →
  Forall (λ re, now_check re.2 - cacheTime st < CACHE_TTL) rs →
  ∀ resp a h, resp ∈ (serve rs st).1 → attached_hash a resp = Some h →
              snapshot_hash c0 a = Some h.
Proof.
  revert st c. induction rs as [|[r env] rest IH]; intros st c Hc Hsame Hfresh.
  - simpl. intros resp a h Hin. by apply elem_of_nil in Hin.
  - apply Forall_cons in Hfresh as [Hage Hrest]. simpl in Hage.
    destruct (handle_from_cache r env st c0 c Hc Hsame Hage)
      as (c' & Hc' & Hsame' & Htime & Hhash).
    simpl. destruct (handle r env st) as [resp1 st1] eqn:Eh. simpl in *.
    specialize (IH st1 c' Hc' Hsame').
    destruct (serve rest st1) as [resps st2] eqn:Es. simpl in *.
    intros resp a h [->|Hin]%elem_of_cons Hh.
    + by apply Hhash.
    + eapply IH; [|exact Hin|exact Hh]. by rewrite Htime.
Qed.

Lemma prefix_append (s t : string) : String.prefix s (s +:+ t) = true.
Proof.
  induction s as [|ch s IH]; [by destruct t|].
  change (String.prefix (String ch s) (String ch (s +:+ t)) = true).
  simpl. by destruct (ascii_dec ch ch).
Qed.

(** C3.  [computeDataHash] reads its four arguments and nothing else: its
    result starts with ["0x"], equal arguments give equal hashes, and every
    hash attached by a [/snapshot] or [/price/:asset] response that is served
    from one cached snapshot is the hash of that snapshot's ticker, price,
    source names and timestamp, whatever was served before. *)
Theorem dataHash_is_deterministic :
  (∀ a p srcs t, String.prefix "0x" (computeDataHash a p srcs t) = true) ∧
  (∀ a a' p p' srcs srcs' t t',
     a = a' → p = p' → srcs = srcs' → t = t' →
     computeDataHash a p srcs t = computeDataHash a' p' srcs' t') ∧
  (∀ (rs : list (Request * Env)) (st : ServerState) (c : Snapshot),
     cache st = Some c →
     Forall (λ re, now_check re.2 - cacheTime st < CACHE_TTL) rs →
     ∀ resp a h,
       resp ∈ (serve rs st).1 → attached_hash a resp = Some h →
       ∃ info, prices c !! a = Some info ∧
               h = computeDataHash a (price info) (sourceNames info) (timestamp c)).
Proof.
  split; [|split].
  - intros a p srcs t. unfold computeDataHash. apply prefix_append.
  - intros a a' p p' srcs srcs' t t' -> -> -> ->. reflexivity.
  - intros rs st c Hc Hfresh resp a h Hin Hh.
    assert (same_hashed_inputs c c) as Hsame by (by split).
    pose proof (serve_from_cache rs st c c Hc Hsame Hfresh resp a h Hin Hh) as Hs.
    unfold snapshot_hash in Hs.
    destruct (prices c !! a) as [info|]; [|done].
    exists info. split; [done|]. by injection Hs as <-.
Qed.

(** ** Absent tickers *)

(** A ticker that neither price adapter quoted, and that is no inherited
    name, gets no record from [crossVerify] (a record always counts one or
    two sources) and is left out of the price mapping; [/price/:asset] looks
    the upper-cased parameter up in that mapping and answers 404 when it is
    not there. *)
Lemma unquoted_ticker_is_absent_and_not_found :
  (∀ (coinGecko deFiLlama : gmap string Quote) a,
     coinGecko !! a = None → deFiLlama !! a = None → a ∉ inherited_names →
     crossVerify coinGecko deFiLlama a = None ∧
     ∀ assets, reconcile_all coinGecko deFiLlama assets !! a = None) ∧
  (∀ (coinGecko deFiLlama : gmap string Quote) a r,
     crossVerify coinGecko deFiLlama a = Some r → sources r = 1 ∨ sources r = 2) ∧
  (∀ ip param env st st1 data st2,
     checkRateLimit ip (now_rate env) st = (true, st1) →
     getCachedSnapshot env st1 = (Normal data, st2) →
     prices data !! toUpperCase param = None →
     price_handler ip param env st =
       ({| status := 404;
           body := ErrorBody ("Asset " +:+ toUpperCase param +:+ " not tracked")
                             None None |}, st2)).
Proof.
  split; [|split].
  - intros coinGecko deFiLlama a Hcg Hdl Ha.
    pose proof (crossVerify_no_source _ _ _ Hcg Hdl Ha) as Hnone.
    split; [exact Hnone|]. intros assets.
    rewrite reconcile_all_lookup, Hnone. by case_decide.
  - intros coinGecko deFiLlama a r Hr.
    by destruct (crossVerify_source_count _ _ _ _ Hr).
  - intros ip param env st st1 data st2. apply price_handler_not_found.
Qed.

(** ** Failures of the providers *)

Lemma failed_all_degraded (up : Upstream) :
  failed (coingecko_reply up) → failed (defillama_reply up) →
  failed (feargreed_reply up) → failed (tvl_reply up) →
  failed (stablecoins_reply up) → failed (gas_reply up) →
  all_degraded up.
Proof.
  intros H1 H2 H3 H4 H5 H6. unfold all_degraded.
  rewrite fetchCoinGecko_failed, fetchDeFiLlama_failed, fetchFearGreed_failed,
    fetchTVL_failed, fetchStablecoins_failed, fetchGas_failed by done.
  done.
Qed.

(** A block of the snapshot is a function of its own provider's reply. *)
Lemma other_adapters_unaffected assets (up up' : Upstream) t1 t2 s s' :
  getFullSnapshot assets up t1 t2 = Normal s →
  getFullSnapshot assets up' t1 t2 = Normal s' →
  (coingecko_reply up = coingecko_reply up' →
   defillama_reply up = defillama_reply up' → prices s = prices s') ∧
  (feargreed_reply up = feargreed_reply up' → fearGreed s = fearGreed s') ∧
  (tvl_reply up = tvl_reply up' → tvl s = tvl s') ∧
  (stablecoins_reply up = stablecoins_reply up' → stablecoins s = stablecoins s') ∧
  (gas_reply up = gas_reply up' → gas s = gas s').
Proof.
  destruct (fetchCoinGecko_total assets (coingecko_reply up)) as [cG H1].
  destruct (fetchDeFiLlama_total assets (defillama_reply up)) as [dL H2].
  destruct (fetchFearGreed_total (feargreed_reply up)) as [fg H3].
  destruct (fetchTVL_total (tvl_reply up)) as [tv H4].
  destruct (fetchStablecoins_total (stablecoins_reply up)) as [sc H5].
  destruct (fetchGas_total (gas_reply up)) as [gs H6].
  destruct (fetchCoinGecko_total assets (coingecko_reply up')) as [cG' H1'].
  destruct (fetchDeFiLlama_total assets (defillama_reply up')) as [dL' H2'].
  destruct (fetchFearGreed_total (feargreed_reply up')) as [fg' H3'].
  destruct (fetchTVL_total (tvl_reply up')) as [tv' H4'].
  destruct (fetchStablecoins_total (stablecoins_reply up')) as [sc' H5'].
  destruct (fetchGas_total (gas_reply up')) as [gs' H6'].
  rewrite (getFullSnapshot_assembles _ _ _ _ _ _ _ _ _ _ H1 H2 H3 H4 H5 H6).
  rewrite (getFullSnapshot_assembles _ _ _ _ _ _ _ _ _ _ H1' H2' H3' H4' H5' H6').
  intros [= <-] [= <-]. simpl. repeat split.
  - intros E1 E2. rewrite E1 in H1. rewrite E2 in H2. congruence.
  - intros E. rewrite E in H3. congruence.
  - intros E. rewrite E in H4. congruence.
  - intros E. rewrite E in H5. congruence.
  - intros E. rewrite E in H6. congruence.
Qed.

(** C9.  An adapter whose request failed on the network or whose reply did
    not parse returns its empty result ([{}] or [null]); so does the gas
    adapter on a status other than ["1"], and so does every adapter on a
    reply without the data it reads (an error document).  No adapter throws,
    whatever its reply, so the cycle goes through all six and builds the
    snapshot from each adapter's own result. *)
Theorem adapter_failures_never_propagate
    (assets : list string) (up : Upstream) (t1 t2 : Z) :
  (failed (coingecko_reply up) →
     fetchCoinGecko assets (coingecko_reply up) = Normal ∅) ∧
  (failed (defillama_reply up) →
     fetchDeFiLlama assets (defillama_reply up) = Normal ∅) ∧
  (failed (feargreed_reply up) → fetchFearGreed (feargreed_reply up) = Normal None) ∧
  (failed (tvl_reply up) → fetchTVL (tvl_reply up) = Normal None) ∧
  (failed (stablecoins_reply up) →
     fetchStablecoins (stablecoins_reply up) = Normal None) ∧
  (failed (gas_reply up) → fetchGas (gas_reply up) = Normal None) ∧
  (∀ data, gas_reply up = Parsed data → gas_status data ≠ "1"%string →
     fetchGas (gas_reply up) = Normal None) ∧
  (∀ data, coingecko_reply up = Parsed data →
     (∀ ticker id, (ticker, id) ∈ gecko_ids → data !! id = None) →
     fetchCoinGecko assets (coingecko_reply up) = Normal ∅) ∧
  (∀ data, defillama_reply up = Parsed data → coins data = None →
     fetchDeFiLlama assets (defillama_reply up) = Normal ∅) ∧
  (∀ data, feargreed_reply up = Parsed data →
     fng_data data = None ∨ fng_data data = Some [] →
     fetchFearGreed (feargreed_reply up) = Normal None) ∧
  (tvl_reply up = Parsed None → fetchTVL (tvl_reply up) = Normal None) ∧
  (∀ data, stablecoins_reply up = Parsed data → peggedAssets data = None →
     fetchStablecoins (stablecoins_reply up) = Normal None) ∧
  ∃ cG dL fg tv sc gs,
    fetchCoinGecko assets (coingecko_reply up) = Normal cG ∧
    fetchDeFiLlama assets (defillama_reply up) = Normal dL ∧
    fetchFearGreed (feargreed_reply up) = Normal fg ∧
    fetchTVL (tvl_reply up) = Normal tv ∧
    fetchStablecoins (stablecoins_reply up) = Normal sc ∧
    fetchGas (gas_reply up) = Normal gs ∧
    getFullSnapshot assets up t1 t2 =
      Normal (snapshot_of assets t1 t2 cG dL fg tv sc gs).
Proof.
  split; [apply fetchCoinGecko_failed|].
  split; [apply fetchDeFiLlama_failed|].
  split; [apply fetchFearGreed_failed|].
  split; [apply fetchTVL_failed|].
  split; [apply fetchStablecoins_failed|].
  split; [apply fetchGas_failed|].
  split; [intros data ->; apply fetchGas_bad_status|].
  split; [intros data ->; apply fetchCoinGecko_no_entries|].
  split; [intros data ->; apply fetchDeFiLlama_no_coins|].
  split; [intros data ->; apply fetchFearGreed_malformed|].
  split; [intros ->; apply fetchTVL_malformed|].
  split; [intros data ->; apply fetchStablecoins_malformed|].
  destruct (fetchCoinGecko_total assets (coingecko_reply up)) as [cG H1].
  destruct (fetchDeFiLlama_total assets (defillama_reply up)) as [dL H2].
  destruct (fetchFearGreed_total (feargreed_reply up)) as [fg H3].
  destruct (fetchTVL_total (tvl_reply up)) as [tv H4].
  destruct (fetchStablecoins_total (stablecoins_reply up)) as [sc H5].
  destruct (fetchGas_total (gas_reply up)) as [gs H6].
  exists cG, dL, fg, tv, sc, gs.
  repeat (split; [assumption|]). by apply getFullSnapshot_assembles.
Qed.

(** ** The degraded snapshot *)

Lemma stale_set_rateLimits env m st :
  stale env (set_rateLimits m st) ↔ stale env st.
Proof. done. Qed.

(** C10.  Whatever the six adapters return, a cycle yields a snapshot with
    its epoch timestamp and ISO string, the two fixed labels, the price
    mapping reconciled from the quotes of the two price adapters (empty when
    there are none) and, in each of the four domain blocks, what the adapter
    of that block returned: [null] exactly where that adapter degraded, its
    data everywhere else.  The cache stores the snapshot like any other and
    serves it until 60 seconds have passed, and [/snapshot] answers 200 with
    it, hashes attached to whatever prices it holds. *)
Theorem degraded_snapshot_is_cached_and_served (env : Env) (st : ServerState) :
  cache st = None ∨ 60000 ≤ now_check env - cacheTime st →
  let up := upstream env in
  ∃ s st',
    getFullSnapshot default_assets up (now_epoch env) (now_iso env) = Normal s ∧
    timestamp s = now_epoch env / 1000 ∧ iso s = toISOString (now_iso env) ∧
    oracle s = "MoltOracle v1.0.0"%string ∧
    verification s = "cross-sourced"%string ∧
    (∃ cG dL,
       fetchCoinGecko default_assets (coingecko_reply up) = Normal cG ∧
       fetchDeFiLlama default_assets (defillama_reply up) = Normal dL ∧
       prices s = reconcile_all cG dL default_assets ∧
       (cG = ∅ → dL = ∅ → prices s = ∅)) ∧
    fetchFearGreed (feargreed_reply up) = Normal (fearGreed s) ∧
    fetchTVL (tvl_reply up) = Normal (tvl s) ∧
    fetchStablecoins (stablecoins_reply up) = Normal (stablecoins s) ∧
    fetchGas (gas_reply up) = Normal (gas s) ∧
    (failed (feargreed_reply up) → fearGreed s = None) ∧
    (failed (tvl_reply up) → tvl s = None) ∧
    (failed (stablecoins_reply up) → stablecoins s = None) ∧
    (failed (gas_reply up) → gas s = None) ∧
    (all_degraded up →
       prices s = ∅ ∧ fearGreed s = None ∧ tvl s = None ∧
       stablecoins s = None ∧ gas s = None) ∧
    getCachedSnapshot env st = (Normal s, st') ∧
    cache st' = Some s ∧ cacheTime st' = now_store env ∧
    (∀ env', now_check env' - now_store env < 60000 →
       getCachedSnapshot env' st' = (Normal s, st')) ∧
    (∀ ip, (checkRateLimit ip (now_rate env) st).1 = true →
       (snapshot_handler ip env st).1 =
         {| status := 200; body := SnapshotBody (attach_hashes s) |}) ∧
    (prices s = ∅ → attach_hashes s = s).
Proof.
  intros Hstale up.
  destruct (fetchCoinGecko_total default_assets (coingecko_reply up)) as [cG H1].
  destruct (fetchDeFiLlama_total default_assets (defillama_reply up)) as [dL H2].
  destruct (fetchFearGreed_total (feargreed_reply up)) as [fg H3].
  destruct (fetchTVL_total (tvl_reply up)) as [tv H4].
  destruct (fetchStablecoins_total (stablecoins_reply up)) as [sc H5].
  destruct (fetchGas_total (gas_reply up)) as [gs H6].
  pose proof (getFullSnapshot_assembles default_assets up (now_epoch env) (now_iso env)
                _ _ _ _ _ _ H1 H2 H3 H4 H5 H6) as Hs.
  set (s := snapshot_of default_assets (now_epoch env) (now_iso env) cG dL fg tv sc gs)
    in *.
  destruct (getCachedSnapshot_miss env st Hstale) as (s' & Hs' & Hget).
  fold up in Hs'. rewrite Hs in Hs'. injection Hs' as <-.
  assert (cG = ∅ → dL = ∅ → prices s = ∅) as Hnone.
  { intros -> ->. apply reconcile_all_no_quotes, default_assets_own. }
  eexists s, _. split; [exact Hs|].
  split; [done|]. split; [done|]. split; [done|]. split; [done|].
  split; [by exists cG, dL|].
  split; [exact H3|]. split; [exact H4|]. split; [exact H5|]. split; [exact H6|].
  split; [intros Hf; rewrite fetchFearGreed_failed in H3 by done; by injection H3 as <-|].
  split; [intros Hf; rewrite fetchTVL_failed in H4 by done; by injection H4 as <-|].
  split; [intros Hf; rewrite fetchStablecoins_failed in H5 by done;
          by injection H5 as <-|].
  split; [intros Hf; rewrite fetchGas_failed in H6 by done; by injection H6 as <-|].
  split.
  { intros (D1 & D2 & D3 & D4 & D5 & D6). fold up in D1, D2, D3, D4, D5, D6.
    rewrite D1 in H1. rewrite D2 in H2. rewrite D3 in H3. rewrite D4 in H4.
    rewrite D5 in H5. rewrite D6 in H6.
    injection H1 as <-. injection H2 as <-. injection H3 as <-.
    injection H4 as <-. injection H5 as <-. injection H6 as <-.
    split; [by apply Hnone|done]. }
  split; [exact Hget|]. split; [done|]. split; [done|].
  split; [|split].
  - intros env' Hage. by apply getCachedSnapshot_hit.
  - intros ip Hok. unfold snapshot_handler.
    destruct (checkRateLimit_cases ip (now_rate env) st) as (ok & m & Hrl).
    rewrite Hrl in Hok |- *. simpl in Hok. subst ok. cbn [negb].
    destruct (getCachedSnapshot_miss env (set_rateLimits (<[ip:=m]> (rateLimits st)) st))
      as (s2 & Hs2 & ->); [by apply stale_set_rateLimits|].
    fold up in Hs2. rewrite Hs in Hs2. by injection Hs2 as <-.
  - apply attach_hashes_no_prices.
Qed.

(** ** What the handlers leave in the cached snapshot *)

(** After [/snapshot] has been served, a [/prices] request answered from the
    same cache slot returns the price mapping that [/snapshot] sent, with the
    [dataHash] of every entry in it. *)
Lemma snapshot_then_prices ip ip' env env' st :
  (checkRateLimit ip (now_rate env) st).1 = true →
  (checkRateLimit ip' (now_rate env') (snapshot_handler ip env st).2).1 = true →
  now_check env' - cacheTime (snapshot_handler ip env st).2 < CACHE_TTL →
  ∃ data,
    body (snapshot_handler ip env st).1 = SnapshotBody data ∧
    body (prices_handler ip' env' (snapshot_handler ip env st).2).1
      = PricesBody (timestamp data) (iso data) (prices data) ∧
    ∀ a info, prices data !! a = Some info →
      dataHash info
        = Some (computeDataHash a (price info) (sourceNames info) (timestamp data)).
Proof.
  intros Hok.
  destruct (checkRateLimit_cases ip (now_rate env) st) as (ok & m & Hrl).
  rewrite Hrl in Hok. simpl in Hok. subst ok.
  destruct (getCachedSnapshot_returns_cache env
              (set_rateLimits (<[ip:=m]> (rateLimits st)) st))
    as (data & st2 & Hget & Hcache & _).
  rewrite (snapshot_handler_served _ _ _ _ _ _ Hrl Hget). simpl.
  intros Hok' Hage.
  destruct (checkRateLimit_cases ip' (now_rate env')
              (set_cache (Some (attach_hashes data)) st2)) as (ok' & m' & Hrl').
  rewrite Hrl' in Hok'. simpl in Hok'. subst ok'.
  exists (attach_hashes data). split; [done|]. split.
  - erewrite prices_handler_served; [done|exact Hrl'|].
    by apply getCachedSnapshot_hit.
  - intros a info. rewrite attach_hashes_lookup.
    destruct (prices data !! a) as [info0|]; simpl; [|done].
    by intros [= <-].
Qed.

(** C7 on the input of [tests/run.js]: CoinGecko alone quotes ADA, with a
    24h change and a market cap; the record has the price, one source,
    confidence 60, divergence 0 and no warning, and neither the 24h change
    nor the market cap. *)
Theorem single_coingecko_quote_loses_change24h :
  q_change24h gecko_ADA = Some 1%Q ∧
  q_marketCap gecko_ADA = Some 15000000000%Q ∧
  ∃ r, crossVerify {[ "ADA"%string := gecko_ADA ]} ∅ "ADA" = Some r ∧
       price r = Some 0.45%float ∧ sources r = 1 ∧ confidence r = 60 ∧
       divergenceBps r = of_Z 0 ∧ warning r = None ∧
       change24h r = None ∧ marketCap r = None.
Proof.
  split; [reflexivity|]. split; [reflexivity|].
  exists (single_source gecko_ADA "coingecko"). split.
  - apply crossVerify_only_coingecko;
      [apply lookup_singleton_eq|apply lookup_empty|].
    apply (bool_decide_unpack _). by vm_compute.
  - by repeat split.
Qed.


End Properties.

(** * Closed instances *)

(** The table of C1 at its boundaries. *)
Example divergence_10_gives_99 :
  confidence <$> @crossVerify (demo_runtime 30)
    (one_quote "X" 10005 "coingecko") (one_quote "X" 9995 "defillama") "X" = Some 99 ∧
  divergenceBps <$> @crossVerify (demo_runtime 30)
    (one_quote "X" 10005 "coingecko") (one_quote "X" 9995 "defillama") "X"
    = Some (of_Z 10).
Proof. split; reflexivity. Qed.

Example divergence_11_gives_95 :
  confidence <$> @crossVerify (demo_runtime 30)
    (one_quote "X" 10005.5 "coingecko") (one_quote "X" 9994.5 "defillama") "X"
    = Some 95 ∧
  divergenceBps <$> @crossVerify (demo_runtime 30)
    (one_quote "X" 10005.5 "coingecko") (one_quote "X" 9994.5 "defillama") "X"
    = Some (of_Z 11).
Proof. split; reflexivity. Qed.

Example divergence_300_gives_70_without_warning :
  (λ r, (divergenceBps r, confidence r, warning r)) <$> @crossVerify (demo_runtime 30)
    (one_quote "X" 1015 "coingecko") (one_quote "X" 985 "defillama") "X"
    = Some (of_Z 300, 70, None).
Proof. reflexivity. Qed.

Example divergence_301_gives_40_with_warning :
  (λ r, (divergenceBps r, confidence r, warning r)) <$> @crossVerify (demo_runtime 30)
    (one_quote "X" 10150.5 "coingecko") (one_quote "X" 9849.5 "defillama") "X"
    = Some (of_Z 301, 40, Some "HIGH DIVERGENCE: 301bps between sources"%string).
Proof. reflexivity. Qed.

(** A zero mean: the division gives [NaN] or [Infinity], and the confidence
    is 40. *)
Example zero_mean_gives_NaN_or_Infinity :
  (λ r, (divergenceBps r, confidence r, warning r)) <$> @crossVerify (demo_runtime 30)
    (one_quote "X" 0 "coingecko") (one_quote "X" 0 "defillama") "X"
    = Some (NaN, 40, None) ∧
  (λ r, (divergenceBps r, confidence r, warning r)) <$> @crossVerify (demo_runtime 30)
    (one_quote "X" 1 "coingecko") (one_quote "X" (-1) "defillama") "X"
    = Some (Infinity, 40, Some "HIGH DIVERGENCE: Infinitybps between sources"%string).
Proof. split; reflexivity. Qed.

(** The cases of [tests/run.js]. *)
Example crossVerify_on_the_test_suite :
  (λ r, (price r, sources r, confidence r, divergenceBps r)) <$>
    @crossVerify (demo_runtime 30)
      (one_quote "BTC" 67000 "coingecko") (one_quote "BTC" 67005 "defillama") "BTC"
    = Some (Some 67002.5%float, 2, 99, of_Z 1) ∧
  confidence <$>
    @crossVerify (demo_runtime 30)
      (one_quote "ETH" 2000 "coingecko") (one_quote "ETH" 2020 "defillama") "ETH"
    = Some 85 ∧
  (λ r, (confidence r, warning r)) <$>
    @crossVerify (demo_runtime 30)
      (one_quote "SOL" 100 "coingecko") (one_quote "SOL" 105 "defillama") "SOL"
    = Some (40, Some "HIGH DIVERGENCE: 488bps between sources"%string) ∧
  (λ r, (confidence r, sources r)) <$>
    @crossVerify (demo_runtime 30) {[ "ADA"%string := gecko_ADA ]} ∅ "ADA"
    = Some (60, 1) ∧
  @crossVerify (demo_runtime 30) ∅ ∅ "UNKNOWN" = None.
Proof. repeat split. Qed.

(** The sort of the TVL adapter: descending, ties in their original order. *)
Example js_sort_is_stable :
  chain_name <$>
    js_sort (λ a b, (or_zero (chain_tvl b) - or_zero (chain_tvl a))%Q)
      [ {| chain_name := "a"; chain_tvl := Some 5%Q |};
        {| chain_name := "b"; chain_tvl := Some 7%Q |};
        {| chain_name := "c"; chain_tvl := None |};
        {| chain_name := "d"; chain_tvl := Some 5%Q |} ]
  = ["b"; "a"; "d"; "c"]%string.
Proof. reflexivity. Qed.

Example toUpperCase_btc : @toUpperCase (demo_runtime 30) "btc" = "BTC"%string.
Proof. reflexivity. Qed.

(** C1 at a divergence of exactly 300 basis points. *)
Lemma confidence_follows_divergence_table_witness :
  one_quote "X" 1015 "coingecko" !! "X"%string = Some (quote 1015 "coingecko") ∧
  one_quote "X" 985 "defillama" !! "X"%string = Some (quote 985 "defillama") ∧
  ∃ r, @crossVerify (demo_runtime 30)
         (one_quote "X" 1015 "coingecko") (one_quote "X" 985 "defillama") "X" = Some r ∧
       divergenceBps r = of_Z 300 ∧ confidence r = 70 ∧ warning r = None.
Proof.
  split; [reflexivity|]. split; [reflexivity|].
  destruct (@confidence_follows_divergence_table (demo_runtime 30)
              (one_quote "X" 1015 "coingecko") (one_quote "X" 985 "defillama") "X"
              _ _ eq_refl eq_refl)
    as (r & Hr & _ & _ & _ & H70 & _ & _ & Hquiet).
  exists r. split; [exact Hr|].
  vm_compute in Hr. injection Hr as <-.
  split; [reflexivity|]. split.
  - apply H70; unfold number_le, of_Z, Qle; simpl; lia.
  - apply Hquiet. unfold number_lt, of_Z, Qlt; simpl; lia.
Defined.

(** C2, amended, on the quotes of [tests/run.js] for SOL: 100 and 105. *)
Lemma merged_price_is_the_binary64_mean_witness :
  one_quote "SOL" 100 "coingecko" !! "SOL"%string = Some (quote 100 "coingecko") ∧
  one_quote "SOL" 105 "defillama" !! "SOL"%string = Some (quote 105 "defillama") ∧
  ∃ r, @crossVerify (demo_runtime 30)
         (one_quote "SOL" 100 "coingecko") (one_quote "SOL" 105 "defillama") "SOL"
         = Some r ∧
       price r = Some 102.5%float ∧ divergenceBps r = of_Z 488.
Proof.
  split; [reflexivity|]. split; [reflexivity|].
  destruct (@merged_price_is_the_binary64_mean (demo_runtime 30)
              (one_quote "SOL" 100 "coingecko") (one_quote "SOL" 105 "defillama") "SOL"
              _ _ eq_refl eq_refl)
    as (r & Hr & Hprice & _ & Hbps & _).
  exists r. split; [exact Hr|]. split; [exact Hprice|].
  rewrite Hbps. by vm_compute.
Defined.

(** C2 as the claim states it fails.  For the quotes 313 and 2887 the exact
    value of [|a - b| / mean * 10000] is 16087.5, whose nearest integer (a tie
    going up) is 16088; the quotient 2574 / 1600 is exact in binary64, but
    its product with 10000 rounds to the number just below 16087.5, and the
    code returns 16087.  For the quotes 0.1 and 0.2 (the binary64 numbers
    nearest to them) the merged price is not the mean of the two: that mean
    is no binary64 number. *)
Lemma divergence_of_313_and_2887_is_not_the_nearest_integer :
  (∃ r, @crossVerify (demo_runtime 30)
          (one_quote "X" 313 "coingecko") (one_quote "X" 2887 "defillama") "X" = Some r ∧
        divergenceBps r = of_Z 16087 ∧
        nearest_integer (Qabs (313 - 2887) / ((313 + 2887) / 2) * 10000)%Q 16088 ∧
        ¬ nearest_integer (Qabs (313 - 2887) / ((313 + 2887) / 2) * 10000)%Q 16087) ∧
  (∃ r a b m, @crossVerify (demo_runtime 30)
          (one_quote "X" 0.1 "coingecko") (one_quote "X" 0.2 "defillama") "X" = Some r ∧
        to_number 0.1 = Num a ∧ to_number 0.2 = Num b ∧
        to_number <$> price r = Some (Num m) ∧
        ¬ (m == (a + b) / 2)%Q).
Proof.
  split.
  - eexists. split; [reflexivity|]. split; [by vm_compute|].
    split; [split; by vm_compute|].
    intros [_ Hlt]. by vm_compute in Hlt.
  - eexists _, _, _, _. split; [reflexivity|].
    split; [by vm_compute|]. split; [by vm_compute|]. split; [by vm_compute|].
    intros Heq. by vm_compute in Heq.
Qed.

(** C3 on three requests served from the cache of [warm_state]: both
    responses that attach a hash to BTC attach the same one. *)
Lemma dataHash_is_deterministic_witness :
  Forall (λ resp, ∀ h, attached_hash "BTC" resp = Some h →
                       h = @computeDataHash (demo_runtime 30) "BTC" (Some 67002.5%float)
                             ["coingecko"; "defillama"]%string 1700000000)
    (@serve (demo_runtime 30) cached_requests warm_state).1.
Proof.
  assert (Forall (λ re : Request * Env,
                    now_check re.2 - cacheTime warm_state < CACHE_TTL)
            cached_requests) as Hfresh
    by (repeat (constructor; [reflexivity|]); constructor).
  apply Forall_forall. intros resp Hin h Hh.
  destruct (proj2 (proj2 (@dataHash_is_deterministic (demo_runtime 30)))
              cached_requests warm_state _ eq_refl Hfresh resp "BTC"%string h Hin Hh)
    as (info & Hinfo & ->).
  vm_compute in Hinfo. injection Hinfo as <-. reflexivity.
Defined.

(** C4: a snapshot stored at 1700000000000 ms is returned as it is 59.999 s
    later, and replaced 60 s later. *)
Lemma getCachedSnapshot_contract_witness :
  (∃ cached, cache warm_state = Some cached ∧
     @getCachedSnapshot (demo_runtime 30) (env_at 1700000059999 dead_upstream) warm_state
       = (Normal cached, warm_state)) ∧
  (∃ fresh,
     @getCachedSnapshot (demo_runtime 30) (env_at 1700000060000 dead_upstream) warm_state
       = (Normal fresh,
          {| rateLimits := rateLimits warm_state; cache := Some fresh;
             cacheTime := 1700000060000 |}) ∧
     prices fresh = ∅).
Proof.
  split.
  - eexists. split; [reflexivity|].
    refine (proj1 (proj1 (@getCachedSnapshot_contract (demo_runtime 30)
                            (env_at 1700000059999 dead_upstream) warm_state)
                     _ eq_refl _)).
    reflexivity.
  - destruct (proj2 (@getCachedSnapshot_contract (demo_runtime 30)
                       (env_at 1700000060000 dead_upstream) warm_state))
      as (fresh & Hfresh & Hget); [right; by vm_compute|].
    exists fresh. split; [exact Hget|].
    vm_compute in Hfresh. by injection Hfresh as <-.
Defined.


(** DOGE is not among the tracked tickers; [/price/doge] answers 404. *)
Example doge_is_not_found :
  (∃ st', @price_handler (demo_runtime 30) "10.0.0.2" "doge"
            (env_at 1700000001000 sample_upstream) warm_state
          = ({| status := 404;
                body := ErrorBody "Asset DOGE not tracked" None None |}, st')) ∧
  @crossVerify (demo_runtime 30) ∅ ∅ "DOGE" = None.
Proof.
  destruct (@unquoted_ticker_is_absent_and_not_found (demo_runtime 30))
    as (Habsent & _ & H404).
  split.
  - eexists. eapply (H404 "10.0.0.2"%string "doge"%string); reflexivity.
  - apply (Habsent ∅ ∅ "DOGE"%string); [reflexivity..|].
    apply (bool_decide_unpack _). by vm_compute.
Qed.


(** C9 on [sample_upstream]: four providers fail in four ways, and the cycle
    still reconciles BTC from the two price adapters. *)
Lemma adapter_failures_never_propagate_witness :
  ∃ s, @getFullSnapshot (demo_runtime 30) default_assets sample_upstream
         1700000000000 1700000000000 = Normal s ∧
       fearGreed s = None ∧ tvl s = None ∧ stablecoins s = None ∧ gas s = None ∧
       confidence <$> prices s !! "BTC"%string = Some 99.
Proof.
  destruct (@adapter_failures_never_propagate (demo_runtime 30) default_assets
              sample_upstream 1700000000000 1700000000000)
    as (_ & _ & Hfg & Htvl & Hsc & _ & Hgas & _ & _ & _ & _ & _
        & cG & dL & fg & tv & sc & gs
        & HcG & HdL & Hfg' & Htv' & Hsc' & Hgs' & Hsnap).
  eexists. split; [exact Hsnap|]. simpl.
  rewrite Hfg in Hfg' by exact I. rewrite Htvl in Htv' by exact I.
  rewrite Hsc in Hsc' by exact I.
  rewrite (Hgas _ eq_refl) in Hgs' by discriminate.
  injection Hfg' as <-. injection Htv' as <-. injection Hsc' as <-.
  injection Hgs' as <-.
  vm_compute in HcG. injection HcG as <-.
  vm_compute in HdL. injection HdL as <-.
  repeat split.
Defined.

(** C10 with every provider down: the empty snapshot is stored and served
    again 59.999 s later. *)
Lemma degraded_snapshot_is_cached_and_served_witness :
  (cache initial_state = None ∨
   60000 ≤ now_check (env_at 5000 dead_upstream) - cacheTime initial_state) ∧
  ∃ s st',
    @getCachedSnapshot (demo_runtime 30) (env_at 5000 dead_upstream) initial_state
      = (Normal s, st') ∧
    prices s = ∅ ∧ fearGreed s = None ∧ tvl s = None ∧
    stablecoins s = None ∧ gas s = None ∧ timestamp s = 5 ∧
    @getCachedSnapshot (demo_runtime 30) (env_at 64999 dead_upstream) st'
      = (Normal s, st') ∧
    (@snapshot_handler (demo_runtime 30) "10.0.0.1" (env_at 5000 dead_upstream)
       initial_state).1 = {| status := 200; body := SnapshotBody s |}.
Proof.
  split; [by left|].
  destruct (@degraded_snapshot_is_cached_and_served (demo_runtime 30)
              (env_at 5000 dead_upstream) initial_state (or_introl eq_refl))
    as (s & st' & _ & Hts & _ & _ & _ & _ & _ & _ & _ & _ & _ & _ & _ & _
        & Hempty & Hget & _ & _ & Hserve & Hroute & Hplain).
  assert (@all_degraded (demo_runtime 30) dead_upstream) as Hdeg
    by (repeat split).
  destruct (Hempty Hdeg) as (Hp & Hfg & Htvl & Hsc & Hgas).
  exists s, st'. split; [exact Hget|].
  split; [exact Hp|]. split; [exact Hfg|]. split; [exact Htvl|].
  split; [exact Hsc|]. split; [exact Hgas|]. split; [exact Hts|]. split.
  - apply Hserve. reflexivity.
  - rewrite <- (Hplain Hp). apply Hroute. reflexivity.
Defined.

(** C6: [/snapshot] and then [/prices], 30 s apart, on a fresh server.  The
    [/prices] response carries the hash that [/snapshot] attached to BTC; the
    same [/prices] request on a fresh server carries none. *)
Theorem prices_response_carries_hash_after_snapshot :
  (∃ first ts i ps info st',
     @serve (demo_runtime 30)
       [ (GetSnapshot "10.0.0.1", env_at 1700000000000 sample_upstream);
         (GetPrices "10.0.0.2", env_at 1700000030000 sample_upstream) ]
       initial_state
     = ([first; {| status := 200; body := PricesBody ts i ps |}], st') ∧
     ps !! "BTC"%string = Some info ∧
     dataHash info
       = Some (@computeDataHash (demo_runtime 30) "BTC" (price info)
                 (sourceNames info) ts)) ∧
  (∃ ts i ps info st',
     @serve (demo_runtime 30)
       [ (GetPrices "10.0.0.2", env_at 1700000030000 sample_upstream) ]
       initial_state
     = ([{| status := 200; body := PricesBody ts i ps |}], st') ∧
     ps !! "BTC"%string = Some info ∧
     dataHash info = None).
Proof.
  split.
  - eexists _, _, _, _, _, _. split; [by vm_compute|]. split; by vm_compute.
  - eexists _, _, _, _, _. split; [by vm_compute|]. split; by vm_compute.
Qed.

(** * Further properties of the code *)

Section Coverage.

Context `{Runtime}.

(** ** More on [crossVerify] *)

Lemma number_le_trans (x y z : number) :
  number_le x y → number_le y z → number_le x z.
Proof.
  destruct x as [a| | |], y as [b| | |], z as [c| | |]; simpl; try done.
  apply Qle_trans.
Qed.

(** A finite number minus itself is [+0]. *)
Lemma SF64sub_diag (s : bool) (m : positive) (e : Z) :
  SF64sub (S754_finite s m e) (S754_finite s m e) = S754_zero false.
Proof. unfold SF64sub, SFsub. cbv zeta. by rewrite Z.sub_diag. Qed.

Lemma abs_sub_diag (x : float) (q : Q) :
  to_number x = Num q → Prim2SF (abs (x - x)) = S754_zero false.
Proof.
  intros Hfin. rewrite abs_spec, sub_spec. unfold to_number in Hfin.
  destruct (Prim2SF x) as [s|s| |s m e].
  - by destruct s.
  - by destruct s.
  - done.
  - by rewrite SF64sub_diag.
Qed.

(** X2.  Two sources that quote the same finite price agree fully whenever
    the mean the code computes from it is neither zero nor [NaN]: the
    divergence is 0, the confidence 99, and there is no warning.  (With a
    mean of zero the code divides 0 by 0 and the divergence is [NaN].) *)
Theorem equal_quotes_give_full_confidence
    (coinGecko deFiLlama : gmap string Quote) a cg dl q :
  coinGecko !! a = Some cg → deFiLlama !! a = Some dl →
  q_price cg = q_price dl → to_number (q_price cg) = Num q →
  to_number ((q_price cg + q_price dl) / 2)%float ≠ Num 0 →
  to_number ((q_price cg + q_price dl) / 2)%float ≠ NaN →
  ∃ r, crossVerify coinGecko deFiLlama a = Some r ∧
    price r = Some ((q_price cg + q_price dl) / 2)%float ∧
    divergenceBps r = of_Z 0 ∧ confidence r = 99 ∧ warning r = None.
Proof.
  intros Hcg Hdl Heq Hfin Hnz Hnn.
  destruct (crossVerify_two_sources _ _ _ _ _ Hcg Hdl)
    as (r & Hr & Hprice & Hbps & _ & _ & Hconf & Hwarn & _).
  assert (divergenceBps r = of_Z 0) as Hzero.
  { rewrite Hbps. unfold divergence_of. rewrite <- Heq in *.
    set (mean := ((q_price cg + q_price cg) / 2)%float) in *.
    pose proof (abs_sub_diag _ _ Hfin) as Hd.
    assert (∃ s, Prim2SF (abs (q_price cg - q_price cg) / mean * 10000)%float
                 = S754_zero s) as [s Hs].
    { rewrite mul_spec, div_spec, Hd. unfold to_number in Hnz, Hnn.
      destruct (Prim2SF mean) as [sy|sy| |sy my ey]; try done;
        eexists; reflexivity. }
    unfold to_number. rewrite Hs. reflexivity. }
  exists r. split; [exact Hr|]. split; [exact Hprice|].
  split; [exact Hzero|]. rewrite Hconf, Hwarn, Hzero. by split.
Qed.

(** X3.  The divergence, the confidence and the warning do not depend on
    which of the two sources quoted which price. *)
Theorem crossVerify_is_symmetric
    (coinGecko deFiLlama coinGecko' deFiLlama' : gmap string Quote) a cg dl cg' dl' :
  coinGecko !! a = Some cg → deFiLlama !! a = Some dl →
  coinGecko' !! a = Some cg' → deFiLlama' !! a = Some dl' →
  q_price cg' = q_price dl → q_price dl' = q_price cg →
  ∃ r r', crossVerify coinGecko deFiLlama a = Some r ∧
          crossVerify coinGecko' deFiLlama' a = Some r' ∧
          price r' = price r ∧ divergenceBps r' = divergenceBps r ∧
          confidence r' = confidence r ∧ warning r' = warning r.
Proof.
  intros Hcg Hdl Hcg' Hdl' E1 E2.
  destruct (crossVerify_two_sources _ _ _ _ _ Hcg Hdl)
    as (r & Hr & Hprice & Hbps & _ & _ & Hconf & Hwarn & _).
  destruct (crossVerify_two_sources _ _ _ _ _ Hcg' Hdl')
    as (r' & Hr' & Hprice' & Hbps' & _ & _ & Hconf' & Hwarn' & _).
  assert (divergenceBps r' = divergenceBps r) as Hsame.
  { rewrite Hbps, Hbps', E1, E2. unfold divergence_of.
    by rewrite (float_abs_sub_comm (q_price dl)), (float_add_comm (q_price dl)). }
  exists r, r'. split; [exact Hr|]. split; [exact Hr'|].
  split; [by rewrite Hprice, Hprice', E1, E2, float_add_comm|].
  split; [exact Hsame|]. by rewrite Hconf, Hconf', Hwarn, Hwarn', Hsame.
Qed.

(** X4.  The table is monotone: of two reconciliations, the one with the
    larger divergence never has the higher confidence. *)
Theorem larger_divergence_never_raises_confidence
    (cG1 dL1 cG2 dL2 : gmap string Quote) a1 a2 r1 r2 :
  crossVerify cG1 dL1 a1 = Some r1 → sources r1 = 2 →
  crossVerify cG2 dL2 a2 = Some r2 → sources r2 = 2 →
  number_le (divergenceBps r1) (divergenceBps r2) →
  confidence r2 ≤ confidence r1.
Proof.
  intros Hr1 Hs1 Hr2 Hs2 Hle.
  assert (∀ cG dL b r, crossVerify cG dL b = Some r → sources r = 2 →
            confidence r =
              (if js_le (divergenceBps r) (of_Z 10) then 99
               else if js_le (divergenceBps r) (of_Z 50) then 95
               else if js_le (divergenceBps r) (of_Z 100) then 85
               else if js_le (divergenceBps r) (of_Z 300) then 70
               else 40)) as Htable.
  { intros cG dL b r Hr Hs. unfold crossVerify in Hr.
    destruct (read cG b), (read dL b); try done;
      injection Hr as <-; cbn [sources confidence divergenceBps] in *; done. }
  rewrite (Htable _ _ _ _ Hr1 Hs1), (Htable _ _ _ _ Hr2 Hs2).
  assert (∀ k, js_le (divergenceBps r2) k = true → js_le (divergenceBps r1) k = true)
    as Hmono.
  { intros k Hk. apply js_le_spec. apply js_le_spec in Hk.
    by apply (number_le_trans _ _ _ Hle). }
  destruct (js_le (divergenceBps r2) (of_Z 10)) eqn:E10;
    [rewrite (Hmono _ E10); lia|].
  destruct (js_le (divergenceBps r2) (of_Z 50)) eqn:E50;
    [rewrite (Hmono _ E50); destruct (js_le (divergenceBps r1) (of_Z 10)); lia|].
  destruct (js_le (divergenceBps r2) (of_Z 100)) eqn:E100;
    [rewrite (Hmono _ E100);
     destruct (js_le (divergenceBps r1) (of_Z 10)),
              (js_le (divergenceBps r1) (of_Z 50)); lia|].
  destruct (js_le (divergenceBps r2) (of_Z 300)) eqn:E300;
    [rewrite (Hmono _ E300)|];
    destruct (js_le (divergenceBps r1) (of_Z 10)),
             (js_le (divergenceBps r1) (of_Z 50)),
             (js_le (divergenceBps r1) (of_Z 100));
    try lia; destruct (js_le (divergenceBps r1) (of_Z 300)); lia.
Qed.

(** The value the table assigns is one of its five levels, never the 60 of
    a single source, and it is 40 whenever the warning test succeeds. *)
Lemma table_facts (d : number) :
  let c := if js_le d (of_Z 10) then 99
           else if js_le d (of_Z 50) then 95
           else if js_le d (of_Z 100) then 85
           else if js_le d (of_Z 300) then 70
           else 40 in
  c ∈ confidence_levels ∧ c ≠ 60 ∧ (js_gt d (of_Z 300) = true → c = 40).
Proof.
  cbv zeta. unfold confidence_levels. split_and!.
  - destruct (js_le d (of_Z 10)); [set_solver|].
    destruct (js_le d (of_Z 50)); [set_solver|].
    destruct (js_le d (of_Z 100)); [set_solver|].
    destruct (js_le d (of_Z 300)); set_solver.
  - destruct (js_le d (of_Z 10)); [lia|].
    destruct (js_le d (of_Z 50)); [lia|].
    destruct (js_le d (of_Z 100)); [lia|].
    destruct (js_le d (of_Z 300)); lia.
  - intros G. apply js_gt_spec in G.
    assert (∀ k, k ≤ 300 → js_le d (of_Z k) = false) as Hno.
    { intros k Hk. apply js_le_false. intros Hle.
      destruct d as [q| | |]; simpl in *; try done.
      assert (inject_Z k <= inject_Z 300)%Q by (by rewrite <- Zle_Qle).
      lra. }
    by rewrite !Hno by lia.
Qed.

(** X5.  What every record of [crossVerify] satisfies, for a ticker that is
    no inherited property name: its confidence is one of 99, 95, 85, 70, 40
    and 60; it counts one or two sources and lists as
    many names; it has confidence 60 exactly when it has one source, and then
    no divergence, warning, per-source prices, 24h change or market cap; a
    warning comes only with two sources and confidence 40; and it carries no
    hash, asset name, timestamp or ISO string yet. *)
Theorem crossVerify_record_invariants
    (coinGecko deFiLlama : gmap string Quote) a r :
  a ∉ inherited_names →
  crossVerify coinGecko deFiLlama a = Some r →
  confidence r ∈ confidence_levels ∧
  (sources r = 1 ∨ sources r = 2) ∧
  Z.of_nat (length (sourceNames r)) = sources r ∧
  (sources r = 1 ↔ confidence r = 60) ∧
  (sources r = 1 ↔ source_prices r = None) ∧
  (sources r = 1 →
     divergenceBps r = of_Z 0 ∧ warning r = None ∧
     change24h r = None ∧ marketCap r = None) ∧
  (warning r ≠ None → sources r = 2 ∧ confidence r = 40) ∧
  dataHash r = None ∧ asset r = None ∧
  asset_timestamp r = None ∧ asset_iso r = None.
Proof.
  intros Ha. unfold crossVerify, read. rewrite !(decide_False _ _ Ha).
  destruct (coinGecko !! a) as [cg|], (deFiLlama !! a) as [dl|]; intros [= <-];
    cbn [confidence sources sourceNames source_prices divergenceBps warning
         change24h marketCap dataHash asset asset_timestamp asset_iso length].
  - set (d := Math_round _). clearbody d.
    destruct (table_facts d) as (Hin & Hne & Hwarn).
    split_and!; try done; try lia; try (by right).
    destruct (js_gt d (of_Z 300)) eqn:G; [|done]. intros _.
    split; [done|]. by apply Hwarn.
  - unfold confidence_levels.
    split_and!; try done; try lia; try (by left); set_solver.
  - unfold confidence_levels.
    split_and!; try done; try lia; try (by left); set_solver.
Qed.

(** ** The price adapters on replies that parsed *)

Lemma append_empty (s t : string) : s +:+ t = ""%string → s = ""%string ∧ t = ""%string.
Proof. destruct s; [done | discriminate]. Qed.

Lemma join_comma_empty (l : list string) :
  join "," l = ""%string → l = [] ∨ l = [""%string].
Proof.
  destruct l as [|x [|y l]].
  - by left.
  - cbn [join]. intros ->. by right.
  - cbn [join]. intros [_ [? _]%append_empty]%append_empty. done.
Qed.

Lemma provider_ids_unmapped ids assets :
  (∀ a, a ∈ assets → (a ∉ tickers ids) ∧ (a ∉ inherited_names)) →
  provider_ids ids assets = ""%string.
Proof.
  intros Hno. unfold provider_ids.
  assert (omap (read_id ids) assets = []) as ->; [|done].
  induction assets as [|a assets IH]; [done|].
  cbn [omap list_omap]. unfold read_id at 1.
  destruct (Hno a) as [Ht Hi]; [left|].
  rewrite (not_elem_of_list_to_map_1 _ a) by exact Ht.
  rewrite (decide_False _ _ Hi).
  apply IH. intros b Hb. apply Hno. by right.
Qed.

Lemma provider_ids_mapped ids assets a :
  Forall (λ p : string * string, p.2 ≠ ""%string) ids →
  a ∈ assets → a ∈ tickers ids → provider_ids ids assets ≠ ""%string.
Proof.
  intros Hids Ha Hin Hempty.
  destruct ((list_to_map ids : gmap string string) !! a) as [id|] eqn:E;
    [|by apply not_elem_of_list_to_map in E].
  assert (id ≠ ""%string) as Hid.
  { apply elem_of_list_to_map_2 in E.
    rewrite Forall_forall in Hids. apply (Hids _ E). }
  assert (id ∈ omap (read_id ids) assets) as Hmem.
  { apply list_elem_of_omap. exists a. split; [done|]. unfold read_id. by rewrite E. }
  apply join_comma_empty in Hempty as [Hl|Hl]; rewrite Hl in Hmem.
  - by apply elem_of_nil in Hmem.
  - apply list_elem_of_singleton in Hmem. done.
Qed.

Lemma table_fold_lookup {E : Type} (entry : string → option E) (quote_of : E → Quote)
    (ids : list (string * string)) (acc : gmap string Quote) (t : string) :
  NoDup ids.*1 →
  foldl (λ result '(ticker, id),
           match entry id with
           | Some e => <[ticker := quote_of e]> result
           | None => result
           end) acc ids !! t
  = match (list_to_map ids : gmap string string) !! t ≫= entry with
    | Some e => Some (quote_of e)
    | None => acc !! t
    end.
Proof.
  revert acc. induction ids as [|[k id] ids IH]; intros acc Hnd; [done|].
  cbn [fmap list_fmap fst] in Hnd. apply NoDup_cons in Hnd as [Hk Hnd].
  cbn [foldl list_to_map foldr uncurry fst snd]. rewrite IH by done.
  destruct (decide (t = k)) as [->|Hne].
  - rewrite lookup_insert_eq. apply not_elem_of_list_to_map_1 in Hk. rewrite Hk.
    cbn. destruct (entry id); [by rewrite lookup_insert_eq | done].
  - rewrite lookup_insert_ne by done.
    destruct (_ ≫= entry); [done|].
    destruct (entry id); [by rewrite lookup_insert_ne | done].
Qed.


Lemma table_fold_keys {E : Type} (entry : string → option E) (quote_of : E → Quote)
    (ids : list (string * string)) (acc : gmap string Quote) (t : string) (q : Quote) :
  foldl (λ result '(ticker, id),
           match entry id with
           | Some e => <[ticker := quote_of e]> result
           | None => result
           end) acc ids !! t = Some q →
  acc !! t = Some q ∨ t ∈ tickers ids.
Proof.
  revert acc. induction ids as [|[k id] ids IH]; intros acc; [by left|].
  cbn [foldl]. intros [Hacc|Hin]%IH.
  - destruct (entry id); [|by left].
    destruct (decide (t = k)) as [->|Hne]; [right; by left|].
    rewrite lookup_insert_ne in Hacc by done. by left.
  - right. by right.
Qed.

Lemma gecko_ids_NoDup : NoDup (tickers gecko_ids).
Proof. apply (bool_decide_unpack _). by vm_compute. Qed.

Lemma llama_ids_NoDup : NoDup (tickers llama_ids).
Proof. apply (bool_decide_unpack _). by vm_compute. Qed.

Lemma gecko_ids_nonempty : Forall (λ p : string * string, p.2 ≠ ""%string) gecko_ids.
Proof. apply (bool_decide_unpack _). by vm_compute. Qed.

Lemma llama_ids_nonempty : Forall (λ p : string * string, p.2 ≠ ""%string) llama_ids.
Proof. apply (bool_decide_unpack _). by vm_compute. Qed.

Lemma llama_tickers_in_gecko : Forall (λ t, t ∈ tickers gecko_ids) (tickers llama_ids).
Proof. apply (bool_decide_unpack _). by vm_compute. Qed.

Lemma gecko_tickers_own : Forall (λ t, t ∉ inherited_names) (tickers gecko_ids).
Proof. apply (bool_decide_unpack _). by vm_compute. Qed.

Lemma table_lookup_elem_of (ids : list (string * string)) (t id : string) :
  NoDup ids.*1 →
  (list_to_map ids : gmap string string) !! t = Some id ↔ (t, id) ∈ ids.
Proof. intros Hnd. by rewrite elem_of_list_to_map. Qed.

(** What [fetchCoinGecko] returns on a reply that parsed, once one requested
    asset is in its table. *)
Lemma fetchCoinGecko_parsed assets (data : gmap string GeckoEntry) a t :
  a ∈ assets → a ∈ tickers gecko_ids →
  ∃ quotes, fetchCoinGecko assets (Parsed data) = Normal quotes ∧
    quotes !! t =
      gecko_quote <$> ((list_to_map gecko_ids : gmap string string) !! t ≫= (data !!.)).
Proof.
  intros Ha Hin. unfold fetchCoinGecko.
  rewrite decide_False by (by apply (provider_ids_mapped _ _ a gecko_ids_nonempty)).
  rewrite bind_fetch_parsed, try_catch_total. eexists. split; [reflexivity|].
  rewrite (table_fold_lookup (λ id, data !! id) gecko_quote gecko_ids ∅ t gecko_ids_NoDup).
  rewrite lookup_empty. by destruct (_ ≫= _).
Qed.

Lemma fetchDeFiLlama_parsed assets (data : LlamaPrices) cs a t :
  a ∈ assets → a ∈ tickers llama_ids → coins data = Some cs →
  ∃ quotes, fetchDeFiLlama assets (Parsed data) = Normal quotes ∧
    quotes !! t =
      llama_quote <$> ((list_to_map llama_ids : gmap string string) !! t ≫= (cs !!.)).
Proof.
  intros Ha Hin Hcs. unfold fetchDeFiLlama.
  rewrite decide_False by (by apply (provider_ids_mapped _ _ a llama_ids_nonempty)).
  rewrite bind_fetch_parsed, try_catch_total. eexists. split; [reflexivity|].
  rewrite Hcs.
  rewrite (table_fold_lookup (λ id, cs !! id) llama_quote llama_ids ∅ t llama_ids_NoDup).
  rewrite lookup_empty. by destruct (_ ≫= _).
Qed.

(** The keys of an adapter's result are tickers of its table. *)
Lemma fetchCoinGecko_keys assets reply quotes t q :
  fetchCoinGecko assets reply = Normal quotes → quotes !! t = Some q →
  t ∈ tickers gecko_ids.
Proof.
  unfold fetchCoinGecko. case_decide as Hd; [by intros [= <-]|]. clear Hd.
  rewrite try_catch_total. generalize gecko_ids. intros ids.
  destruct reply as [e|e|data]; try (by intros [= <-]).
  rewrite bind_fetch_parsed. intros [= <-] Hq.
  by apply (table_fold_keys (λ id, data !! id) gecko_quote) in Hq as [?|?].
Qed.

Lemma fetchDeFiLlama_keys assets reply quotes t q :
  fetchDeFiLlama assets reply = Normal quotes → quotes !! t = Some q →
  t ∈ tickers llama_ids.
Proof.
  unfold fetchDeFiLlama. case_decide as Hd; [by intros [= <-]|]. clear Hd.
  rewrite try_catch_total. generalize llama_ids. intros ids.
  destruct reply as [e|e|data]; try (by intros [= <-]).
  rewrite bind_fetch_parsed. intros [= <-] Hq.
  destruct (coins data) as [cs|].
  - by apply (table_fold_keys (λ id, cs !! id) llama_quote) in Hq as [?|?].
  - by apply (table_fold_keys (λ _, None) llama_quote) in Hq as [?|?].
Qed.

(** X6.  When no requested asset is in the CoinGecko table, or is an
    inherited property name, neither adapter reads its reply: both return the
    empty mapping whatever the providers answer, and the snapshot has no
    price. *)
Theorem unlisted_assets_are_never_requested assets up t1 t2 :
  (∀ a, a ∈ assets → (a ∉ tickers gecko_ids) ∧ (a ∉ inherited_names)) →
  fetchCoinGecko assets (coingecko_reply up) = Normal ∅ ∧
  fetchDeFiLlama assets (defillama_reply up) = Normal ∅ ∧
  ∃ s, getFullSnapshot assets up t1 t2 = Normal s ∧ prices s = ∅.
Proof.
  intros Hout.
  assert (∀ a, a ∈ assets → a ∉ tickers gecko_ids) as Hno
    by (intros a Ha; by destruct (Hout a Ha)).
  assert (fetchCoinGecko assets (coingecko_reply up) = Normal ∅) as H1.
  { unfold fetchCoinGecko. by rewrite provider_ids_unmapped, decide_True. }
  assert (fetchDeFiLlama assets (defillama_reply up) = Normal ∅) as H2.
  { unfold fetchDeFiLlama. rewrite provider_ids_unmapped, decide_True; [done..|].
    intros a Ha. destruct (Hout a Ha) as [Hg Hi]. split; [|exact Hi].
    intros Hin. apply Hg.
    pose proof llama_tickers_in_gecko as Hsub. rewrite Forall_forall in Hsub.
    by apply Hsub. }
  split; [exact H1|]. split; [exact H2|].
  destruct (fetchFearGreed_total (feargreed_reply up)) as [fg H3].
  destruct (fetchTVL_total (tvl_reply up)) as [tv H4].
  destruct (fetchStablecoins_total (stablecoins_reply up)) as [sc H5].
  destruct (fetchGas_total (gas_reply up)) as [gs H6].
  eexists. split; [by apply getFullSnapshot_assembles|].
  apply reconcile_all_no_quotes, Forall_forall.
  intros a Ha. by destruct (Hout a Ha).
Qed.

(** X7.  On a reply that parsed, [fetchCoinGecko] quotes exactly the tickers
    of its table whose identifier the reply has an entry for, with the
    entry's price, 24h change and market cap, whether or not the ticker was
    requested. *)
Theorem fetchCoinGecko_quotes_the_listed_entries
    assets (data : gmap string GeckoEntry) a :
  a ∈ assets → a ∈ tickers gecko_ids →
  ∃ quotes, fetchCoinGecko assets (Parsed data) = Normal quotes ∧
    ∀ t q, quotes !! t = Some q ↔
      ∃ id e, (t, id) ∈ gecko_ids ∧ data !! id = Some e ∧
        q = {| q_price := usd e; q_change24h := usd_24h_change e;
               q_marketCap := usd_market_cap e; q_confidence := None;
               q_source := "coingecko" |}.
Proof.
  intros Ha Hin.
  destruct (fetchCoinGecko_parsed assets data a "" Ha Hin) as (quotes & Hq & _).
  exists quotes. split; [exact Hq|]. intros t q.
  destruct (fetchCoinGecko_parsed assets data a t Ha Hin) as (quotes' & Hq' & Hlook).
  rewrite Hq in Hq'. injection Hq' as <-. rewrite Hlook. clear Hlook.
  split.
  - destruct (list_to_map gecko_ids !! t) as [id|] eqn:E; [|done].
    cbn [mbind option_bind]. destruct (data !! id) as [e|] eqn:Ed; [|done].
    intros [= <-]. exists id, e. split; [by apply elem_of_list_to_map_2|done].
  - intros (id & e & Hin' & Hd & ->).
    apply (table_lookup_elem_of _ _ _ gecko_ids_NoDup) in Hin'. rewrite Hin'.
    cbn [mbind option_bind]. by rewrite Hd.
Qed.

(** X8.  On a reply that parsed and has [coins], [fetchDeFiLlama] quotes
    exactly the tickers of its table whose identifier is among the coins,
    with the coin's price; the confidence of a quote is the coin's, or 0.99
    when the coin has none or has 0, so it is never missing and never 0. *)
Theorem fetchDeFiLlama_quotes_the_listed_coins
    assets (data : LlamaPrices) (cs : gmap string LlamaEntry) a :
  a ∈ assets → a ∈ tickers llama_ids → coins data = Some cs →
  ∃ quotes, fetchDeFiLlama assets (Parsed data) = Normal quotes ∧
    (∀ t q, quotes !! t = Some q ↔
       ∃ id e, (t, id) ∈ llama_ids ∧ cs !! id = Some e ∧ q = llama_quote e) ∧
    (∀ t q, quotes !! t = Some q →
       q_source q = "defillama"%string ∧
       ∃ c, q_confidence q = Some c ∧ ¬ (c == 0)%Q).
Proof.
  intros Ha Hin Hcs.
  destruct (fetchDeFiLlama_parsed assets data cs a "" Ha Hin Hcs) as (quotes & Hq & _).
  exists quotes. split; [exact Hq|].
  assert (∀ t q, quotes !! t = Some q ↔
            ∃ id e, (t, id) ∈ llama_ids ∧ cs !! id = Some e ∧ q = llama_quote e)
    as Hchar.
  { intros t q.
    destruct (fetchDeFiLlama_parsed assets data cs a t Ha Hin Hcs)
      as (quotes' & Hq' & Hlook).
    rewrite Hq in Hq'. injection Hq' as <-. rewrite Hlook. clear Hlook.
    split.
    - destruct (list_to_map llama_ids !! t) as [id|] eqn:E; [|done].
      cbn [mbind option_bind]. destruct (cs !! id) as [e|] eqn:Ed; [|done].
      intros [= <-]. exists id, e. split; [by apply elem_of_list_to_map_2|done].
    - intros (id & e & Hin' & Hd & ->).
      apply (table_lookup_elem_of _ _ _ llama_ids_NoDup) in Hin'. rewrite Hin'.
      cbn [mbind option_bind]. by rewrite Hd. }
  split; [exact Hchar|].
  intros t q (id & e & _ & _ & ->)%Hchar. split; [done|].
  unfold llama_quote. cbn [q_confidence]. eexists. split; [reflexivity|].
  destruct (llama_confidence e) as [c|]; [|done].
  destruct (Qeq_bool c 0) eqn:E; [done|].
  intros Hc. apply Qeq_bool_iff in Hc. congruence.
Qed.

(** ** The ranking adapters *)

Lemma sort_insert_perm {A : Type} (cmp : A → A → Q) (x : A) (l : list A) :
  sort_insert cmp x l ≡ₚ x :: l.
Proof.
  induction l as [|y l IH]; [done|]. cbn [sort_insert].
  destruct (Qle_bool _ _); [done|]. rewrite IH. apply Permutation_swap.
Qed.

Lemma js_sort_perm {A : Type} (cmp : A → A → Q) (l : list A) : js_sort cmp l ≡ₚ l.
Proof.
  induction l as [|x l IH]; [done|]. unfold js_sort in *. cbn [foldr].
  by rewrite sort_insert_perm, IH.
Qed.

Lemma sort_insert_descending {A : Type} (key : A → Q) (x : A) (l : list A) :
  descending key l → descending key (sort_insert (λ a b, (key b - key a)%Q) x l).
Proof.
  unfold descending. induction l as [|y l IH]; intros Hs.
  - repeat constructor.
  - cbn [sort_insert]. apply StronglySorted_inv in Hs as [Hs Hy].
    destruct (Qle_bool (key y - key x) 0) eqn:E.
    + apply Qle_bool_iff in E. constructor; [by constructor|].
      constructor; [lra|]. eapply Forall_impl; [exact Hy|].
      intros b Hb. cbn beta in Hb. lra.
    + assert (¬ (key y - key x <= 0)%Q) as Hgt
        by (rewrite <- Qle_bool_iff; congruence).
      constructor; [by apply IH|].
      rewrite sort_insert_perm. constructor; [lra|done].
Qed.

Lemma js_sort_descending {A : Type} (key : A → Q) (l : list A) :
  descending key (js_sort (λ a b, (key b - key a)%Q) l).
Proof.
  induction l as [|x l IH]; [constructor|].
  unfold js_sort in *. cbn [foldr]. by apply sort_insert_descending.
Qed.

(** The first [n] of an array sorted by descending key. *)
Lemma top_of_sorted {A : Type} (key : A → Q) (n : nat) (l : list A) :
  let sorted := js_sort (λ a b, (key b - key a)%Q) l in
  take n sorted ++ drop n sorted ≡ₚ l ∧
  length (take n sorted) = (n `min` length l)%nat ∧
  descending key (take n sorted) ∧
  ∀ k d, k ∈ take n sorted → d ∈ drop n sorted → (key d <= key k)%Q.
Proof.
  intros sorted.
  pose proof (js_sort_perm (λ a b, (key b - key a)%Q) l) as Hperm.
  pose proof (js_sort_descending key l) as Hdesc.
  fold sorted in Hperm, Hdesc. clearbody sorted.
  rewrite <- (take_drop n sorted) in Hdesc. unfold descending in *.
  apply StronglySorted_app in Hdesc as (Hcross & Htake & _).
  split_and!.
  - by rewrite take_drop.
  - by rewrite length_take, (Permutation_length Hperm).
  - exact Htake.
  - intros k d Hk Hd. by apply Hcross.
Qed.

(** X9.  [fetchTVL] on a reply that is an array returns the 15 chains with
    the largest TVL (all of them when there are fewer), largest first, a
    missing TVL counting as 0: the chains it keeps and those it drops are
    together the reply, and no dropped chain has more than a kept one. *)
Theorem fetchTVL_keeps_the_15_largest (array : list LlamaChain) :
  ∃ kept dropped,
    fetchTVL (Parsed (Some array)) =
      Normal (Some {| chains := tvl_item <$> kept; tvl_source := "defillama" |}) ∧
    kept ++ dropped ≡ₚ array ∧
    length kept = (15 `min` length array)%nat ∧
    descending tvl_key kept ∧
    ∀ k d, k ∈ kept → d ∈ dropped → (tvl_key d <= tvl_key k)%Q.
Proof.
  destruct (top_of_sorted tvl_key 15 array) as (H1 & H2 & H3 & H4).
  by eexists _, _.
Qed.

(** X10.  [fetchStablecoins] on a reply with [peggedAssets] returns the 10
    assets with the largest circulating USD amount, largest first, a missing
    amount counting as 0. *)
Theorem fetchStablecoins_keeps_the_10_largest (data : StablecoinData) assets :
  peggedAssets data = Some assets →
  ∃ kept dropped,
    fetchStablecoins (Parsed data) =
      Normal (Some {| stablecoin_list := stablecoin_item <$> kept;
                      stablecoins_source := "defillama" |}) ∧
    kept ++ dropped ≡ₚ assets ∧
    length kept = (10 `min` length assets)%nat ∧
    descending circulating_usd kept ∧
    ∀ k d, k ∈ kept → d ∈ dropped → (circulating_usd d <= circulating_usd k)%Q.
Proof.
  intros Hd.
  destruct (top_of_sorted circulating_usd 10 assets) as (H1 & H2 & H3 & H4).
  eexists _, _. split; [|done].
  unfold fetchStablecoins. rewrite bind_fetch_parsed, Hd. reflexivity.
Qed.

(** X11.  [fetchGas] returns gas prices exactly when the reply parsed, its
    status is ["1"] and it has a result; they are then the three fields read
    by [parseInt].  In every other case it returns [null]. *)
Theorem fetchGas_needs_status_1 (reply : Response GasData) :
  (∀ g, fetchGas reply = Normal (Some g) ↔
     ∃ data r, reply = Parsed data ∧ gas_status data = "1"%string ∧
       gas_result data = Some r ∧
       g = {| low := parseInt (SafeGasPrice r);
              standard := parseInt (ProposeGasPrice r);
              fast := parseInt (FastGasPrice r);
              gas_source := "etherscan" |}) ∧
  ((¬ ∃ g, fetchGas reply = Normal (Some g)) → fetchGas reply = Normal None).
Proof.
  split.
  - intros g. split.
    + destruct reply as [e|e|data]; try done.
      unfold fetchGas. rewrite bind_fetch_parsed.
      case_decide as Hs; [|done].
      destruct (gas_result data) as [r|] eqn:Hr; [|done].
      intros [= <-]. by exists data, r.
    + intros (data & r & -> & Hs & Hr & ->).
      unfold fetchGas. rewrite bind_fetch_parsed, decide_True, Hr by done. done.
  - intros Hno. destruct (fetchGas_total reply) as [[g|] Hg]; [|done].
    destruct Hno. by exists g.
Qed.

(** ** The price mapping of a cycle *)

Lemma getFullSnapshot_inv assets up t1 t2 s :
  getFullSnapshot assets up t1 t2 = Normal s →
  ∃ cG dL,
    fetchCoinGecko assets (coingecko_reply up) = Normal cG ∧
    fetchDeFiLlama assets (defillama_reply up) = Normal dL ∧
    prices s = reconcile_all cG dL assets.
Proof.
  destruct (fetchCoinGecko_total assets (coingecko_reply up)) as [cG H1].
  destruct (fetchDeFiLlama_total assets (defillama_reply up)) as [dL H2].
  destruct (fetchFearGreed_total (feargreed_reply up)) as [fg H3].
  destruct (fetchTVL_total (tvl_reply up)) as [tv H4].
  destruct (fetchStablecoins_total (stablecoins_reply up)) as [sc H5].
  destruct (fetchGas_total (gas_reply up)) as [gs H6].
  rewrite (getFullSnapshot_assembles _ _ t1 t2 _ _ _ _ _ _ H1 H2 H3 H4 H5 H6).
  intros [= <-]. by exists cG, dL.
Qed.

(** X12.  End to end: an asset that was requested, is in both tables and has
    an entry in both parsed replies is in the snapshot with two sources, the
    price [(usd + price) / 2] as binary64 arithmetic computes it from the
    two entries, both prices side by side, and CoinGecko's 24h change and
    market cap. *)
Theorem snapshot_reconciles_an_asset_quoted_twice
    assets up t1 t2 a gid lid gdata ldata cs e l :
  a ∈ assets → (a, gid) ∈ gecko_ids → (a, lid) ∈ llama_ids →
  coingecko_reply up = Parsed gdata → defillama_reply up = Parsed ldata →
  gdata !! gid = Some e → coins ldata = Some cs → cs !! lid = Some l →
  ∃ s r, getFullSnapshot assets up t1 t2 = Normal s ∧
    prices s !! a = Some r ∧
    price r = Some ((usd e + llama_price l) / 2)%float ∧
    source_prices r = Some (Some (usd e), Some (llama_price l)) ∧
    sources r = 2 ∧ sourceNames r = ["coingecko"; "defillama"]%string ∧
    change24h r = usd_24h_change e ∧ marketCap r = usd_market_cap e.
Proof.
  intros Ha Hg Hl Hgr Hlr Hge Hcs Hle.
  destruct (getFullSnapshot_total assets up t1 t2) as (s & Hs & _).
  destruct (getFullSnapshot_inv _ _ _ _ _ Hs) as (cG & dL & HcG & HdL & Hp).
  assert (a ∈ tickers gecko_ids) as Hgt
    by (apply list_elem_of_fmap; by exists (a, gid)).
  assert (a ∈ tickers llama_ids) as Hlt
    by (apply list_elem_of_fmap; by exists (a, lid)).
  rewrite Hgr in HcG. rewrite Hlr in HdL.
  destruct (fetchCoinGecko_parsed assets gdata a a Ha Hgt) as (cG' & HcG' & Hcg).
  rewrite HcG in HcG'. injection HcG' as <-.
  destruct (fetchDeFiLlama_parsed assets ldata cs a a Ha Hlt Hcs) as (dL' & HdL' & Hdl).
  rewrite HdL in HdL'. injection HdL' as <-.
  apply (table_lookup_elem_of _ _ _ gecko_ids_NoDup) in Hg.
  apply (table_lookup_elem_of _ _ _ llama_ids_NoDup) in Hl.
  rewrite Hg in Hcg. rewrite Hl in Hdl. cbn [mbind option_bind] in Hcg, Hdl.
  rewrite Hge in Hcg. rewrite Hle in Hdl. cbn [fmap option_fmap option_map] in Hcg, Hdl.
  assert (a ≠ "__proto__"%string) as Hnp.
  { pose proof gecko_tickers_own as Hown. rewrite Forall_forall in Hown.
    intros ->. apply (Hown _ Hgt). apply (bool_decide_unpack _). by vm_compute. }
  exists s.
  assert (prices s !! a = crossVerify cG dL a) as Hlook
    by (by rewrite Hp, reconcile_all_lookup, decide_True).
  unfold crossVerify in Hlook.
  rewrite (read_own _ _ _ Hcg), (read_own _ _ _ Hdl) in Hlook.
  eexists. split; [exact Hs|]. split; [exact Hlook|]. done.
Qed.

(** X13.  What the price mapping of a cycle can hold, when no requested
    asset is an inherited property name: only requested tickers of the
    CoinGecko table; and a ticker outside the DeFiLlama table (DOT, MATIC,
    BASE, USDT and USDC are such) is never cross-verified: its record has
    CoinGecko as only source and confidence 60. *)
Theorem snapshot_prices_come_from_the_tables assets up t1 t2 s a r :
  Forall (λ x, x ∉ inherited_names) assets →
  getFullSnapshot assets up t1 t2 = Normal s → prices s !! a = Some r →
  a ∈ assets ∧ a ∈ tickers gecko_ids ∧
  (a ∉ tickers llama_ids →
     sources r = 1 ∧ sourceNames r = ["coingecko"%string] ∧ confidence r = 60 ∧
     warning r = None).
Proof.
  intros Hown Hs Hr.
  destruct (getFullSnapshot_inv _ _ _ _ _ Hs) as (cG & dL & HcG & HdL & Hp).
  rewrite Hp, reconcile_all_lookup in Hr.
  destruct (decide (a ∈ assets ∧ a ≠ "__proto__"%string)) as [[Ha _]|]; [|done].
  split; [exact Ha|].
  assert (a ∉ inherited_names) as Hi
    by (rewrite Forall_forall in Hown; by apply Hown).
  pose proof llama_tickers_in_gecko as Hsub. rewrite Forall_forall in Hsub.
  unfold crossVerify, read in Hr. rewrite !(decide_False _ _ Hi) in Hr.
  destruct (cG !! a) as [cg|] eqn:Ecg, (dL !! a) as [dl|] eqn:Edl; [| | |done].
  - pose proof (fetchDeFiLlama_keys _ _ _ _ _ HdL Edl) as Hin.
    split; [by apply Hsub|]. by intros Hno.
  - pose proof (fetchCoinGecko_keys _ _ _ _ _ HcG Ecg) as Hin.
    split; [exact Hin|]. intros _. by injection Hr as <-.
  - pose proof (fetchDeFiLlama_keys _ _ _ _ _ HdL Edl) as Hin.
    split; [by apply Hsub|]. by intros Hno.
Qed.

(** ** The rate limiter under traffic *)

Lemma live_live (b t : Z) (l : list Z) : t ≤ b → live b (live t l) = live b l.
Proof.
  intros Htb. unfold live. induction l as [|x l IH]; [done|].
  rewrite !(filter_cons _ x). repeat case_decide; try lia.
  - rewrite filter_cons_True by done. by rewrite IH.
  - rewrite filter_cons_False by done. exact IH.
  - exact IH.
Qed.

Lemma live_app (b : Z) (l1 l2 : list Z) : live b (l1 ++ l2) = live b l1 ++ live b l2.
Proof. apply filter_app. Qed.

Lemma filter_length_mono {A : Type} (P Q : A → Prop)
    `{∀ x, Decision (P x)} `{∀ x, Decision (Q x)} (l : list A) :
  (∀ x, P x → Q x) → (length (filter P l) ≤ length (filter Q l))%nat.
Proof.
  intros HPQ. induction l as [|x l IH]; [done|].
  rewrite !(filter_cons _ x). repeat case_decide; simpl; try lia.
  exfalso. auto.
Qed.

Lemma check_all_app (calls1 calls2 : list (string * Z)) (st : ServerState) :
  check_all (calls1 ++ calls2) st =
  let '(oks1, st1) := check_all calls1 st in
  let '(oks2, st2) := check_all calls2 st1 in
  (oks1 ++ oks2, st2).
Proof.
  revert st. induction calls1 as [|[ip t] l IH]; intros st; cbn [check_all app].
  - by destruct (check_all calls2 st).
  - destruct (checkRateLimit ip t st) as [ok st1]. rewrite IH.
    destruct (check_all l st1) as [o1 s1]. by destruct (check_all calls2 s1).
Qed.

Lemma check_all_length (calls : list (string * Z)) (st : ServerState) :
  length (check_all calls st).1 = length calls.
Proof.
  revert st. induction calls as [|[ip t] l IH]; intros st; cbn [check_all]; [done|].
  destruct (checkRateLimit ip t st) as [ok st1]. specialize (IH st1).
  destruct (check_all l st1) as [o1 s1]. simpl in *. by rewrite IH.
Qed.

Lemma admitted_times_snoc ip calls oks (c : string * Z) (ok : bool) :
  length calls = length oks →
  admitted_times ip (calls ++ [c]) (oks ++ [ok]) =
  admitted_times ip calls oks ++ (if decide (c.1 = ip ∧ ok = true) then [c.2] else []).
Proof.
  intros Hlen. unfold admitted_times.
  rewrite zip_with_app by done. rewrite filter_app, !fmap_app. f_equal.
  cbn [zip_with]. rewrite filter_cons, filter_nil. cbn [fst snd].
  by case_decide.
Qed.

(** X14.  The sliding window does what it is for.  Under any traffic of any
    number of clients, with a clock that never goes back, a client whose
    record was empty at the start is admitted at most [RATE_LIMIT] times
    within any period of one hour. *)
Theorem at_most_RATE_LIMIT_admissions_per_hour
    ip (calls : list (string * Z)) (st : ServerState) (lo : Z) :
  StronglySorted Z.le calls.*2 → calls_of ip st = [] →
  Z.of_nat (length (in_window lo (admitted_times ip calls (check_all calls st).1)))
  ≤ Z.max 0 RATE_LIMIT.
Proof.
  intros Hsorted Hempty.
  (* Proved together with: as far as the current window matters, the record
     of the client holds the times at which it was admitted. *)
  enough ((∀ b, Forall (λ t, t ≤ b) calls.*2 →
             live b (calls_of ip (check_all calls st).2) =
             live b (admitted_times ip calls (check_all calls st).1)) ∧
          ∀ lo, Z.of_nat (length (in_window lo
                            (admitted_times ip calls (check_all calls st).1)))
                ≤ Z.max 0 RATE_LIMIT) as [_ Hwin] by apply Hwin.
  clear lo. induction calls as [|[ip' t] calls IH] using rev_ind.
  - cbn [check_all fst snd]. rewrite Hempty. split; [done|]. intros lo. simpl. lia.
  - rewrite fmap_app in Hsorted. cbn [fmap list_fmap snd] in Hsorted.
    apply StronglySorted_app in Hsorted as (Hcross & Hsorted & _).
    destruct (IH Hsorted) as [Hrec Hwin]. clear IH.
    pose proof (check_all_length calls st) as Hlen.
    rewrite check_all_app. destruct (check_all calls st) as [oks st1].
    cbn [fst snd] in *. cbn [check_all].
    assert (Forall (λ x, x ≤ t) calls.*2) as Hbefore.
    { apply Forall_forall. intros x Hx. apply Hcross; [exact Hx|]. by left. }
    destruct (checkRateLimit ip' t st1) as [ok st2] eqn:Hcheck. cbn [fst snd].
    rewrite admitted_times_snoc by done. cbn [fst snd].
    destruct (decide (ip' = ip)) as [->|Hne].
    + pose proof (Hrec t Hbefore) as Hnow.
      destruct (decide (RATE_LIMIT ≤ Z.of_nat (length (live t (calls_of ip st1)))))
        as [Hfull|Hroom].
      * rewrite checkRateLimit_rejects in Hcheck by done.
        injection Hcheck as <- <-. rewrite calls_of_set.
        rewrite decide_False by (intros [_ ?]; done). rewrite app_nil_r.
        split; [|exact Hwin].
        intros b Hb. rewrite fmap_app in Hb. apply Forall_app in Hb as [Hb1 Hb2].
        apply Forall_cons in Hb2 as [Hb2 _]. cbn [snd] in Hb2.
        rewrite live_live by done. by apply Hrec.
      * rewrite checkRateLimit_admits in Hcheck by lia.
        injection Hcheck as <- <-. rewrite calls_of_set.
        rewrite decide_True by done.
        split.
        -- intros b Hb. rewrite fmap_app in Hb. apply Forall_app in Hb as [Hb1 Hb2].
           apply Forall_cons in Hb2 as [Hb2 _]. cbn [snd] in Hb2.
           rewrite !live_app, live_live by done. by rewrite Hrec.
        -- intros lo. specialize (Hwin lo).
           assert (in_window lo (admitted_times ip calls oks ++ [t]) =
                   in_window lo (admitted_times ip calls oks) ++ in_window lo [t]) as ->
             by apply filter_app.
           rewrite length_app. unfold in_window at 2.
           rewrite filter_cons, filter_nil.
           case_decide as Hin; cbn [length]; [|lia].
           assert (length (in_window lo (admitted_times ip calls oks))
                   ≤ length (live t (admitted_times ip calls oks)))%nat as Hsub.
           { unfold in_window, live. apply filter_length_mono. intros x [? ?]. lia. }
           rewrite <- Hnow in Hsub. lia.
    + assert (calls_of ip st2 = calls_of ip st1) as Hsame.
      { replace st2 with (checkRateLimit ip' t st1).2 by (by rewrite Hcheck).
        by apply calls_of_other. }
      rewrite Hsame. rewrite decide_False by (intros [? _]; done).
      rewrite app_nil_r. split; [|exact Hwin].
      intros b Hb. rewrite fmap_app in Hb. apply Forall_app in Hb as [Hb1 _].
      by apply Hrec.
Qed.

(** X15.  Clients do not interfere: checks for two different clients give
    the same answers and the same state in either order. *)
Theorem checks_of_different_clients_commute ip ip' t t' st :
  ip ≠ ip' →
  (checkRateLimit ip' t' (checkRateLimit ip t st).2).1 = (checkRateLimit ip' t' st).1 ∧
  (checkRateLimit ip t (checkRateLimit ip' t' st).2).1 = (checkRateLimit ip t st).1 ∧
  (checkRateLimit ip' t' (checkRateLimit ip t st).2).2 =
  (checkRateLimit ip t (checkRateLimit ip' t' st).2).2.
Proof.
  intros Hne. unfold checkRateLimit.
  set (r := filter (λ x, t - window < x) (default [] (rateLimits st !! ip))).
  set (r' := filter (λ x, t' - window < x) (default [] (rateLimits st !! ip'))).
  unfold set_rateLimits.
  destruct (decide (RATE_LIMIT ≤ Z.of_nat (length r))) as [D|D],
           (decide (RATE_LIMIT ≤ Z.of_nat (length r'))) as [D'|D'];
    cbn [fst snd rateLimits cache cacheTime];
    rewrite !lookup_insert_ne by done; fold r r';
    rewrite ?(decide_True _ _ D), ?(decide_True _ _ D'),
            ?(decide_False _ _ D), ?(decide_False _ _ D');
    cbn [fst snd rateLimits cache cacheTime];
    (split; [done|]; split; [done|]); f_equal; by apply insert_insert_ne.
Qed.

Lemma checkRateLimit_bounded ip now st :
  records_bounded st → records_bounded (checkRateLimit ip now st).2.
Proof.
  intros Hb ip' ts'.
  assert (Z.of_nat (length (default [] (rateLimits st !! ip))) ≤ Z.max 0 RATE_LIMIT)
    as Hold.
  { destruct (rateLimits st !! ip) as [ts|] eqn:E; [by apply (Hb ip)|simpl; lia]. }
  unfold checkRateLimit.
  pose proof (length_filter (λ t, now - window < t) (default [] (rateLimits st !! ip)))
    as Hle.
  set (calls := filter _ _) in *.
  case_decide; cbn [snd set_rateLimits rateLimits];
    (destruct (decide (ip = ip')) as [<-|Hne];
     [rewrite lookup_insert_eq; intros [= <-]
     |rewrite lookup_insert_ne by done; apply Hb]).
  - lia.
  - rewrite length_app. simpl. lia.
Qed.

Lemma checkRateLimit_keeps_clients ip now st ip' :
  is_Some (rateLimits (checkRateLimit ip now st).2 !! ip') ↔
  is_Some (rateLimits st !! ip') ∨ ip' = ip.
Proof.
  destruct (checkRateLimit_frame ip now st) as [r ->]. cbn [set_rateLimits rateLimits].
  destruct (decide (ip = ip')) as [<-|Hne].
  - rewrite lookup_insert_eq. split; [by right | by eexists].
  - rewrite lookup_insert_ne by done. split; [by left | by intros [?|?]].
Qed.

Lemma getCachedSnapshot_rateLimits env st :
  rateLimits (getCachedSnapshot env st).2 = rateLimits st.
Proof.
  destruct (getCachedSnapshot_returns_cache env st) as (data & st' & -> & _ & Hr).
  exact Hr.
Qed.

(** The cached routes touch the limiter through their one check only. *)
Lemma handle_rateLimits r env st :
  rateLimits (handle r env st).2 =
  rateLimits (checkRateLimit (client r) (now_rate env) st).2.
Proof.
  destruct r as [ip|ip param|ip]; cbn [handle client];
    [unfold snapshot_handler|unfold price_handler|unfold prices_handler];
    destruct (checkRateLimit ip (now_rate env) st) as [[|] st1]; cbn [negb snd];
    try reflexivity;
    pose proof (getCachedSnapshot_rateLimits env st1) as Hr;
    destruct (getCachedSnapshot env st1) as [[data|e] st2]; cbn [snd] in Hr;
    try (by rewrite <- Hr).
  destruct (prices data !! toUpperCase param); by rewrite <- Hr.
Qed.

(** X16.  Whatever requests the cached routes serve, every record of the
    limiter stays within the quota; and the limiter holds a record for
    exactly the clients it had one for and those that called since: no
    record is ever removed. *)
Theorem limiter_records_stay_within_quota (rs : list (Request * Env)) st :
  records_bounded st →
  records_bounded (serve rs st).2 ∧
  ∀ ip, is_Some (rateLimits (serve rs st).2 !! ip) ↔
        is_Some (rateLimits st !! ip) ∨ ip ∈ (λ p, client p.1) <$> rs.
Proof.
  revert st. induction rs as [|[r env] rs IH]; intros st Hb.
  - split; [exact Hb|]. intros ip. rewrite fmap_nil, elem_of_nil. tauto.
  - cbn [serve]. destruct (handle r env st) as [resp st1] eqn:Hh.
    assert (rateLimits st1 = rateLimits (checkRateLimit (client r) (now_rate env) st).2)
      as Hr by (rewrite <- handle_rateLimits; by rewrite Hh).
    assert (records_bounded st1) as Hb1.
    { intros ip ts. rewrite Hr. by apply checkRateLimit_bounded. }
    destruct (IH st1 Hb1) as [Hb2 Hdom].
    destruct (serve rs st1) as [resps st2]. cbn [snd] in *.
    split; [exact Hb2|]. intros ip. rewrite Hdom, Hr, checkRateLimit_keeps_clients.
    rewrite fmap_cons, elem_of_cons. cbn [fst]. tauto.
Qed.


(** ** The routes *)

Lemma getCachedSnapshot_served env st :
  ∃ data st', getCachedSnapshot env st = (Normal data, st').
Proof.
  destruct (getCachedSnapshot_returns_cache env st) as (data & st' & Hg & _).
  by exists data, st'.
Qed.

(** X17.  A request from a client that has used its quota is answered 429
    without anything else happening: no provider is asked, the cache slot
    keeps its content, and the call is not recorded. *)
Theorem over_quota_requests_are_turned_away r env st :
  RATE_LIMIT ≤ Z.of_nat (length (live (now_rate env) (calls_of (client r) st))) →
  status (handle r env st).1 = 429 ∧
  cache (handle r env st).2 = cache st ∧
  cacheTime (handle r env st).2 = cacheTime st ∧
  calls_of (client r) (handle r env st).2 = live (now_rate env) (calls_of (client r) st) ∧
  ∀ env', now_rate env' = now_rate env → handle r env' st = handle r env st.
Proof.
  intros Hfull.
  assert (∀ env', now_rate env' = now_rate env →
            checkRateLimit (client r) (now_rate env') st =
            (false, set_rateLimits
                      (<[client r := live (now_rate env) (calls_of (client r) st)]>
                         (rateLimits st)) st)) as Hrej.
  { intros env' ->. by apply checkRateLimit_rejects. }
  assert (∀ env', now_rate env' = now_rate env →
            (handle r env' st).2 =
              set_rateLimits
                (<[client r := live (now_rate env) (calls_of (client r) st)]>
                   (rateLimits st)) st ∧
            status (handle r env' st).1 = 429 ∧
            (handle r env' st).1 = (handle r env st).1) as Hall.
  { intros env' Heq. pose proof (Hrej env' Heq) as H1.
    pose proof (Hrej env eq_refl) as H2.
    destruct r as [ip|ip param|ip]; cbn [handle client] in *;
      [unfold snapshot_handler|unfold price_handler|unfold prices_handler];
      by rewrite H1, H2. }
  destruct (Hall env eq_refl) as (Hst & Hstatus & _).
  split; [exact Hstatus|]. rewrite Hst.
  split; [done|]. split; [done|]. split; [by rewrite calls_of_set|].
  intros env' Heq. destruct (Hall env' Heq) as (Hst' & _ & Hresp).
  apply injective_projections; [exact Hresp | by rewrite Hst].
Qed.

(** X18.  No route answers 500.  The adapters never throw, so the [catch]
    of a route is never entered: the cached routes answer 200, 404 or 429
    and the four direct routes 200 or 429. *)
Theorem no_route_answers_500 r ip env st :
  status (handle r env st).1 ∈ [200; 404; 429] ∧
  direct_status (fear_greed_handler ip env st).1 ∈ [200; 429] ∧
  direct_status (tvl_handler ip env st).1 ∈ [200; 429] ∧
  direct_status (stablecoins_handler ip env st).1 ∈ [200; 429] ∧
  direct_status (gas_handler ip env st).1 ∈ [200; 429].
Proof.
  split_and!.
  - destruct r as [c|c param|c]; cbn [handle];
      [unfold snapshot_handler|unfold price_handler|unfold prices_handler];
      destruct (checkRateLimit c (now_rate env) st) as [[|] st1]; cbn [negb];
      try (cbn; set_solver);
      destruct (getCachedSnapshot_served env st1) as (data & st' & ->);
      try (cbn; set_solver).
    destruct (prices data !! toUpperCase param); cbn; set_solver.
  - unfold fear_greed_handler, direct_route.
    destruct (checkRateLimit ip (now_rate env) st) as [[|] st1]; cbn [negb];
      [|cbn; set_solver].
    destruct (fetchFearGreed_total (feargreed_reply (upstream env))) as [[x|] ->];
      cbn; set_solver.
  - unfold tvl_handler, direct_route.
    destruct (checkRateLimit ip (now_rate env) st) as [[|] st1]; cbn [negb];
      [|cbn; set_solver].
    destruct (fetchTVL_total (tvl_reply (upstream env))) as [[x|] ->];
      cbn; set_solver.
  - unfold stablecoins_handler, direct_route.
    destruct (checkRateLimit ip (now_rate env) st) as [[|] st1]; cbn [negb];
      [|cbn; set_solver].
    destruct (fetchStablecoins_total (stablecoins_reply (upstream env))) as [[x|] ->];
      cbn; set_solver.
  - unfold gas_handler, direct_route.
    destruct (checkRateLimit ip (now_rate env) st) as [[|] st1]; cbn [negb];
      [|cbn; set_solver].
    destruct (fetchGas_total (gas_reply (upstream env))) as [[x|] ->];
      cbn; set_solver.
Qed.




(** X20.  [/price/:asset] does not depend on the case of the ticker in the
    URL: a parameter and its upper-case form get the same response and leave
    the same state. *)
Theorem price_route_ignores_case ip param env st :
  price_handler ip (toUpperCase param) env st = price_handler ip param env st.
Proof.
  unfold price_handler. by rewrite toUpperCase_idempotent.
Qed.




(** X22.  [/health] reports [cacheAge: null] exactly when nothing is cached,
    and otherwise the age of the cached snapshot in whole seconds; the age it
    reports is below 60 exactly when [getCachedSnapshot], called at the same
    clock reading, would answer from the cache. *)
Theorem health_reports_the_age_of_the_cache seconds now_ms env st :
  let health := health_handler seconds (now_check env) now_ms st in
  (cacheAge health = None ↔ cache st = None) ∧
  (∀ age, cacheAge health = Some age →
     age = (now_check env - cacheTime st) / 1000 ∧
     (age < 60 ↔ ¬ stale env st)) ∧
  health_status health = "ok"%string.
Proof.
  cbv zeta. unfold health_handler. cbn [cacheAge health_status].
  split_and!; [|intros age|done].
  - by destruct (cache st).
  - unfold stale, CACHE_TTL. destruct (cache st) as [c|]; [|done]. intros [= <-].
    split; [done|].
    split.
    + intros Hage [?|Hold]; [done|].
      assert (60 ≤ (now_check env - cacheTime st) / 1000); [|lia].
      apply Z.div_le_lower_bound; lia.
    + intros Hfresh. apply Z.div_lt_upper_bound; [lia|].
      destruct (decide (now_check env - cacheTime st < 60000)); [lia|].
      destruct Hfresh. right. lia.
Qed.

End Coverage.

(** ** The attestation contract *)

Section Attestation.

Import Contract.

Lemma record_inv m name usd count score bps hash st logs :
  attestationCount st ≠ MAX_UINT256 →
  record m name usd count score bps hash st logs =
    Success (attestationCount st)
      {| oracle := oracle st;
         attestations :=
           <[attestationCount st :=
               {| dataHash := hash; timestamp := block_timestamp m;
                  sourceCount := count; confidence := score; asset := name;
                  price := usd; maxDivergenceBps := bps |}]> (attestations st);
         attestationCount := attestationCount st + 1;
         latestAttestation := <[name := attestationCount st]> (latestAttestation st) |}
      (logs ++ [DataAttested (attestationCount st) name usd score hash
                             (block_timestamp m)]).
Proof. intros Hroom. unfold record. by rewrite decide_False. Qed.

Lemma extends_refl st : extends st st.
Proof. unfold extends. split_and!; [done|lia|done|done]. Qed.

Lemma extends_trans st1 st2 st3 : extends st1 st2 → extends st2 st3 → extends st1 st3.
Proof.
  intros (W1 & C1 & A1 & O1) (W2 & C2 & A2 & O2). split_and!.
  - auto.
  - lia.
  - intros Hwf id a Ha. apply A2; [by apply W1|]. by apply A1.
  - auto.
Qed.

Lemma record_extends m name usd count score bps hash st logs id st' logs' :
  record m name usd count score bps hash st logs = Success id st' logs' →
  extends st st' ∧ oracle st' = oracle st.
Proof.
  unfold record. case_decide as Hmax; [done|]. intros [= <- <- <-].
  split; [|done]. split_and!; cbn [attestationCount attestations oracle]; [|lia| |done].
  - intros (Hcount & Hids & Hlatest & Hlast).
    split_and!; cbn [attestationCount attestations latestAttestation].
    + lia.
    + intros id. destruct (decide (id = attestationCount st)) as [->|Hne].
      * rewrite lookup_insert_eq. split; [lia | by eexists].
      * rewrite lookup_insert_ne by done. rewrite Hids. lia.
    + intros n id. destruct (decide (n = name)) as [->|Hne].
      * rewrite lookup_insert_eq. intros [= <-]. rewrite lookup_insert_eq. by eexists.
      * rewrite lookup_insert_ne by done. intros Hn.
        destruct (Hlatest n id Hn) as (a & Ha & Hasset).
        assert (0 ≤ id < attestationCount st) by (apply Hids; by eexists).
        exists a. by rewrite lookup_insert_ne by lia.
    + intros id a. destruct (decide (id = attestationCount st)) as [->|Hne].
      * rewrite lookup_insert_eq. intros [= <-]. cbn [asset].
        rewrite lookup_insert_eq. eexists. split; [done|lia].
      * rewrite lookup_insert_ne by done. intros Ha.
        destruct (Hlast id a Ha) as (last & Hl & Hle).
        assert (0 ≤ id < attestationCount st) by (apply Hids; by eexists).
        destruct (decide (asset a = name)) as [Hn|Hn].
        -- rewrite Hn, lookup_insert_eq. eexists. split; [done|lia].
        -- rewrite lookup_insert_ne by done. by exists last.
  - intros (_ & Hids & _) id a Ha.
    assert (0 ≤ id < attestationCount st) by (apply Hids; by eexists).
    by rewrite lookup_insert_ne by lia.
Qed.

Lemma attest_each_extends m indices assets prices sourceCounts confidences bps hashes
    st logs st' logs' :
  attest_each m indices assets prices sourceCounts confidences bps hashes st logs
    = Success tt st' logs' →
  extends st st' ∧ oracle st' = oracle st.
Proof.
  revert st logs. induction indices as [|i rest IH]; intros st logs; cbn [attest_each].
  - intros [= <- <-]. split; [apply extends_refl | done].
  - destruct (assets !! i), (prices !! i), (sourceCounts !! i), (confidences !! i),
             (bps !! i), (hashes !! i); try done.
    destruct (record _ _ _ _ _ _ _ _ _) as [id st1 logs1|] eqn:Hrec; [|done].
    apply record_extends in Hrec as [Hext Ho]. intros [Hext' Ho']%IH.
    split; [by eapply extends_trans | congruence].
Qed.

Lemma run_extends m tx st : extends st (run m tx st).
Proof.
  destruct tx as [name usd count score d hash|assets prices counts scores ds hashes|new];
    cbn [run].
  - unfold attest. case_decide; [|apply extends_refl].
    destruct (record _ _ _ _ _ _ _ _ _) as [id st1 logs1|] eqn:Hrec;
      [|apply extends_refl].
    by apply record_extends in Hrec as [? _].
  - unfold attestBatch. case_decide; [|apply extends_refl].
    case_decide; [|apply extends_refl].
    destruct (attest_each _ _ _ _ _ _ _ _ _ _) as [[] st1 logs1|] eqn:Hrun;
      [|apply extends_refl].
    by apply attest_each_extends in Hrun as [? _].
  - unfold transferOracle. case_decide; [|apply extends_refl].
    case_decide; [apply extends_refl|]. cbn [storage_after].
    unfold extends. split_and!; done.
Qed.

Lemma run_all_extends txs st : extends st (run_all txs st).
Proof.
  revert st. induction txs as [|[m tx] txs IH]; intros st; [apply extends_refl|].
  cbn [run_all foldl]. eapply extends_trans; [apply run_extends | apply IH].
Qed.

Lemma constructor_well_formed m : well_formed (constructor m).
Proof.
  split_and!; cbn.
  - done.
  - intros id. rewrite lookup_empty. split; [by intros [? ?] | lia].
  - intros name id. by rewrite lookup_empty.
  - intros id a. by rewrite lookup_empty.
Qed.

Lemma run_all_well_formed (m : Msg) (txs : list (Msg * Tx)) :
  well_formed (run_all txs (constructor m)).
Proof.
  destruct (run_all_extends txs (constructor m)) as (Hwf & _).
  apply Hwf, constructor_well_formed.
Qed.

(** X23.  Only the oracle writes: a transaction of any kind from another
    sender reverts, so transactions that all come from others leave the
    storage exactly as it was. *)
Theorem only_the_oracle_changes_the_storage (txs : list (Msg * Tx)) (st : Storage) :
  Forall (λ call : Msg * Tx, sender call.1 ≠ oracle st) txs →
  run_all txs st = st.
Proof.
  induction 1 as [|[m tx] txs Hm _ IH]; [done|].
  cbn [run_all foldl]. cbn [fst] in Hm.
  assert (run m tx st = st) as ->; [|exact IH].
  destruct tx; cbn [run]; unfold attest, attestBatch, transferOracle;
    by rewrite decide_False.
Qed.

(** X24.  The storage of a deployed contract is always well formed: after
    any transactions, the identifiers in use are exactly 0 to
    [attestationCount - 1], and [latestAttestation] of an asset that was
    attested is the highest identifier of an attestation of that asset. *)
Theorem deployed_storage_is_well_formed (m : Msg) (txs : list (Msg * Tx)) :
  well_formed (run_all txs (constructor m)).
Proof.
  destruct (run_all_extends txs (constructor m)) as (Hkeeps & _).
  apply Hkeeps. apply constructor_well_formed.
Qed.

(** X25.  Attestations are permanent: no transaction changes or removes an
    attestation once written, and the counter never decreases. *)
Theorem attestations_are_never_overwritten
    (txs : list (Msg * Tx)) (st : Storage) (id : Z) (a : Attestation) :
  well_formed st → attestations st !! id = Some a →
  attestations (run_all txs st) !! id = Some a ∧
  attestationCount st ≤ attestationCount (run_all txs st).
Proof.
  intros Hwf Ha. destruct (run_all_extends txs st) as (_ & Hcount & Hkeep & _).
  split; [by apply Hkeep | exact Hcount].
Qed.

(** X26.  What the oracle attests can be read back: [attest] returns the
    old counter as identifier and emits one event; afterwards [verify]
    accepts the attested hash for that identifier and no other, and
    [getLatestPrice] of the asset returns the attested price, confidence and
    hash with the block's timestamp. *)
Theorem attest_can_be_read_back m name usd count score bps hash st :
  sender m = oracle st → attestationCount st ≠ MAX_UINT256 →
  ∃ st',
    attest m name usd count score bps hash st =
      Success (attestationCount st) st'
        [DataAttested (attestationCount st) name usd score hash (block_timestamp m)] ∧
    attestationCount st' = attestationCount st + 1 ∧
    (∀ h, verify (attestationCount st) h st' = true ↔ h = hash) ∧
    getLatestPrice name st' = (usd, score, block_timestamp m, hash).
Proof.
  intros Hs Hroom. unfold attest. rewrite decide_True by done.
  rewrite record_inv by done. eexists. split; [reflexivity|].
  split; [done|]. split.
  - intros h. unfold verify, attestation_at. cbn [attestations].
    rewrite lookup_insert_eq. cbn. rewrite bool_decide_eq_true. split; done.
  - unfold getLatestPrice, latest_id, attestation_at.
    cbn [latestAttestation attestations]. by rewrite !lookup_insert_eq.
Qed.

Lemma attest_each_shift m k n a assets p prices c sourceCounts s confidences d bps
    h hashes st logs :
  attest_each m (seq (S k) n) (a :: assets) (p :: prices) (c :: sourceCounts)
              (s :: confidences) (d :: bps) (h :: hashes) st logs =
  attest_each m (seq k n) assets prices sourceCounts confidences bps hashes st logs.
Proof.
  revert k st logs. induction n as [|n IH]; intros k st logs; [done|].
  cbn [seq attest_each]. rewrite !lookup_cons.
  destruct (assets !! k), (prices !! k), (sourceCounts !! k), (confidences !! k),
           (bps !! k), (hashes !! k); try done.
  destruct (record _ _ _ _ _ _ _ _ _); [apply IH | done].
Qed.

Lemma attest_each_rows m assets prices sourceCounts confidences bps hashes st logs :
  sender m = oracle st →
  length assets = length prices → length assets = length sourceCounts →
  length assets = length confidences → length assets = length bps →
  length assets = length hashes →
  attest_each m (seq 0 (length assets))
              assets prices sourceCounts confidences bps hashes st logs =
  attest_rows m
    (zip (zip (zip (zip (zip assets prices) sourceCounts) confidences) bps) hashes)
    st logs.
Proof.
  revert prices sourceCounts confidences bps hashes st logs.
  induction assets as [|a assets IH];
    intros [|p prices] [|c sourceCounts] [|s confidences] [|d bps] [|h hashes] st logs
           Ho H1 H2 H3 H4 H5; try done.
  cbn [length seq attest_each zip_with attest_rows]. rewrite !lookup_cons.
  unfold attest. rewrite decide_True by done.
  unfold record at 1 2. case_decide; [done|].
  rewrite app_nil_l, attest_each_shift.
  apply IH; cbn [oracle]; by try (simpl in *; lia).
Qed.

(** X27.  A batch is the same as its rows attested one by one: with six
    arrays of one length, [attestBatch] from the oracle leaves the storage
    and emits the events that attesting row after row with [attest] does,
    and reverts where that does; with arrays of different lengths it
    reverts with the length-mismatch message. *)
Theorem attestBatch_is_attest_row_by_row
    m assets prices sourceCounts confidences bps hashes st :
  sender m = oracle st →
  (length assets = length prices ∧ length assets = length sourceCounts ∧
   length assets = length confidences ∧ length assets = length bps ∧
   length assets = length hashes →
   attestBatch m assets prices sourceCounts confidences bps hashes st =
   attest_rows m
     (zip (zip (zip (zip (zip assets prices) sourceCounts) confidences) bps) hashes)
     st []) ∧
  (¬ (length assets = length prices ∧ length assets = length sourceCounts ∧
      length assets = length confidences ∧ length assets = length bps ∧
      length assets = length hashes) →
   attestBatch m assets prices sourceCounts confidences bps hashes st =
   Reverted "MoltOracle: length mismatch").
Proof.
  intros Ho. unfold attestBatch. rewrite decide_True by done. split.
  - intros Hlen. rewrite decide_True by done.
    destruct Hlen as (? & ? & ? & ? & ?). by apply attest_each_rows.
  - intros Hlen. by rewrite decide_False.
Qed.

(** X28.  An asset that was never attested still gets an answer from
    [getLatestPrice]: its [latestAttestation] slot reads 0, so the call
    returns the data of attestation 0, which belongs to another asset. *)
Theorem getLatestPrice_of_an_unattested_asset
    (m : Msg) (txs : list (Msg * Tx)) (name : string) :
  let st := run_all txs (constructor m) in
  latestAttestation st !! name = None → 0 < attestationCount st →
  ∃ first, attestations st !! 0 = Some first ∧ asset first ≠ name ∧
    getLatestPrice name st =
      (price first, confidence first, timestamp first, dataHash first).
Proof.
  intros st Hnone Hsome.
  destruct (run_all_well_formed m txs) as (_ & Hids & _ & Hlast).
  fold st in Hids, Hlast. clearbody st.
  destruct (proj2 (Hids 0)) as [first Hfirst]; [lia|].
  exists first. split; [exact Hfirst|]. split.
  - intros <-. destruct (Hlast 0 first Hfirst) as (last & Hl & _). congruence.
  - unfold getLatestPrice, latest_id, attestation_at. rewrite Hnone. cbn [default from_option id].
    by rewrite Hfirst.
Qed.

(** X29.  [verify] on an identifier that is not in use compares with the
    zero value: it accepts the zero hash and nothing else. *)
Theorem verify_of_an_unused_identifier (st : Storage) (id : Z) (h : bytes32) :
  well_formed st → ¬ (0 ≤ id < attestationCount st) →
  (verify id h st = true ↔ h = 0).
Proof.
  intros (_ & Hids & _) Hout. unfold verify, attestation_at.
  destruct (attestations st !! id) as [a|] eqn:Ha.
  - destruct Hout. apply Hids. by eexists.
  - cbn. rewrite bool_decide_eq_true. split; done.
Qed.

(** X30.  The oracle role is never lost to the zero address: deployed by a
    sender other than zero, the contract has an oracle other than zero after
    any transactions. *)
Theorem oracle_is_never_the_zero_address (m : Msg) (txs : list (Msg * Tx)) :
  sender m ≠ 0 → oracle (run_all txs (constructor m)) ≠ 0.
Proof.
  intros Hm. destruct (run_all_extends txs (constructor m)) as (_ & _ & _ & Ho).
  by apply Ho.
Qed.

End Attestation.

(** * Closed instances of the further properties *)

(** X2 on two quotes of 50. *)
Lemma equal_quotes_give_full_confidence_witness :
  one_quote "X" 50 "coingecko" !! "X"%string = Some (quote 50 "coingecko") ∧
  one_quote "X" 50 "defillama" !! "X"%string = Some (quote 50 "defillama") ∧
  (∃ q, to_number 50 = Num q) ∧
  to_number ((50 + 50) / 2)%float ≠ Num 0 ∧ to_number ((50 + 50) / 2)%float ≠ NaN ∧
  ∃ r, @crossVerify (demo_runtime 30)
         (one_quote "X" 50 "coingecko") (one_quote "X" 50 "defillama") "X" = Some r ∧
       price r = Some 50%float ∧
       divergenceBps r = of_Z 0 ∧ confidence r = 99 ∧ warning r = None.
Proof.
  assert (∃ q, to_number 50 = Num q) as Hfin by (eexists; by vm_compute).
  assert (to_number ((50 + 50) / 2)%float ≠ Num 0) as Hnz by (by vm_compute).
  assert (to_number ((50 + 50) / 2)%float ≠ NaN) as Hnn by (by vm_compute).
  split; [reflexivity|]. split; [reflexivity|]. split; [exact Hfin|].
  split; [exact Hnz|]. split; [exact Hnn|]. destruct Hfin as [q Hfin].
  destruct (@equal_quotes_give_full_confidence (demo_runtime 30)
              (one_quote "X" 50 "coingecko") (one_quote "X" 50 "defillama") "X"
              _ _ q eq_refl eq_refl eq_refl Hfin Hnz Hnn)
    as (r & Hr & Hp & Hd & Hc & Hw).
  exists r. split; [exact Hr|]. split; [exact Hp|]. split; [exact Hd|].
  split; [exact Hc|exact Hw].
Defined.

(** X3 on the SOL quotes of [tests/run.js], 100 and 105, and on the same
    quotes with the sources exchanged. *)
Lemma crossVerify_is_symmetric_witness :
  one_quote "SOL" 100 "coingecko" !! "SOL"%string = Some (quote 100 "coingecko") ∧
  one_quote "SOL" 105 "defillama" !! "SOL"%string = Some (quote 105 "defillama") ∧
  one_quote "SOL" 105 "coingecko" !! "SOL"%string = Some (quote 105 "coingecko") ∧
  one_quote "SOL" 100 "defillama" !! "SOL"%string = Some (quote 100 "defillama") ∧
  ∃ r r',
    @crossVerify (demo_runtime 30)
      (one_quote "SOL" 100 "coingecko") (one_quote "SOL" 105 "defillama") "SOL" = Some r ∧
    @crossVerify (demo_runtime 30)
      (one_quote "SOL" 105 "coingecko") (one_quote "SOL" 100 "defillama") "SOL" = Some r' ∧
    price r' = price r ∧
    divergenceBps r' = divergenceBps r ∧ confidence r' = confidence r ∧
    warning r' = warning r.
Proof.
  split; [reflexivity|]. split; [reflexivity|]. split; [reflexivity|].
  split; [reflexivity|].
  destruct (@crossVerify_is_symmetric (demo_runtime 30)
              (one_quote "SOL" 100 "coingecko") (one_quote "SOL" 105 "defillama")
              (one_quote "SOL" 105 "coingecko") (one_quote "SOL" 100 "defillama") "SOL"
              _ _ _ _ eq_refl eq_refl eq_refl eq_refl eq_refl eq_refl)
    as (r & r' & Hr & Hr' & Hp & Hd & Hc & Hw).
  exists r, r'. split; [exact Hr|]. split; [exact Hr'|]. split; [exact Hp|].
  split; [exact Hd|]. split; [exact Hc|exact Hw].
Defined.

(** X4 on the ETH and SOL quotes of [tests/run.js]: 100 and 488 basis
    points. *)
Lemma larger_divergence_never_raises_confidence_witness :
  ∃ r1 r2,
    @crossVerify (demo_runtime 30)
      (one_quote "ETH" 2000 "coingecko") (one_quote "ETH" 2020 "defillama") "ETH"
      = Some r1 ∧ sources r1 = 2 ∧
    @crossVerify (demo_runtime 30)
      (one_quote "SOL" 100 "coingecko") (one_quote "SOL" 105 "defillama") "SOL"
      = Some r2 ∧ sources r2 = 2 ∧
    number_le (divergenceBps r1) (divergenceBps r2) ∧
    confidence r2 ≤ confidence r1.
Proof.
  eexists _, _.
  split; [reflexivity|]. split; [reflexivity|]. split; [reflexivity|].
  split; [reflexivity|].
  assert (number_le (of_Z 100) (of_Z 488)) as Hle by (by vm_compute).
  split; [exact Hle|].
  exact (@larger_divergence_never_raises_confidence (demo_runtime 30)
           (one_quote "ETH" 2000 "coingecko") (one_quote "ETH" 2020 "defillama")
           (one_quote "SOL" 100 "coingecko") (one_quote "SOL" 105 "defillama")
           "ETH" "SOL" _ _ eq_refl eq_refl eq_refl eq_refl Hle).
Defined.

(** X5 on the record of the SOL quotes of [tests/run.js]. *)
Lemma crossVerify_record_invariants_witness :
  ("SOL"%string ∉ inherited_names) ∧
  ∃ r,
    @crossVerify (demo_runtime 30)
      (one_quote "SOL" 100 "coingecko") (one_quote "SOL" 105 "defillama") "SOL"
      = Some r ∧
    confidence r ∈ confidence_levels ∧
    (sources r = 1 ↔ confidence r = 60) ∧
    (warning r ≠ None → sources r = 2 ∧ confidence r = 40) ∧
    dataHash r = None.
Proof.
  assert ("SOL"%string ∉ inherited_names) as Hown
    by (apply (bool_decide_unpack _); vm_compute; exact I).
  split; [exact Hown|].
  eexists. split; [reflexivity|].
  destruct (@crossVerify_record_invariants (demo_runtime 30)
              (one_quote "SOL" 100 "coingecko") (one_quote "SOL" 105 "defillama") "SOL"
              _ Hown eq_refl)
    as (Hin & _ & _ & H60 & _ & _ & Hwarn & Hhash & _).
  split; [exact Hin|]. split; [exact H60|]. split; [exact Hwarn|exact Hhash].
Defined.

(** X6 on two tickers that are in no table, with providers that would
    answer. *)
Lemma unlisted_assets_are_never_requested_witness :
  Forall (λ a, (a ∉ tickers gecko_ids) ∧ (a ∉ inherited_names)) ["PEPE"; "SHIB"]%string ∧
  fetchCoinGecko ["PEPE"; "SHIB"]%string (coingecko_reply listed_upstream) = Normal ∅ ∧
  fetchDeFiLlama ["PEPE"; "SHIB"]%string (defillama_reply listed_upstream) = Normal ∅ ∧
  ∃ s, @getFullSnapshot (demo_runtime 30) ["PEPE"; "SHIB"]%string listed_upstream
         1700000000000 1700000000000 = Normal s ∧ prices s = ∅.
Proof.
  assert (Forall (λ a, (a ∉ tickers gecko_ids) ∧ (a ∉ inherited_names))
                 ["PEPE"; "SHIB"]%string) as Hout
    by (apply (bool_decide_unpack _); vm_compute; exact I).
  split; [exact Hout|].
  apply (@unlisted_assets_are_never_requested (demo_runtime 30)).
  by apply Forall_forall.
Defined.

(** X7 on a request for BTC: the reply also has an entry for polkadot, so
    DOT is quoted as well. *)
Lemma fetchCoinGecko_quotes_the_listed_entries_witness :
  "BTC"%string ∈ ["BTC"%string] ∧ "BTC"%string ∈ tickers gecko_ids ∧
  ∃ quotes, fetchCoinGecko ["BTC"%string] (Parsed gecko_entries) = Normal quotes ∧
    (∃ q, quotes !! "DOT"%string = Some q ∧ q_price q = 7%float) ∧
    quotes !! "ETH"%string = None.
Proof.
  assert ("BTC"%string ∈ ["BTC"%string]) as Hreq by apply list_elem_of_here.
  assert ("BTC"%string ∈ tickers gecko_ids) as Hin by apply list_elem_of_here.
  split; [exact Hreq|]. split; [exact Hin|].
  destruct (fetchCoinGecko_quotes_the_listed_entries ["BTC"%string] gecko_entries "BTC"
              Hreq Hin) as (quotes & Hq & Hchar).
  exists quotes. split; [exact Hq|]. split.
  - assert (quotes !! "DOT"%string =
            Some (gecko_quote {| usd := 7; usd_24h_change := None;
                                 usd_market_cap := None |})) as Hdot.
    { apply Hchar. exists "polkadot"%string. eexists.
      split; [apply (bool_decide_unpack _); vm_compute; exact I|].
      split; reflexivity. }
    eexists. split; [exact Hdot|reflexivity].
  - destruct (quotes !! "ETH"%string) as [q|] eqn:E; [|reflexivity].
    apply Hchar in E as (id & e & Hid & He & _).
    assert (id = "ethereum"%string) as ->.
    { pose proof gecko_ids_NoDup as Hnd.
      apply (table_lookup_elem_of _ _ _ Hnd) in Hid. vm_compute in Hid. congruence. }
    vm_compute in He. discriminate He.
Defined.

(** X8 on a request for BTC: the coin carries no confidence, the quote has
    0.99. *)
Lemma fetchDeFiLlama_quotes_the_listed_coins_witness :
  "BTC"%string ∈ ["BTC"%string] ∧ "BTC"%string ∈ tickers llama_ids ∧
  coins {| coins := Some llama_coins |} = Some llama_coins ∧
  ∃ quotes,
    fetchDeFiLlama ["BTC"%string] (Parsed {| coins := Some llama_coins |}) = Normal quotes ∧
    ∃ q, quotes !! "BTC"%string = Some q ∧ q_price q = 67005%float ∧
         q_confidence q = Some (99 # 100)%Q.
Proof.
  assert ("BTC"%string ∈ ["BTC"%string]) as Hreq by apply list_elem_of_here.
  assert ("BTC"%string ∈ tickers llama_ids) as Hin by apply list_elem_of_here.
  split; [exact Hreq|]. split; [exact Hin|]. split; [reflexivity|].
  destruct (fetchDeFiLlama_quotes_the_listed_coins ["BTC"%string]
              {| coins := Some llama_coins |} llama_coins "BTC" Hreq Hin eq_refl)
    as (quotes & Hq & Hchar & _).
  exists quotes. split; [exact Hq|].
  assert (quotes !! "BTC"%string =
          Some (llama_quote {| llama_price := 67005; llama_confidence := None |}))
    as Hbtc.
  { apply Hchar. exists "coingecko:bitcoin"%string. eexists.
    split; [apply list_elem_of_here|]. split; reflexivity. }
  eexists. split; [exact Hbtc|split; reflexivity].
Defined.

(** X10 on three pegged assets: all are kept, Tether first, the asset
    without an amount last. *)
Lemma fetchStablecoins_keeps_the_10_largest_witness :
  peggedAssets {| peggedAssets := Some pegged_sample |} = Some pegged_sample ∧
  ∃ kept dropped,
    fetchStablecoins (Parsed {| peggedAssets := Some pegged_sample |}) =
      Normal (Some {| stablecoin_list := stablecoin_item <$> kept;
                      stablecoins_source := "defillama" |}) ∧
    length kept = 3%nat ∧ descending circulating_usd kept ∧
    kept ++ dropped ≡ₚ pegged_sample.
Proof.
  split; [reflexivity|].
  destruct (fetchStablecoins_keeps_the_10_largest
              {| peggedAssets := Some pegged_sample |} pegged_sample eq_refl)
    as (kept & dropped & Hrun & Hperm & Hlen & Hdesc & _).
  exists kept, dropped. split; [exact Hrun|]. split; [exact Hlen|].
  split; [exact Hdesc|exact Hperm].
Defined.

(** X12 on BTC, quoted 67000 and 67005. *)
Lemma snapshot_reconciles_an_asset_quoted_twice_witness :
  "BTC"%string ∈ default_assets ∧
  ("BTC", "bitcoin")%string ∈ gecko_ids ∧
  ("BTC", "coingecko:bitcoin")%string ∈ llama_ids ∧
  ∃ s r, @getFullSnapshot (demo_runtime 30) default_assets listed_upstream
           1700000000000 1700000000000 = Normal s ∧
    prices s !! "BTC"%string = Some r ∧
    price r = Some 67002.5%float ∧ sources r = 2 ∧
    change24h r = Some (- (23 # 10))%Q.
Proof.
  assert ("BTC"%string ∈ default_assets) as Hreq by apply list_elem_of_here.
  assert (("BTC", "bitcoin")%string ∈ gecko_ids) as Hg by apply list_elem_of_here.
  assert (("BTC", "coingecko:bitcoin")%string ∈ llama_ids) as Hl
    by apply list_elem_of_here.
  split; [exact Hreq|]. split; [exact Hg|]. split; [exact Hl|].
  destruct (@snapshot_reconciles_an_asset_quoted_twice (demo_runtime 30)
              default_assets listed_upstream 1700000000000 1700000000000
              "BTC" "bitcoin" "coingecko:bitcoin" gecko_entries
              {| coins := Some llama_coins |} llama_coins
              {| usd := 67000; usd_24h_change := Some (- (23 # 10))%Q;
                 usd_market_cap := Some 1300000000000%Q |}
              {| llama_price := 67005; llama_confidence := None |}
              Hreq Hg Hl eq_refl eq_refl eq_refl eq_refl eq_refl)
    as (s & r & Hs & Hr & Hprice & _ & Hsrc & _ & Hchange & _).
  exists s, r. split; [exact Hs|]. split; [exact Hr|]. split; [exact Hprice|].
  split; [exact Hsrc|exact Hchange].
Defined.

(** X13 on DOT, which CoinGecko alone can quote. *)
Lemma snapshot_prices_come_from_the_tables_witness :
  Forall (λ x, x ∉ inherited_names) ["BTC"; "DOT"]%string ∧
  ("DOT"%string ∉ tickers llama_ids) ∧
  ∃ s r, @getFullSnapshot (demo_runtime 30) ["BTC"; "DOT"]%string listed_upstream
           1700000000000 1700000000000 = Normal s ∧
    prices s !! "DOT"%string = Some r ∧
    sources r = 1 ∧ sourceNames r = ["coingecko"%string] ∧ confidence r = 60.
Proof.
  assert ("DOT"%string ∉ tickers llama_ids) as Hout
    by (apply (bool_decide_unpack _); vm_compute; exact I).
  assert (Forall (λ x, x ∉ inherited_names) ["BTC"; "DOT"]%string) as Hown
    by (apply (bool_decide_unpack _); vm_compute; exact I).
  split; [exact Hown|]. split; [exact Hout|].
  destruct (@getFullSnapshot (demo_runtime 30) ["BTC"; "DOT"]%string listed_upstream
              1700000000000 1700000000000) as [s|e] eqn:Hs;
    [|vm_compute in Hs; discriminate Hs].
  destruct (prices s !! "DOT"%string) as [r|] eqn:Hr;
    [|vm_compute in Hs; injection Hs as <-; vm_compute in Hr; discriminate Hr].
  exists s, r. split; [reflexivity|]. split; [exact Hr|].
  destruct (@snapshot_prices_come_from_the_tables (demo_runtime 30)
              ["BTC"; "DOT"]%string listed_upstream 1700000000000 1700000000000
              s "DOT" r Hown Hs Hr) as (_ & _ & Hsingle).
  destruct (Hsingle Hout) as (H1 & H2 & H3 & _).
  split; [exact H1|]. split; [exact H2|exact H3].
Defined.

(** X14 on [traffic] under a quota of two: of the first client's three
    calls within a minute, two are admitted. *)
Lemma at_most_RATE_LIMIT_admissions_per_hour_witness :
  StronglySorted Z.le traffic.*2 ∧ calls_of "10.0.0.1" initial_state = [] ∧
  (@check_all (demo_runtime 2) traffic initial_state).1
    = [true; true; true; false; true] ∧
  Z.of_nat (length (in_window (-1)
                      (admitted_times "10.0.0.1" traffic
                         (@check_all (demo_runtime 2) traffic initial_state).1)))
  ≤ Z.max 0 2.
Proof.
  assert (StronglySorted Z.le traffic.*2) as Hsorted
    by (apply (bool_decide_unpack _); vm_compute; exact I).
  split; [exact Hsorted|]. split; [reflexivity|]. split; [vm_compute; reflexivity|].
  exact (@at_most_RATE_LIMIT_admissions_per_hour (demo_runtime 2)
           "10.0.0.1" traffic initial_state (-1) Hsorted eq_refl).
Defined.

(** X15 on two clients of a fresh server. *)
Lemma checks_of_different_clients_commute_witness :
  "10.0.0.1"%string ≠ "10.0.0.2"%string ∧
  (@checkRateLimit (demo_runtime 2) "10.0.0.2" 20
     (@checkRateLimit (demo_runtime 2) "10.0.0.1" 10 initial_state).2).2 =
  (@checkRateLimit (demo_runtime 2) "10.0.0.1" 10
     (@checkRateLimit (demo_runtime 2) "10.0.0.2" 20 initial_state).2).2.
Proof.
  assert ("10.0.0.1"%string ≠ "10.0.0.2"%string) as Hne by discriminate.
  split; [exact Hne|].
  apply (@checks_of_different_clients_commute (demo_runtime 2)
           "10.0.0.1" "10.0.0.2" 10 20 initial_state Hne).
Defined.

(** X16 on the three requests of [cached_requests], served from a fresh
    server. *)
Lemma limiter_records_stay_within_quota_witness :
  @records_bounded (demo_runtime 30) initial_state ∧
  @records_bounded (demo_runtime 30)
    (@serve (demo_runtime 30) cached_requests initial_state).2 ∧
  is_Some (rateLimits (@serve (demo_runtime 30) cached_requests initial_state).2
             !! "10.0.0.3"%string).
Proof.
  assert (@records_bounded (demo_runtime 30) initial_state) as Hb
    by (intros ip ts Hts; vm_compute in Hts; discriminate Hts).
  split; [exact Hb|].
  destruct (@limiter_records_stay_within_quota (demo_runtime 30)
              cached_requests initial_state Hb) as [Hb' Hdom].
  split; [exact Hb'|]. apply Hdom. right.
  apply (bool_decide_unpack _). vm_compute. exact I.
Defined.

(** X17 on [spent_state] under a quota of two: a third call one second
    later is turned away. *)
Lemma over_quota_requests_are_turned_away_witness :
  2 ≤ Z.of_nat (length (live 3000 (calls_of "10.0.0.1" spent_state))) ∧
  status (@handle (demo_runtime 2) (GetSnapshot "10.0.0.1")
            (env_at 3000 sample_upstream) spent_state).1 = 429 ∧
  cache (@handle (demo_runtime 2) (GetSnapshot "10.0.0.1")
           (env_at 3000 sample_upstream) spent_state).2 = None ∧
  calls_of "10.0.0.1"
    (@handle (demo_runtime 2) (GetSnapshot "10.0.0.1")
       (env_at 3000 sample_upstream) spent_state).2 = [1000; 2000].
Proof.
  assert (2 ≤ Z.of_nat (length (live 3000 (calls_of "10.0.0.1" spent_state)))) as Hfull
    by (vm_compute; discriminate).
  split; [exact Hfull|].
  destruct (@over_quota_requests_are_turned_away (demo_runtime 2)
              (GetSnapshot "10.0.0.1") (env_at 3000 sample_upstream) spent_state Hfull)
    as (Hstatus & Hcache & _ & Hcalls & _).
  split; [exact Hstatus|]. split; [exact Hcache|exact Hcalls].
Defined.



(** X23: another account tries each kind of transaction on the contract
    after the first attestation. *)
Lemma only_the_oracle_changes_the_storage_witness :
  Forall (λ call : Contract.Msg * Contract.Tx,
            Contract.sender call.1 ≠
            Contract.oracle
              (Contract.run_all btc_attested (Contract.constructor deployer)))
         [ (stranger, Contract.TxAttest "BTC" 1 1 1 1 1);
           (stranger, Contract.TxAttestBatch ["ETH"%string] [1] [1] [1] [1] [1]);
           (stranger, Contract.TxTransferOracle 2) ] ∧
  Contract.run_all
    [ (stranger, Contract.TxAttest "BTC" 1 1 1 1 1);
      (stranger, Contract.TxAttestBatch ["ETH"%string] [1] [1] [1] [1] [1]);
      (stranger, Contract.TxTransferOracle 2) ]
    (Contract.run_all btc_attested (Contract.constructor deployer))
  = Contract.run_all btc_attested (Contract.constructor deployer).
Proof.
  assert (Forall (λ call : Contract.Msg * Contract.Tx,
                    Contract.sender call.1 ≠
                    Contract.oracle
                      (Contract.run_all btc_attested (Contract.constructor deployer)))
                 [ (stranger, Contract.TxAttest "BTC" 1 1 1 1 1);
                   (stranger, Contract.TxAttestBatch ["ETH"%string] [1] [1] [1] [1] [1]);
                   (stranger, Contract.TxTransferOracle 2) ]) as Hothers
    by (repeat (constructor; [vm_compute; discriminate|]); constructor).
  split; [exact Hothers|].
  exact (only_the_oracle_changes_the_storage _ _ Hothers).
Defined.

(** X25: the first attestation survives a second one and a transfer of the
    oracle role. *)
Lemma attestations_are_never_overwritten_witness :
  Contract.well_formed (Contract.run_all btc_attested (Contract.constructor deployer)) ∧
  ∃ a,
    Contract.attestations
      (Contract.run_all btc_attested (Contract.constructor deployer)) !! 0 = Some a ∧
    Contract.attestations
      (Contract.run_all
         [ (deployer, Contract.TxAttest "BTC" 6800000000000 2 95 20 67890);
           (deployer, Contract.TxTransferOracle 2) ]
         (Contract.run_all btc_attested (Contract.constructor deployer))) !! 0 = Some a.
Proof.
  pose proof (run_all_well_formed deployer btc_attested) as Hwf.
  split; [exact Hwf|]. eexists. split; [vm_compute; reflexivity|].
  refine (proj1 (attestations_are_never_overwritten _ _ 0 _ Hwf _)).
  vm_compute. reflexivity.
Defined.

(** X26: the deployer attests BTC on the new contract. *)
Lemma attest_can_be_read_back_witness :
  Contract.sender deployer = Contract.oracle (Contract.constructor deployer) ∧
  Contract.attestationCount (Contract.constructor deployer) ≠ Contract.MAX_UINT256 ∧
  ∃ st',
    Contract.attest deployer "BTC" 6700000000000 2 99 1 12345
      (Contract.constructor deployer) =
    Contract.Success 0 st'
      [Contract.DataAttested 0 "BTC" 6700000000000 99 12345 1700000000] ∧
    Contract.verify 0 12345 st' = true ∧
    Contract.getLatestPrice "BTC" st' = (6700000000000, 99, 1700000000, 12345).
Proof.
  assert (Contract.attestationCount (Contract.constructor deployer)
          ≠ Contract.MAX_UINT256) as Hroom by (vm_compute; discriminate).
  split; [reflexivity|]. split; [exact Hroom|].
  destruct (attest_can_be_read_back deployer "BTC" 6700000000000 2 99 1 12345
              (Contract.constructor deployer) eq_refl Hroom)
    as (st' & Hrun & _ & Hverify & Hlatest).
  exists st'. split; [exact Hrun|]. split; [by apply Hverify|exact Hlatest].
Defined.

(** X27: a batch of two rows on the new contract. *)
Lemma attestBatch_is_attest_row_by_row_witness :
  Contract.sender deployer = Contract.oracle (Contract.constructor deployer) ∧
  Contract.attestBatch deployer ["BTC"; "ETH"]%string [6700000000000; 200000000000]
    [2; 2] [99; 85] [1; 100] [12345; 67890] (Contract.constructor deployer) =
  Contract.attest_rows deployer
    [ ("BTC"%string, 6700000000000, 2, 99, 1, 12345);
      ("ETH"%string, 200000000000, 2, 85, 100, 67890) ]
    (Contract.constructor deployer) [] ∧
  Contract.attestBatch deployer ["BTC"; "ETH"]%string [6700000000000]
    [2; 2] [99; 85] [1; 100] [12345; 67890] (Contract.constructor deployer) =
  Contract.Reverted "MoltOracle: length mismatch".
Proof.
  split; [reflexivity|]. split.
  - apply (attestBatch_is_attest_row_by_row deployer ["BTC"; "ETH"]%string
             [6700000000000; 200000000000] [2; 2] [99; 85] [1; 100] [12345; 67890]
             (Contract.constructor deployer) eq_refl).
    repeat split; reflexivity.
  - apply (attestBatch_is_attest_row_by_row deployer ["BTC"; "ETH"]%string
             [6700000000000] [2; 2] [99; 85] [1; 100] [12345; 67890]
             (Contract.constructor deployer) eq_refl).
    intros [Hlen _]. discriminate Hlen.
Defined.

(** X28: after BTC alone was attested, [getLatestPrice] of ETH returns the
    data of the BTC attestation. *)
Lemma getLatestPrice_of_an_unattested_asset_witness :
  Contract.latestAttestation
    (Contract.run_all btc_attested (Contract.constructor deployer)) !! "ETH"%string
    = None ∧
  0 < Contract.attestationCount
        (Contract.run_all btc_attested (Contract.constructor deployer)) ∧
  Contract.getLatestPrice "ETH"
    (Contract.run_all btc_attested (Contract.constructor deployer))
  = (6700000000000, 99, 1700000000, 12345).
Proof.
  split; [vm_compute; reflexivity|]. split; [vm_compute; reflexivity|].
  destruct (getLatestPrice_of_an_unattested_asset deployer btc_attested "ETH")
    as (first & Hfirst & _ & Hread); [vm_compute; reflexivity..|].
  rewrite Hread. vm_compute in Hfirst. injection Hfirst as <-. reflexivity.
Defined.

(** X29: on the new contract no identifier is in use. *)
Lemma verify_of_an_unused_identifier_witness :
  Contract.well_formed (Contract.constructor deployer) ∧
  ¬ (0 ≤ 5 < Contract.attestationCount (Contract.constructor deployer)) ∧
  Contract.verify 5 0 (Contract.constructor deployer) = true.
Proof.
  pose proof (run_all_well_formed deployer []) as Hwf.
  assert (¬ (0 ≤ 5 < Contract.attestationCount (Contract.constructor deployer)))
    as Hout by (cbn; lia).
  split; [exact Hwf|]. split; [exact Hout|].
  by apply (verify_of_an_unused_identifier (Contract.constructor deployer) 5 0 Hwf Hout).
Defined.

(** X30: the role handed over to account 2, which cannot hand it to 0. *)
Lemma oracle_is_never_the_zero_address_witness :
  Contract.sender deployer ≠ 0 ∧
  Contract.oracle
    (Contract.run_all
       [ (deployer, Contract.TxTransferOracle 2);
         (stranger, Contract.TxTransferOracle 0) ]
       (Contract.constructor deployer)) ≠ 0.
Proof.
  assert (Contract.sender deployer ≠ 0) as Hd by discriminate.
  split; [exact Hd|].
  exact (oracle_is_never_the_zero_address deployer _ Hd).
Defined.
